(** * Cosmetics assistant: the query pipeline, embedded and verified

    A shallow embedding of the Python backend (package [backend]):
    the SQL validator ([utilities/sql_validator.py]), the four agents
    ([agents/intent_agent.py], [agents/sql_agent.py],
    [agents/semantic_agent.py], [agents/response_generator.py]), the
    vector search ([utilities/vector_search.py]), the LangGraph workflow
    ([agents/workflow.py]) and the entry point ([main.py]).

    Python [str] values are modelled by [string], one character for a
    code point. On ASCII text ([isascii]) the blanks, the word
    characters and the letter cases below are those of Python's [str]
    methods and of its [re] module. Beyond ASCII Python knows more
    blanks, more word characters and case mappings that change the
    length of a text; a statement that depends on these is made for
    ASCII text. *)

From Stdlib Require Import List String Ascii Bool Arith ZArith Lia.
From Stdlib Require Import Permutation FinFun DecimalString DecimalNat.
Import ListNotations.
Open Scope string_scope.
Open Scope list_scope.
Open Scope nat_scope.

(** Concatenation of strings, Python's [+] on [str]. *)
Infix "+++" := String.append (right associativity, at level 60).

(* ================================================================== *)
(** * Python strings *)
(* ================================================================== *)

Module PyStr.

Definition code (c : ascii) : nat := nat_of_ascii c.

Definition in_range (lo hi : nat) (c : ascii) : bool :=
  (lo <=? code c) && (code c <=? hi).

(** [str.isspace] and the class [\s] on ASCII: 9..13, 28..31 and 32. *)
Definition is_space (c : ascii) : bool :=
  in_range 9 13 c || in_range 28 32 c.

(** [s.isascii()] *)
Definition ascii_char (c : ascii) : bool := code c <? 128.

Fixpoint isascii (s : string) : bool :=
  match s with
  | EmptyString => true
  | String c s' => ascii_char c && isascii s'
  end.

Definition is_upper (c : ascii) : bool := in_range 65 90 c.
Definition is_lower (c : ascii) : bool := in_range 97 122 c.
Definition is_digit (c : ascii) : bool := in_range 48 57 c.

(** The class [\w] on ASCII: letters, digits and the underscore. *)
Definition is_word (c : ascii) : bool :=
  is_upper c || is_lower c || is_digit c || (code c =? 95).

(** [c.upper()] and [c.lower()] on ASCII, where they keep the length. *)
Definition upper_char (c : ascii) : ascii :=
  if is_lower c then ascii_of_nat (code c - 32) else c.

Definition lower_char (c : ascii) : ascii :=
  if is_upper c then ascii_of_nat (code c + 32) else c.

Fixpoint map_chars (f : ascii -> ascii) (s : string) : string :=
  match s with
  | EmptyString => EmptyString
  | String c s' => String (f c) (map_chars f s')
  end.

(** [s.upper()] and [s.lower()]. *)
Definition upper : string -> string := map_chars upper_char.
Definition lower : string -> string := map_chars lower_char.

(** [s.lstrip()], [s.rstrip()] and [s.strip()]. *)
Fixpoint lstrip (s : string) : string :=
  match s with
  | String c s' => if is_space c then lstrip s' else s
  | EmptyString => EmptyString
  end.

Fixpoint rstrip (s : string) : string :=
  match s with
  | EmptyString => EmptyString
  | String c s' =>
      match rstrip s' with
      | EmptyString => if is_space c then EmptyString else String c EmptyString
      | r => String c r
      end
  end.

Definition strip (s : string) : string := rstrip (lstrip s).

(** [s.find(sub)]: the lowest index where [sub] starts, if any. *)
Fixpoint find (sub s : string) : option nat :=
  if prefix sub s then Some 0
  else match s with
       | EmptyString => None
       | String _ s' => option_map S (find sub s')
       end.

(** [sub in s]. *)
Definition contains (sub s : string) : bool :=
  match find sub s with Some _ => true | None => false end.

(** [s[i:]] and [s[:i]] for a non-negative [i]. *)
Fixpoint drop (i : nat) (s : string) : string :=
  match i, s with
  | S i', String _ s' => drop i' s'
  | _, _ => s
  end.

Fixpoint take (i : nat) (s : string) : string :=
  match i, s with
  | S i', String c s' => String c (take i' s')
  | _, _ => EmptyString
  end.

(** [s.replace(old, new)] for a non-empty [old]: occurrences are replaced
    left to right, without overlap.  [skip] counts the characters of the
    occurrence just replaced that are still to be passed over. *)
Fixpoint replace_from (old new : string) (skip : nat) (s : string) : string :=
  match s with
  | EmptyString => EmptyString
  | String c s' =>
      match skip with
      | S k => replace_from old new k s'
      | O =>
          if prefix old s
          then new +++ replace_from old new (String.length old - 1) s'
          else String c (replace_from old new 0 s')
      end
  end.

Definition replace (old new s : string) : string := replace_from old new 0 s.

(** [sep.join(parts)]. *)
Fixpoint join (sep : string) (parts : list string) : string :=
  match parts with
  | [] => EmptyString
  | [p] => p
  | p :: ps => p +++ sep +++ join sep ps
  end.

(** [str(n)] for a natural number and for an integer. *)
Definition str_of_nat (n : nat) : string :=
  NilEmpty.string_of_uint (Nat.to_uint n).

Definition str_of_Z (z : Z) : string :=
  match z with
  | Z0 => "0"
  | Zpos p => str_of_nat (Pos.to_nat p)
  | Zneg p => "-" +++ str_of_nat (Pos.to_nat p)
  end.

End PyStr.

(* ================================================================== *)
(** * The fragment of [re] the validator uses *)
(* ================================================================== *)

Module Re.
Import PyStr.

(** Character classes. *)
Inductive cls : Type :=
| Space                      (* \s *)
| Word                       (* \w *)
| OneOf (cs : list ascii).   (* [...] *)

Definition cls_mem (k : cls) (c : ascii) : bool :=
  match k with
  | Space => is_space c
  | Word => is_word c
  | OneOf cs => existsb (Ascii.eqb c) cs
  end.

(** Pattern items; a pattern is their sequence. *)
Inductive atom : Type :=
| Chr (c : ascii)      (* a literal character *)
| Cls (k : cls)        (* one character of a class *)
| Star (k : cls)       (* k*, greedy *)
| Plus (k : cls)       (* k+, greedy *)
| Bol                  (* ^ *)
| WordB                (* \b *)
| GOpen                (* ( *)
| GClose.              (* ) *)

Definition pattern := list atom.

Fixpoint lit (s : string) : pattern :=
  match s with
  | EmptyString => []
  | String c s' => Chr c :: lit s'
  end.

(** A position in the subject: the character before it and what follows. *)
Record mres : Type := MRes {
  m_prev : option ascii;
  m_rest : string;
  m_open : option string;   (* what followed the group's start *)
  m_close : option string   (* what followed the group's end *)
}.

Definition chr_eq (ignorecase : bool) (p c : ascii) : bool :=
  if ignorecase then Ascii.eqb (lower_char p) (lower_char c)
  else Ascii.eqb p c.

Definition is_word_opt (o : option ascii) : bool :=
  match o with Some c => is_word c | None => false end.

Definition head_opt (s : string) : option ascii :=
  match s with String c _ => Some c | EmptyString => None end.

(** [\b]: exactly one of the two neighbours is a word character. *)
Definition at_boundary (prev : option ascii) (s : string) : bool :=
  xorb (is_word_opt prev) (is_word_opt (head_opt s)).

(** Backtracking match of a pattern at one position. *)
Fixpoint match_here (ic : bool) (p : pattern) (prev : option ascii)
    (s : string) (go gc : option string) {struct p} : option mres :=
  match p with
  | [] => Some (MRes prev s go gc)
  | a :: p' =>
      match a with
      | Chr x =>
          match s with
          | String c s' =>
              if chr_eq ic x c then match_here ic p' (Some c) s' go gc else None
          | EmptyString => None
          end
      | Cls k =>
          match s with
          | String c s' =>
              if cls_mem k c then match_here ic p' (Some c) s' go gc else None
          | EmptyString => None
          end
      | Star k =>
          (fix star (prev : option ascii) (s : string) {struct s} : option mres :=
             match s with
             | String c s' =>
                 if cls_mem k c then
                   match star (Some c) s' with
                   | Some r => Some r
                   | None => match_here ic p' prev s go gc
                   end
                 else match_here ic p' prev s go gc
             | EmptyString => match_here ic p' prev s go gc
             end) prev s
      | Plus k =>
          match s with
          | String c s' =>
              if cls_mem k c then
                (fix star (prev : option ascii) (s : string) {struct s} : option mres :=
                   match s with
                   | String c s' =>
                       if cls_mem k c then
                         match star (Some c) s' with
                         | Some r => Some r
                         | None => match_here ic p' prev s go gc
                         end
                       else match_here ic p' prev s go gc
                   | EmptyString => match_here ic p' prev s go gc
                   end) (Some c) s'
              else None
          | EmptyString => None
          end
      | Bol =>
          match prev with
          | None => match_here ic p' prev s go gc
          | Some _ => None
          end
      | WordB =>
          if at_boundary prev s then match_here ic p' prev s go gc else None
      | GOpen => match_here ic p' prev s (Some s) gc
      | GClose => match_here ic p' prev s go (Some s)
      end
  end.

(** [re.match(p, s)]: a match at the start of [s]. *)
Definition re_match (ic : bool) (p : pattern) (s : string) : option mres :=
  match_here ic p None s None None.

(** [re.search(p, s)]: the leftmost match. *)
Fixpoint search_from (ic : bool) (p : pattern) (prev : option ascii)
    (s : string) : option mres :=
  match match_here ic p prev s None None with
  | Some r => Some r
  | None =>
      match s with
      | String c s' => search_from ic p (Some c) s'
      | EmptyString => None
      end
  end.

Definition re_search (ic : bool) (p : pattern) (s : string) : option mres :=
  search_from ic p None s.

Definition found (o : option mres) : bool :=
  match o with Some _ => true | None => false end.

(** The text of the group of a match. *)
Definition group1 (r : mres) : string :=
  match m_open r, m_close r with
  | Some o, Some c => take (String.length o - String.length c) o
  | _, _ => EmptyString
  end.

(** [re.findall(p, s)] for a pattern with one group: the group of every
    match, left to right, each search resuming where the last match
    ended.  [skip] counts the characters of the last match still to be
    passed over. *)
Fixpoint findall_from (ic : bool) (p : pattern) (skip : nat)
    (prev : option ascii) (s : string) {struct s} : list string :=
  match skip with
  | S k =>
      match s with
      | String c s' => findall_from ic p k (Some c) s'
      | EmptyString => []
      end
  | O =>
      match match_here ic p prev s None None with
      | Some r =>
          group1 r ::
          match s with
          | String c s' =>
              findall_from ic p
                (String.length s - String.length (m_rest r) - 1) (Some c) s'
          | EmptyString => []
          end
      | None =>
          match s with
          | String c s' => findall_from ic p 0 (Some c) s'
          | EmptyString => []
          end
      end
  end.

Definition re_findall (ic : bool) (p : pattern) (s : string) : list string :=
  findall_from ic p 0 None s.

End Re.

(* ================================================================== *)
(** * [utilities/sql_validator.py] *)
(* ================================================================== *)

Module SQLValidator.
Import PyStr Re.

(** The double quote, which a string literal cannot hold. *)
Definition dquote : ascii := ascii_of_nat 34.
(** The newline, [\n]. *)
Definition newline : ascii := ascii_of_nat 10.

(** [SQLValidator.ALLOWED_TABLES]; only membership is asked of this set. *)
Definition ALLOWED_TABLES : list string :=
  [ "products"; "ingredients"; "product_ingredients"; "companies";
    "brands"; "categories"; "cosmetics"; "chemicals" ].

(** [SQLValidator.DANGEROUS_KEYWORDS], in the order of the source text.
    It is a Python [set]: the order in which the [for] loop of
    [validate_query] visits it is not fixed by the language, so that
    function takes the order as an argument. *)
Definition DANGEROUS_KEYWORDS : list string :=
  [ "DROP"; "DELETE"; "TRUNCATE"; "ALTER";
    "INSERT"; "UPDATE"; "EXEC"; "EXECUTE";
    "CREATE"; "GRANT"; "REVOKE" ].

(** [r'^\s*SELECT\b'] *)
Definition select_pattern : pattern :=
  Bol :: Star Space :: lit "SELECT" ++ [WordB].

(** [rf'\b{keyword}\b'] *)
Definition keyword_pattern (keyword : string) : pattern :=
  WordB :: lit keyword ++ [WordB].

(** [injection_patterns]: the source text of each pattern, which the
    rejection message quotes, and the pattern itself. In the class of
    the first pattern the backslash only escapes the double quote: the
    class holds the two quotes. *)
Definition injection_patterns : list (string * pattern) :=
  [ ("['\" +++ String dquote "]\s*;",
       [Cls (OneOf ["'"%char; dquote]); Star Space; Chr ";"]);
    ("--\s*\n", [Chr "-"; Chr "-"; Star Space; Chr newline]);
    ("/\*", [Chr "/"; Chr "*"]);
    ("xp_", lit "xp_");
    ("sp_", lit "sp_");
    ("UNION\s+SELECT", lit "UNION" ++ Plus Space :: lit "SELECT") ].

(** [r'\bFROM\s+(\w+)'] *)
Definition table_pattern : pattern :=
  WordB :: lit "FROM" ++ [Plus Space; GOpen; Plus Word; GClose].

(** The loop over the dangerous keywords: the first one, in the order of
    the iteration, that occurs in [upper_query] as a whole word. *)
Fixpoint first_keyword (order : list string) (upper_query : string)
  : option string :=
  match order with
  | [] => None
  | keyword :: rest =>
      if found (re_search false (keyword_pattern keyword) upper_query)
      then Some keyword
      else first_keyword rest upper_query
  end.

(** The loop over the injection patterns: the text of the first that is
    found in [query]. *)
Fixpoint first_injection (pats : list (string * pattern)) (query : string)
  : option string :=
  match pats with
  | [] => None
  | (src, p) :: rest =>
      if found (re_search true p query) then Some src
      else first_injection rest query
  end.

(** The loop over the tables found: the first one outside the allow-list. *)
Fixpoint first_disallowed (tables : list string) : option string :=
  match tables with
  | [] => None
  | table :: rest =>
      if existsb (String.eqb (lower table)) ALLOWED_TABLES
      then first_disallowed rest
      else Some table
  end.

Definition msg_empty : string := "Query must be a non-empty string".
Definition msg_select : string :=
  "Only SELECT queries are allowed (read-only operations)".
Definition msg_keyword (keyword : string) : string :=
  "Dangerous SQL keyword '" +++ keyword +++ "' detected - not allowed".
Definition msg_injection (src : string) : string :=
  "Potential SQL injection detected - pattern: " +++ src.
Definition msg_table (table : string) : string :=
  "Access to table '" +++ table +++ "' is not allowed".
Definition msg_length : string :=
  "Query exceeds maximum length (5000 characters)".

(** [SQLValidator.validate_query]: the pair [(is_valid, error_message)].
    [order] is the order in which the set of dangerous keywords is
    visited. *)
Definition validate_query (order : list string) (sql_query : string)
  : bool * option string :=
  match sql_query with
  | EmptyString => (false, Some msg_empty)
  | _ =>
      let query := strip sql_query in
      if negb (found (re_match true select_pattern query))
      then (false, Some msg_select)
      else
        let upper_query := upper query in
        match first_keyword order upper_query with
        | Some keyword => (false, Some (msg_keyword keyword))
        | None =>
            match first_injection injection_patterns query with
            | Some src => (false, Some (msg_injection src))
            | None =>
                match first_disallowed (re_findall true table_pattern query) with
                | Some table => (false, Some (msg_table table))
                | None =>
                    if 5000 <? String.length query
                    then (false, Some msg_length)
                    else (true, None)
                end
            end
        end
  end.

(** [validate_sql_before_execution] *)
Definition validate_sql_before_execution (order : list string)
    (sql_query : string) : bool * option string :=
  validate_query order sql_query.

(** [SQLValidator.sanitize_query] makes three substitutions, each read
    here as the scan it is, left to right and without overlap.

    The first removes two dashes and what follows them on the line: the
    pattern is two dashes and then, as often as possible, a character
    that is not the newline. [inside] tells that such a comment is
    open. *)
Fixpoint drop_line_comments (inside : bool) (s : string) : string :=
  match s with
  | EmptyString => EmptyString
  | String c s' =>
      if inside then
        if Ascii.eqb c newline then String c (drop_line_comments false s')
        else drop_line_comments true s'
      else if prefix "--" s then drop_line_comments true s'
      else String c (drop_line_comments false s')
  end.

(** The second removes a slash and a star, as few characters as possible
    after them, and a star and a slash: a block comment up to the first
    place where it closes. An opening that is never closed stays. [skip]
    counts the characters of the comment still to be passed over. *)
Fixpoint drop_block_comments (skip : nat) (s : string) : string :=
  match s with
  | EmptyString => EmptyString
  | String c s' =>
      match skip with
      | S k => drop_block_comments k s'
      | O =>
          if prefix "/*" s then
            match find "*/" (drop 2 s) with
            | Some i => drop_block_comments (i + 3) s'
            | None => String c (drop_block_comments 0 s')
            end
          else String c (drop_block_comments 0 s')
      end
  end.

(** The third, [re.sub(r'\s+', ' ', query)], puts one space for each run
    of blanks. [inside] tells that a run is open. *)
Fixpoint collapse_blanks (inside : bool) (s : string) : string :=
  match s with
  | EmptyString => EmptyString
  | String c s' =>
      if is_space c then
        if inside then collapse_blanks true s'
        else String " " (collapse_blanks true s')
      else String c (collapse_blanks false s')
  end.

(** [SQLValidator.sanitize_query] *)
Definition sanitize_query (sql_query : string) : string :=
  let query := drop_line_comments false sql_query in
  let query := drop_block_comments 0 query in
  let query := collapse_blanks false query in
  strip query.

(** [r'(\w+)\s*\('] *)
Definition function_pattern : pattern :=
  [GOpen; Plus Word; GClose; Star Space; Chr "("].

(** [r'\bJOIN\b'] and [r'\bWHERE\b'] *)
Definition join_pattern : pattern := WordB :: lit "JOIN" ++ [WordB].
Definition where_pattern : pattern := WordB :: lit "WHERE" ++ [WordB].

(** The dictionary [analysis] of [analyze_query_safety]. *)
Record Analysis : Type := mkAnalysis {
  is_select_only : bool;
  detected_tables : list string;
  detected_functions : list string;
  complexity_level : string;
  safety_score : Z;
  warnings : list string
}.

(** [SQLValidator.analyze_query_safety]. Of the matches of the patterns
    for JOIN and WHERE only the number is used. *)
Definition analyze_query_safety (sql_query : string) : Analysis :=
  let upper_query := upper sql_query in
  let select_only := found (re_match true select_pattern upper_query) in
  let tables := re_findall true table_pattern upper_query in
  let functions := re_findall false function_pattern upper_query in
  let join_count := List.length (re_findall false join_pattern upper_query) in
  let where_count := List.length (re_findall false where_pattern upper_query) in
  let complexity :=
    if 3 <? join_count then "high"
    else if (1 <? join_count) || (1 <? where_count) then "medium"
    else "low" in
  let warnings0 :=
    if 3 <? join_count
    then ["Query has " +++ str_of_nat join_count +++ " JOINs - may be slow"]
    else [] in
  let safety_score := 100%Z in
  let like := contains "LIKE" upper_query in
  let safety_score := if like then (safety_score - 5)%Z else safety_score in
  let warnings1 :=
    if like then warnings0 ++ ["Query uses LIKE operator - may be slow"]
    else warnings0 in
  let safety_score :=
    if contains "JOIN" upper_query
    then (safety_score - 10 * Z.of_nat join_count)%Z else safety_score in
  let safety_score :=
    if String.eqb complexity "high" then (safety_score - 20)%Z
    else safety_score in
  mkAnalysis select_only tables functions complexity
    (Z.max 0 safety_score) warnings1.

(** The dictionary [get_sql_safety_report] returns: the analysis and,
    under the key [validation], the verdict of the validator. *)
Record Report : Type := mkReport {
  analysis : Analysis;
  validation : bool * option string
}.

(** [get_sql_safety_report] *)
Definition get_sql_safety_report (order : list string) (sql_query : string)
  : Report :=
  let verdict := validate_sql_before_execution order sql_query in
  mkReport (analyze_query_safety sql_query) verdict.

End SQLValidator.

(* ================================================================== *)
(** * Python values, exceptions and the outside world *)
(* ================================================================== *)

Module Py.
Import PyStr.

(** A [float], carried by the text [repr] gives for it. *)
Inductive pyfloat : Type := PyFloat (repr : string).

(** Scalars: what a cell of a result table or a metadata field holds. *)
Inductive scalar : Type :=
| SNone
| SBool (b : bool)
| SInt (z : Z)
| SFloat (f : pyfloat)
| SStr (s : string).

(** What [json.loads] returns. A [dict] keeps the order in which its
    keys were first inserted. *)
#[warnings="-register-all"]
Inductive json : Type :=
| JNull
| JBool (b : bool)
| JInt (z : Z)
| JFloat (f : pyfloat)
| JStr (s : string)
| JList (l : list json)
| JDict (d : list (string * json)).

(** The outcome of a call: a value, or an exception with its [str(e)]. *)
Inductive result (A : Type) : Type :=
| Ok (a : A)
| Raise (msg : string).
Arguments Ok {A} a.
Arguments Raise {A} msg.

(** ** Dictionaries with string keys, in insertion order *)

Section Dict.
Context {V : Type}.

Fixpoint dict_get (d : list (string * V)) (k : string) : option V :=
  match d with
  | [] => None
  | (k', v) :: d' => if String.eqb k' k then Some v else dict_get d' k
  end.

Definition dict_has (d : list (string * V)) (k : string) : bool :=
  match dict_get d k with Some _ => true | None => false end.

(** [d[k] = v]: an existing key keeps its place, a new one goes last. *)
Fixpoint dict_set (d : list (string * V)) (k : string) (v : V)
  : list (string * V) :=
  match d with
  | [] => [(k, v)]
  | (k', v') :: d' =>
      if String.eqb k' k then (k', v) :: d' else (k', v') :: dict_set d' k v
  end.

(** [dict(zip(keys, values))] *)
Fixpoint dict_of_pairs (acc : list (string * V)) (kvs : list (string * V))
  : list (string * V) :=
  match kvs with
  | [] => acc
  | (k, v) :: rest => dict_of_pairs (dict_set acc k v) rest
  end.

End Dict.

(** ** Truth values and [str] *)

Definition float_truthy (f : pyfloat) : bool :=
  match f with
  | PyFloat r => negb (String.eqb r "0.0" || String.eqb r "-0.0")
  end.

Definition scalar_truthy (v : scalar) : bool :=
  match v with
  | SNone => false
  | SBool b => b
  | SInt z => negb (Z.eqb z 0)
  | SFloat f => float_truthy f
  | SStr s => negb (String.eqb s EmptyString)
  end.

Definition json_truthy (v : json) : bool :=
  match v with
  | JNull => false
  | JBool b => b
  | JInt z => negb (Z.eqb z 0)
  | JFloat f => float_truthy f
  | JStr s => negb (String.eqb s EmptyString)
  | JList l => match l with [] => false | _ => true end
  | JDict d => match d with [] => false | _ => true end
  end.

Definition bool_str (b : bool) : string := if b then "True" else "False".

(** [str(v)] for a scalar. *)
Definition scalar_str (v : scalar) : string :=
  match v with
  | SNone => "None"
  | SBool b => bool_str b
  | SInt z => str_of_Z z
  | SFloat (PyFloat r) => r
  | SStr s => s
  end.

(** Equality of scalars as members of a [set] or keys of a [dict], for
    scalars that are not floats: [True] and [False] are the integers 1
    and 0. A float is carried by its text, which does not tell whether
    it equals an integer or another float (7.0 is 7, nan is not nan):
    what is stated with this equality is stated for scalars without
    floats. *)
Definition scalar_as_int (v : scalar) : option Z :=
  match v with
  | SBool b => Some (if b then 1%Z else 0%Z)
  | SInt z => Some z
  | _ => None
  end.

Definition scalar_eqb (a b : scalar) : bool :=
  match a, b with
  | SNone, SNone => true
  | SStr x, SStr y => String.eqb x y
  | SFloat (PyFloat x), SFloat (PyFloat y) => String.eqb x y
  | _, _ =>
      match scalar_as_int a, scalar_as_int b with
      | Some x, Some y => Z.eqb x y
      | _, _ => false
      end
  end.

(** ** Operations of the language on [json] values *)

Definition is_str (k : string) (v : json) : bool :=
  match v with JStr s => String.eqb s k | _ => false end.

(** [type(v).__name__] *)
Definition py_type (v : json) : string :=
  match v with
  | JNull => "NoneType"
  | JBool _ => "bool"
  | JInt _ => "int"
  | JFloat _ => "float"
  | JStr _ => "str"
  | JList _ => "list"
  | JDict _ => "dict"
  end.

(** [k in v] *)
Definition py_in (k : string) (v : json) : result bool :=
  match v with
  | JDict d => Ok (dict_has d k)
  | JList l => Ok (existsb (is_str k) l)
  | JStr s => Ok (contains k s)
  | _ => Raise ("argument of type '" +++ py_type v +++ "' is not iterable")
  end.

(** [v[k] = x] *)
Definition py_setitem (v : json) (k : string) (x : json) : result json :=
  match v with
  | JDict d => Ok (JDict (dict_set d k x))
  | JList _ => Raise "list indices must be integers or slices, not str"
  | _ => Raise ("'" +++ py_type v
                +++ "' object does not support item assignment")
  end.

(** [v[k]] *)
Definition py_getitem (v : json) (k : string) : result json :=
  match v with
  | JDict d =>
      match dict_get d k with
      | Some x => Ok x
      | None => Raise ("'" +++ k +++ "'")
      end
  | JList _ => Raise "list indices must be integers or slices, not str"
  | JStr _ => Raise "string indices must be integers, not 'str'"
  | _ => Raise ("'" +++ py_type v +++ "' object is not subscriptable")
  end.

(** [v.get(k, default)] *)
Definition py_get (v : json) (k : string) (default : json) : result json :=
  match v with
  | JDict d =>
      match dict_get d k with
      | Some x => Ok x
      | None => Ok default
      end
  | _ => Raise ("'" +++ py_type v +++ "' object has no attribute 'get'")
  end.

(** [v[:n]] only has to succeed here: a [str] and a [list] can be sliced. *)
Definition py_sliceable (v : json) : bool :=
  match v with
  | JStr _ | JList _ => true
  | _ => false
  end.

(** What [v[:n]] raises for the other values: a [dict] takes the slice
    for a key, which cannot be hashed. *)
Definition slice_error (v : json) : string :=
  match v with
  | JDict _ => "unhashable type: 'slice'"
  | _ => "'" +++ py_type v +++ "' object is not subscriptable"
  end.

Fixpoint chars (s : string) : list string :=
  match s with
  | EmptyString => []
  | String c s' => String c EmptyString :: chars s'
  end.

Fixpoint all_str (l : list json) : option (list string) :=
  match l with
  | [] => Some []
  | JStr s :: l' => option_map (cons s) (all_str l')
  | _ :: _ => None
  end.

(** [sep.join(v)]: the items of [v] must be strings. *)
Definition py_join (sep : string) (v : json) : result string :=
  match v with
  | JStr s => Ok (join sep (chars s))
  | JList l =>
      match all_str l with
      | Some parts => Ok (join sep parts)
      | None => Raise "sequence item: expected str instance"
      end
  | JDict d => Ok (join sep (map fst d))
  | _ => Raise "can only join an iterable"
  end.

(** ** Tables: [pandas.DataFrame] *)

(** A frame: the column labels and the rows, each with its index label. *)
Record DataFrame : Type := mkDataFrame {
  columns : list string;
  records : list (Z * list scalar)
}.

(** [pd.DataFrame()] *)
Definition empty_frame : DataFrame := mkDataFrame [] [].

(** [len(df)] *)
Definition len (df : DataFrame) : Z := Z.of_nat (List.length (records df)).

Fixpoint number_from (i : Z) (rows : list (list scalar))
  : list (Z * list scalar) :=
  match rows with
  | [] => []
  | r :: rows' => (i, r) :: number_from (i + 1)%Z rows'
  end.

(** [pd.DataFrame(results, columns=columns)]: the index is 0, 1, ...
    The cells are carried as they were fetched; pandas may convert the
    cells of a column to one type (a missing number to nan, an integer
    beside it to a float). The shape of a frame, its labels and the
    columns the pipeline adds do not depend on that. *)
Definition frame_of_rows (results : list (list scalar)) (cols : list string)
  : DataFrame :=
  mkDataFrame cols (number_from 0 results).

(** [df.head(n)]: the first [n] rows; for a negative [n], all rows but
    the last [-n]. *)
Definition head (df : DataFrame) (n : Z) : DataFrame :=
  let k := if (0 <=? n)%Z then Z.to_nat n
           else List.length (records df) - Z.to_nat (- n) in
  mkDataFrame (columns df) (firstn k (records df)).

(** [df.insert(0, column, values)], for as many values as rows. *)
Definition insert_first (df : DataFrame) (column : string)
    (values : list scalar) : result DataFrame :=
  if existsb (String.eqb column) (columns df)
  then Raise ("cannot insert " +++ column +++ ", already exists")
  else Ok (mkDataFrame (column :: columns df)
             (map (fun vr => (fst (snd vr), fst vr :: snd (snd vr)))
                  (combine values (records df)))).

(** [row.to_dict()] for a row of [df.iterrows()]. *)
Definition to_dict (df : DataFrame) (row : list scalar)
  : list (string * scalar) :=
  dict_of_pairs [] (combine (columns df) row).

(** ['citation_id' in row] and [row['citation_id']] *)
Definition row_has (df : DataFrame) (column : string) : bool :=
  existsb (String.eqb column) (columns df).

Definition row_get (df : DataFrame) (row : list scalar) (column : string)
  : option scalar :=
  dict_get (combine (columns df) row) column.

(** ** The outside world *)

(** The prompt constants of [backend.prompts], by name. *)
Inductive prompt_name : Type :=
| INTENT_AGENT_PROMPT
| SQL_AGENT_PROMPT
| RESPONSE_GENERATOR_PROMPT.

(** A match of the vector index: its score and its metadata. *)
Record vmatch : Type := mkMatch {
  score : pyfloat;
  metadata : list (string * scalar)
}.

(** The nodes of the workflow graph. *)
Inductive node : Type := intent | sql | semantic | response.

(** What a request does that can be seen from outside, in order. *)
Inductive event : Type :=
| EvStage (n : node)
    (* the banner a node prints on entry *)
| EvGenerate (system : prompt_name) (user_prompt : string) (stream : bool)
    (* a call of the text generator *)
| EvExecute (sql_query : string)
    (* [cursor.execute] *)
| EvReadSql (sql_query : string)
    (* [pd.read_sql_query] *)
| EvIndexQuery (text : string) (top_k : Z).
    (* embedding of [text] and [pinecone_index.query] *)

(** The services and library functions the pipeline calls. Within one
    request no service is asked the same thing twice, so each is a
    function of its arguments. *)
Record Env : Type := mkEnv {
  (** [OllamaClient.generate_from_prompt] or [stream_and_collect]:
      the full text generated *)
  generate : prompt_name -> string -> bool -> result string;
  (** [json.loads] and [json.dumps] *)
  json_loads : string -> result json;
  json_dumps : json -> string;
  (** [str] of a [json] value inside an f-string *)
  json_str : json -> string;
  (** [cursor.execute], then [cursor.fetchall()] and the column names
      of [cursor.description], which is [None] after a statement that
      returns no rows *)
  cursor_execute : string -> result (list (list scalar) * option (list string));
  (** [pd.read_sql_query(sql, conn)['CDPHId'].tolist()] *)
  read_sql_ids : string -> result (list scalar);
  (** [embedding_model.encode] and [pinecone_index.query(...).matches] *)
  index_query : string -> Z -> result (list vmatch);
  (** [df[display_cols].to_string()] *)
  to_string : DataFrame -> list string -> string;
  (** [f"{x:.4f}"] *)
  format_4f : pyfloat -> string
}.

(** ** Computations: a result and the events emitted on the way *)

Definition M (A : Type) : Type := (result A * list event)%type.

Definition ret {A} (a : A) : M A := (Ok a, []).
Definition raise {A} (msg : string) : M A := (Raise msg, []).
Definition emit (e : event) : M unit := (Ok tt, [e]).
Definition lift {A} (r : result A) : M A := (r, []).

Definition bind {A B} (m : M A) (k : A -> M B) : M B :=
  match m with
  | (Ok a, w) => let (r, w') := k a in (r, w ++ w')
  | (Raise msg, w) => (Raise msg, w)
  end.

(** [try: m except Exception as e: handler(str(e))] *)
Definition try_except {A} (m : M A) (handler : string -> M A) : M A :=
  match m with
  | (Ok a, w) => (Ok a, w)
  | (Raise msg, w) => let (r, w') := handler msg in (r, w ++ w')
  end.

Definition value {A} (m : M A) : result A := fst m.
Definition events {A} (m : M A) : list event := snd m.

End Py.

Notation "x <- m ;; k" := (Py.bind m (fun x => k))
  (at level 61, m at next level, right associativity).
Notation "m ;;; k" := (Py.bind m (fun _ => k))
  (at level 61, right associativity).

(* ================================================================== *)
(** * [utilities/ollama_client.py] and [agents/intent_agent.py] *)
(* ================================================================== *)

Module Agents.
Import PyStr Py.

(** A call of [OllamaClient]: [stream_and_collect] when [stream] is set,
    [generate_from_prompt] otherwise; both return the whole text. *)
Definition ollama (E : Env) (system : prompt_name) (user_prompt : string)
    (stream : bool) : M string :=
  emit (EvGenerate system user_prompt stream) ;;;
  lift (generate E system user_prompt stream).

(** The pattern of [json_match]: an opening brace, text without braces,
    any number of times a brace-free object and text without braces, and
    a closing brace. [scan_object] reads what follows the opening brace
    and gives the number of characters up to and with the brace that
    closes the object. [inner] tells that a nested object is open; a
    second level of nesting cannot be matched. *)
Fixpoint scan_object (inner : bool) (s : string) : option nat :=
  match s with
  | EmptyString => None
  | String c s' =>
      if Ascii.eqb c "{" then
        if inner then None else option_map S (scan_object true s')
      else if Ascii.eqb c "}" then
        if inner then option_map S (scan_object false s') else Some 1
      else option_map S (scan_object inner s')
  end.

(** [re.search(..., response, re.DOTALL)] and [.group()] of the match. *)
Fixpoint search_object (s : string) : option string :=
  match s with
  | EmptyString => None
  | String c s' =>
      match (if Ascii.eqb c "{" then scan_object false s' else None) with
      | Some n => Some (take (S n) s)
      | None => search_object s'
      end
  end.

(** [any(word in user_question.lower() for word in words)] *)
Definition any_word_in (words : list string) (user_question : string) : bool :=
  existsb (fun word => contains word (lower user_question)) words.

Definition words_when_missing : list string :=
  ["how many"; "count"; "total"; "top"; "most"].
Definition words_on_error : list string :=
  ["how many"; "count"; "total"; "top"].

Definition type_name (structured : bool) : json :=
  JStr (if structured then "STRUCTURED" else "SEMANTIC").

(** [if key not in intent_data: intent_data[key] = v] *)
Definition set_default (intent_data : json) (key : string) (v : json)
  : result json :=
  match py_in key intent_data with
  | Raise msg => Raise msg
  | Ok true => Ok intent_data
  | Ok false => py_setitem intent_data key v
  end.

(** The body of the [try] of [intent_agent]. *)
Definition intent_agent_try (E : Env) (user_question : string) (stream : bool)
  : M json :=
  response <- ollama E INTENT_AGENT_PROMPT ("Question: " +++ user_question) stream ;;
  let response := strip response in
  intent_data <-
    lift (match search_object response with
          | Some group => json_loads E group
          | None => json_loads E response
          end) ;;
  intent_data <-
    lift (set_default intent_data "query_type"
            (type_name (any_word_in words_when_missing user_question))) ;;
  intent_data <- lift (set_default intent_data "entities" (JDict [])) ;;
  intent_data <- lift (set_default intent_data "intent" (JStr user_question)) ;;
  ret intent_data.

(** The [except] branch of [intent_agent]. *)
Definition intent_agent_default (user_question : string) : json :=
  JDict [ ("intent", JStr user_question);
          ("entities", JDict []);
          ("query_type", type_name (any_word_in words_on_error user_question)) ].

(** [intent_agent(user_question, stream, suppress_debug=True)] *)
Definition intent_agent (E : Env) (user_question : string) (stream : bool)
  : M json :=
  try_except (intent_agent_try E user_question stream)
             (fun _ => ret (intent_agent_default user_question)).

(* ================================================================== *)
(** * [agents/sql_agent.py] *)
(* ================================================================== *)

(** One hint of the prompt: [if group: hints.append(f"{label}{', '.join(group)}")] *)
Definition add_hint (hints : list string) (label : string) (group : json)
  : result (list string) :=
  if json_truthy group then
    match py_join ", " group with
    | Ok text => Ok (hints ++ [label +++ text])
    | Raise msg => Raise msg
    end
  else Ok hints.

Definition result_bind {A B} (r : result A) (k : A -> result B) : result B :=
  match r with
  | Ok a => k a
  | Raise msg => Raise msg
  end.

Definition two_newlines : string :=
  String (ascii_of_nat 10) (String (ascii_of_nat 10) EmptyString).

(** The body of the [try] that builds the prompt from the context. *)
Definition focused_prompt (E : Env) (user_question context : string)
  : result string :=
  result_bind (json_loads E context) (fun context_data =>
  result_bind (py_get context_data "entities" (JDict [])) (fun entities =>
  result_bind (py_get entities "chemicals" (JList [])) (fun chemicals =>
  result_bind (py_get entities "companies" (JList [])) (fun companies =>
  result_bind (py_get entities "brands" (JList [])) (fun brands =>
  result_bind (add_hint [] "Looking for ingredients: " chemicals) (fun hints =>
  result_bind (add_hint hints "Filtering by companies: " companies) (fun hints =>
  result_bind (add_hint hints "Filtering by brands: " brands) (fun hints =>
  Ok (match hints with
      | [] => user_question
      | _ => user_question +++ two_newlines +++ "Context: " +++ join " " hints
      end))))))))).

(** The text of the query, cut out of the generated text. *)
Definition extract_sql (response : string) : string :=
  let sql_query := strip response in
  let sql_query :=
    strip (replace "```" EmptyString
            (replace "```" EmptyString
              (replace "```sql" EmptyString sql_query))) in
  match find "SELECT" (upper sql_query) with
  | Some start_idx =>
      let sql_query := drop start_idx sql_query in
      match find ";" sql_query with
      | Some i => take (i + 1) sql_query
      | None => sql_query
      end
  | None => sql_query
  end.

(** The prompt of [sql_agent]: the question, with the hints of the
    context when there are any and nothing goes wrong on the way. *)
Definition sql_prompt (E : Env) (user_question context : string) : string :=
  match context with
  | EmptyString => user_question
  | _ =>
      match focused_prompt E user_question context with
      | Ok prompt => prompt
      | Raise _ => user_question
      end
  end.

(** [sql_agent(user_question, context, stream, suppress_debug=True)] *)
Definition sql_agent (E : Env) (user_question context : string) (stream : bool)
  : M string :=
  response <- ollama E SQL_AGENT_PROMPT
                (sql_prompt E user_question context) stream ;;
  ret (extract_sql response).

(* ================================================================== *)
(** * [utilities/vector_search.py] and [agents/semantic_agent.py] *)
(* ================================================================== *)

(** An entry of the [sources] lists, by its ['type']. *)
Inductive source : Type :=
| SqlSource (citation_id : string) (row_index : Z)
    (row_data : list (string * scalar))
| SemanticSource (citation_id : string) (rank : Z) (score : pyfloat)
    (product company chemical cdph_id : scalar)
    (full_metadata : list (string * scalar)) (row_index : Z)
| FilteredSource (citation_id : string)
    (product company chemical : scalar)
    (full_metadata : list (string * scalar)) (row_index : Z).

(** [meta.get(key, default)] *)
Definition meta_get (meta : list (string * scalar)) (key : string)
    (default : scalar) : scalar :=
  match dict_get meta key with
  | Some v => v
  | None => default
  end.

Definition NA : scalar := SStr "N/A".

Definition category_of (meta : list (string * scalar)) : scalar :=
  meta_get meta "sub_category" (meta_get meta "primary_category" NA).

(** The columns of the frame [semantic_search] builds, and one row. *)
Definition semantic_columns : list string :=
  [ "citation_id"; "Rank"; "Score"; "Product"; "Chemical"; "CAS Number";
    "Brand"; "Company"; "Category"; "Status"; "CDPH ID" ].

Definition semantic_row (E : Env) (i : Z) (m : vmatch) : list scalar :=
  let meta := metadata m in
  [ SStr ("sem-" +++ str_of_Z i);
    SInt i;
    SStr (format_4f E (score m));
    meta_get meta "product_name" NA;
    meta_get meta "chemical_name" NA;
    meta_get meta "cas_number" NA;
    meta_get meta "brand_name" NA;
    meta_get meta "company_name" NA;
    category_of meta;
    SStr (if scalar_truthy (meta_get meta "is_discontinued" SNone)
          then "Discontinued" else "Active");
    meta_get meta "cdph_id" NA ].

Definition semantic_source (i : Z) (m : vmatch) : source :=
  let meta := metadata m in
  SemanticSource ("sem-" +++ str_of_Z i) i (score m)
    (meta_get meta "product_name" NA)
    (meta_get meta "company_name" NA)
    (meta_get meta "chemical_name" NA)
    (meta_get meta "cdph_id" NA)
    meta i.

(** [enumerate(matches, i)] *)
Fixpoint enumerate (i : Z) (matches : list vmatch) : list (Z * vmatch) :=
  match matches with
  | [] => []
  | m :: rest => (i, m) :: enumerate (i + 1)%Z rest
  end.

(** [pd.DataFrame(results_data)] for rows that all have the columns
    [cols]: without rows the frame has no columns either. *)
Definition frame_of_dicts (cols : list string) (rows : list (list scalar))
  : DataFrame :=
  match rows with
  | [] => empty_frame
  | _ => frame_of_rows rows cols
  end.

(** The frame and the sources [semantic_search] makes of the matches. *)
Definition semantic_frame (E : Env) (matches : list vmatch) : DataFrame :=
  frame_of_dicts semantic_columns
    (map (fun im => semantic_row E (fst im) (snd im)) (enumerate 1 matches)).

Definition semantic_sources_of (matches : list vmatch) : list source :=
  map (fun im => semantic_source (fst im) (snd im)) (enumerate 1 matches).

(** [semantic_search(query_text, top_k, suppress_debug=True)], with the
    connections set. *)
Definition semantic_search (E : Env) (query_text : string) (top_k : Z)
  : M (DataFrame * list source) :=
  emit (EvIndexQuery query_text top_k) ;;;
  matches <- lift (index_query E query_text top_k) ;;
  ret (semantic_frame E matches, semantic_sources_of matches).

Definition hybrid_columns : list string :=
  [ "citation_id"; "Score"; "Product"; "Chemical"; "Brand"; "Company";
    "Category" ].

Definition hybrid_row (E : Env) (citation_count : Z) (m : vmatch)
  : list scalar :=
  let meta := metadata m in
  [ SStr ("hyb-" +++ str_of_Z citation_count);
    SStr (format_4f E (score m));
    meta_get meta "product_name" NA;
    meta_get meta "chemical_name" NA;
    meta_get meta "brand_name" NA;
    meta_get meta "company_name" NA;
    category_of meta ].

Definition hybrid_source (citation_count : Z) (m : vmatch) : source :=
  let meta := metadata m in
  FilteredSource ("hyb-" +++ str_of_Z citation_count)
    (meta_get meta "product_name" NA)
    (meta_get meta "company_name" NA)
    (meta_get meta "chemical_name" NA)
    meta citation_count.

(** The loop of [hybrid_search] over the matches: those whose id is
    among [filtered_ids], until [top_k] of them are kept. *)
Fixpoint hybrid_loop (E : Env) (filtered_ids : list scalar) (top_k : Z)
    (citation_count : Z) (matches : list vmatch)
  : list (list scalar * source) :=
  match matches with
  | [] => []
  | m :: rest =>
      let cdph_id := meta_get (metadata m) "cdph_id" (SStr EmptyString) in
      if negb (existsb (scalar_eqb cdph_id) filtered_ids)
      then hybrid_loop E filtered_ids top_k citation_count rest
      else
        let citation_count := (citation_count + 1)%Z in
        (hybrid_row E citation_count m, hybrid_source citation_count m) ::
        (if (top_k <=? citation_count)%Z then []
         else hybrid_loop E filtered_ids top_k citation_count rest)
  end.

Definition nl : string := String (ascii_of_nat 10) EmptyString.

(** [hybrid_search(semantic_query, sql_filter, top_k, suppress_debug=True)] *)
Definition hybrid_search (E : Env) (semantic_query sql_filter : string)
    (top_k : Z) : M (DataFrame * list source) :=
  let sql := nl +++ "    SELECT DISTINCT CDPHId " +++ nl +++
             "    FROM cosmetic_csv" +++ nl +++
             "    WHERE " +++ sql_filter +++ nl +++ "    " in
  emit (EvReadSql sql) ;;;
  filtered_ids <- lift (read_sql_ids E sql) ;;
  emit (EvIndexQuery semantic_query (top_k * 10)%Z) ;;;
  matches <- lift (index_query E semantic_query (top_k * 10)%Z) ;;
  let kept := hybrid_loop E filtered_ids top_k 0 matches in
  ret (frame_of_dicts hybrid_columns (map fst kept), map snd kept).

(** [semantic_agent(query_text, top_k, sql_filter, suppress_debug=True)] *)
Definition semantic_agent (E : Env) (query_text : string) (top_k : Z)
    (sql_filter : option string) : M (DataFrame * list source) :=
  match sql_filter with
  | Some (String c f) => hybrid_search E query_text (String c f) top_k
  | _ => semantic_search E query_text top_k
  end.

End Agents.

(* ================================================================== *)
(** * [agents/response_generator.py] *)
(* ================================================================== *)

Module ResponseGenerator.
Import PyStr Py Agents.

(** A value of [citation_map]. *)
Record entry : Type := mkEntry {
  e_type : string;
  e_row_index : Z;
  e_row_data : list (string * scalar);
  e_citation_number : Z
}.

(** An item of the citation list returned. *)
Record citation : Type := mkCitation {
  citation_id : scalar;
  type : string;
  row_index : Z;
  citation_number : Z;
  row_data : list (string * string)
}.

(** [citation_map]: a [dict] in insertion order. *)
Definition citation_map : Type := list (scalar * entry).

(** [citation_map[cid] = e] *)
Fixpoint map_set (m : citation_map) (cid : scalar) (e : entry) : citation_map :=
  match m with
  | [] => [(cid, e)]
  | (k, v) :: m' =>
      if scalar_eqb k cid then (k, e) :: m' else (k, v) :: map_set m' cid e
  end.

(** The loop over [df.iterrows()] for SQL results: the map and the
    counter after it. *)
Fixpoint sql_loop (df : DataFrame) (rows : list (Z * list scalar))
    (m : citation_map) (citation_counter : Z) : citation_map * Z :=
  match rows with
  | [] => (m, citation_counter)
  | (idx, row) :: rest =>
      let cid := SStr ("sql-" +++ str_of_Z (idx + 1)) in
      sql_loop df rest
        (map_set m cid (mkEntry "sql" (idx + 1) (to_dict df row) citation_counter))
        (citation_counter + 1)%Z
  end.

(** The loop over [df.iterrows()] for semantic results. *)
Fixpoint semantic_loop (df : DataFrame) (rows : list (Z * list scalar))
    (m : citation_map) (citation_counter : Z) : citation_map * Z :=
  match rows with
  | [] => (m, citation_counter)
  | (idx, row) :: rest =>
      let cid :=
        if row_has df "citation_id"
        then match row_get df row "citation_id" with
             | Some v => v
             | None => SNone
             end
        else SStr ("sem-" +++ str_of_Z (idx + 1)) in
      semantic_loop df rest
        (map_set m cid
           (mkEntry "semantic" (idx + 1) (to_dict df row) citation_counter))
        (citation_counter + 1)%Z
  end.

(** [results]: the keys ["sql_results"] and ["semantic_results"], each
    with its frame when present. *)
Record results : Type := mkResults {
  r_sql_results : option DataFrame;
  r_semantic_results : option DataFrame
}.

(** [key in results and len(results[key]) > 0] *)
Definition present (o : option DataFrame) : option DataFrame :=
  match o with
  | Some df => if (0 <? len df)%Z then Some df else None
  | None => None
  end.

(** What the two blocks of [response_generator] leave behind. *)
Record digest : Type := mkDigest {
  d_results_summary : string;
  d_data_summary : string;
  d_citation_map : citation_map;
  d_citation_counter : Z
}.

Definition not_in (skip : list string) (col : string) : bool :=
  negb (existsb (String.eqb col) skip).

Definition process_sql (E : Env) (res : results) (d : digest) : digest :=
  match present (r_sql_results res) with
  | Some df =>
      let sql_count := len df in
      let display_cols := filter (not_in ["citation_id"]) (columns df) in
      let (m, counter) :=
        sql_loop df (records df) (d_citation_map d) (d_citation_counter d) in
      mkDigest
        (d_results_summary d +++ "SQL RESULTS:" +++ nl +++
           to_string E df display_cols +++ nl +++ nl)
        (d_data_summary d +++ "Found " +++ str_of_Z sql_count +++
           " product result(s) from database query." +++ nl)
        m counter
  | None => d
  end.

Definition process_semantic (E : Env) (res : results) (d : digest) : digest :=
  match present (r_semantic_results res) with
  | Some df =>
      let semantic_count := len df in
      let skip_cols := ["citation_id"; "Rank"; "Score"; "score"] in
      let display_cols := filter (not_in skip_cols) (columns df) in
      let (m, counter) :=
        semantic_loop df (records df) (d_citation_map d) (d_citation_counter d) in
      mkDigest
        (d_results_summary d +++ "SEMANTIC RESULTS:" +++ nl +++
           to_string E df display_cols +++ nl +++ nl)
        (d_data_summary d +++ "Found " +++ str_of_Z semantic_count +++
           " related result(s) from semantic search." +++ nl)
        m counter
  | None => d
  end.

(** The citation table: [citation_map] once both blocks have run. *)
Definition build_digest (E : Env) (res : results) : digest :=
  process_semantic E res
    (process_sql E res (mkDigest EmptyString EmptyString [] 1)).

Definition not_found : string :=
  "No products or data found matching your criteria. Try rephrasing your question or using different search terms.".

Definition build_prompt (user_question : string) (d : digest) : string :=
  let data_context :=
    d_data_summary d +++ nl +++ nl +++ "Complete data retrieved:" +++ nl +++
    d_results_summary d in
  "Question: " +++ user_question +++ nl +++ nl +++
  "Data Retrieved:" +++ nl +++ data_context +++ nl +++ nl +++
  "Provide a comprehensive, natural, and helpful answer that:" +++ nl +++
  "1. Directly addresses the user's question" +++ nl +++
  "2. Summarizes the key findings from the data" +++ nl +++
  "3. Includes specific product details (names, brands, companies, categories) when relevant" +++ nl +++
  "4. Is conversational and easy to understand" +++ nl +++
  "Feel free to reference specific data points with [1], [2], etc. for citations.".

(** [citation_list], from [citation_map.items()]. *)
Definition citation_list_of (m : citation_map) : list citation :=
  map (fun item : scalar * entry =>
         let (cid, data) := item in
         mkCitation cid (e_type data) (e_row_index data)
           (e_citation_number data)
           (map (fun kv => (fst kv, scalar_str (snd kv))) (e_row_data data)))
      m.

(** [response_generator(user_question, results, explain_data, stream,
    suppress_debug=True)]; [explain_data] is not read. *)
Definition response_generator (E : Env) (user_question : string)
    (res : results) (stream : bool) : M (string * list citation) :=
  let d := build_digest E res in
  match d_citation_map d with
  | [] => ret (not_found, @nil citation)
  | _ =>
      response <- ollama E RESPONSE_GENERATOR_PROMPT
                    (build_prompt user_question d) stream ;;
      ret (response, citation_list_of (d_citation_map d))
  end.

End ResponseGenerator.

(* ================================================================== *)
(** * [utilities/config.py] and [agents/workflow.py] *)
(* ================================================================== *)

Module Workflow.
Import PyStr Py Agents ResponseGenerator.

Definition MAX_SQL_RESULTS : Z := 6.
Definition MAX_SEMANTIC_RESULTS : Z := 5.

(** [explain_data]; the empty [dict] a request starts with is [None]. *)
Record explain : Type := mkExplain {
  ex_intent : json;
  ex_steps : list string
}.

(** [AgentState], without the connection handle. *)
Record AgentState : Type := mkState {
  user_question : string;
  intent_analysis : json;
  sql_results : option DataFrame;
  semantic_results : option DataFrame;
  sql_sources : list source;
  semantic_sources : list source;
  sql_query : option string;
  final_response : string;
  citations : list citation;
  explanation : option explain;
  messages : list string;
  stream : bool;
  limit_results : Z
}.

Definition with_intent (st : AgentState) (a : json) (msgs : list string)
  : AgentState :=
  mkState (user_question st) a (sql_results st) (semantic_results st)
    (sql_sources st) (semantic_sources st) (sql_query st)
    (final_response st) (citations st) (explanation st) msgs
    (stream st) (limit_results st).

Definition with_sql (st : AgentState) (df : DataFrame) (q : option string)
    (srcs : list source) (msgs : list string) : AgentState :=
  mkState (user_question st) (intent_analysis st) (Some df)
    (semantic_results st) srcs (semantic_sources st) q
    (final_response st) (citations st) (explanation st) msgs
    (stream st) (limit_results st).

Definition with_semantic (st : AgentState) (df : DataFrame)
    (srcs : list source) (msgs : list string) : AgentState :=
  mkState (user_question st) (intent_analysis st) (sql_results st)
    (Some df) (sql_sources st) srcs (sql_query st)
    (final_response st) (citations st) (explanation st) msgs
    (stream st) (limit_results st).

Definition with_response (st : AgentState) (answer : string)
    (cits : list citation) (ex : explain) : AgentState :=
  mkState (user_question st) (intent_analysis st) (sql_results st)
    (semantic_results st) (sql_sources st) (semantic_sources st)
    (sql_query st) answer cits (Some ex) (messages st)
    (stream st) (limit_results st).

(** [intent_node] *)
Definition intent_node (E : Env) (state : AgentState) : M AgentState :=
  emit (EvStage intent) ;;;
  analysis <- intent_agent E (user_question state) (stream state) ;;
  query_type <- lift (py_getitem analysis "query_type") ;;
  has_reasoning <- lift (py_in "reasoning" analysis) ;;
  (if has_reasoning then
     reasoning <- lift (py_getitem analysis "reasoning") ;;
     if py_sliceable reasoning then ret tt
     else raise (slice_error reasoning)
   else ret tt) ;;;
  ret (with_intent state analysis
         (messages state ++ ["Intent analyzed: " +++ json_str E query_type])).

(** [range(n)] as integers. *)
Definition range (n : nat) : list Z := map Z.of_nat (seq 0 n).

Definition sql_source_of (df : DataFrame) (rec : Z * list scalar) : source :=
  let (idx, row) := rec in
  SqlSource ("sql-" +++ str_of_Z (idx + 1)) (idx + 1) (to_dict df row).

(** The frame [sql_node] makes of what was fetched: at most [limit]
    rows, each with its citation id in a first column. *)
Definition cited_frame (results : list (list scalar)) (cols : list string)
    (limit : Z) : result DataFrame :=
  let df_results := frame_of_rows results cols in
  let df_results :=
    if (limit <? len df_results)%Z then head df_results limit else df_results in
  insert_first df_results "citation_id"
    (map (fun i => SStr ("sql-" +++ str_of_Z (i + 1)))
         (range (List.length (records df_results)))).

(** What [sql_node] leaves in the state when its [try] succeeds, and
    when it fails with the message [e]. *)
Definition sql_done (state : AgentState) (query : string) (df : DataFrame)
  : AgentState :=
  with_sql state df (Some query) (map (sql_source_of df) (records df))
    (messages state ++
       ["SQL executed: " +++ str_of_Z (len df) +++ " results"]).

Definition sql_failed (state : AgentState) (e : string) : AgentState :=
  with_sql state empty_frame None []
    (messages state ++ ["SQL error: " +++ e]).

(** The body of the [try] of [sql_node]. *)
Definition sql_node_try (E : Env) (state : AgentState) : M AgentState :=
  query <- sql_agent E (user_question state)
             (json_dumps E (intent_analysis state)) (stream state) ;;
  emit (EvExecute query) ;;;
  fetched <- lift (cursor_execute E query) ;;
  cols <- match snd fetched with
          | Some cols => ret cols
          | None => raise "'NoneType' object is not iterable"
          end ;;
  df_results <- lift (cited_frame (fst fetched) cols (limit_results state)) ;;
  ret (sql_done state query df_results).

(** [sql_node] *)
Definition sql_node (E : Env) (state : AgentState) : M AgentState :=
  emit (EvStage sql) ;;;
  try_except (sql_node_try E state) (fun e => ret (sql_failed state e)).

Definition semantic_done (state : AgentState) (df : DataFrame)
    (sources : list source) : AgentState :=
  with_semantic state df sources
    (messages state ++
       ["Semantic search: " +++ str_of_Z (len df) +++ " results"]).

Definition semantic_failed (state : AgentState) (e : string) : AgentState :=
  with_semantic state empty_frame []
    (messages state ++ ["Semantic error: " +++ e]).

(** The body of the [try] of [semantic_node]. *)
Definition semantic_node_try (E : Env) (state : AgentState) : M AgentState :=
  let limit := Z.min (limit_results state) MAX_SEMANTIC_RESULTS in
  found <- semantic_agent E (user_question state) limit None ;;
  ret (semantic_done state (fst found) (snd found)).

(** [semantic_node] *)
Definition semantic_node (E : Env) (state : AgentState) : M AgentState :=
  emit (EvStage semantic) ;;;
  try_except (semantic_node_try E state)
    (fun e => ret (semantic_failed state e)).

(** [response_node] *)
Definition response_node (E : Env) (state : AgentState) : M AgentState :=
  emit (EvStage response) ;;;
  let res := mkResults (present (sql_results state))
                       (present (semantic_results state)) in
  let explain_data := mkExplain (intent_analysis state) (messages state) in
  answer <- response_generator E (user_question state) res (stream state) ;;
  ret (with_response state (fst answer) (snd answer) explain_data).

(** [state["intent_analysis"].get("query_type", "SEMANTIC")] *)
Definition query_type_of (state : AgentState) : result json :=
  py_get (intent_analysis state) "query_type" (JStr "SEMANTIC").

(** [should_use_sql]: the node its answer names. *)
Definition should_use_sql (state : AgentState) : result node :=
  result_bind (query_type_of state) (fun query_type =>
  if is_str "STRUCTURED" query_type || is_str "COMBINED" query_type
  then Ok sql else Ok semantic).

(** [should_use_semantic] *)
Definition should_use_semantic (state : AgentState) : result node :=
  result_bind (query_type_of state) (fun query_type =>
  if is_str "COMBINED" query_type then Ok semantic else Ok response).

(** ** The compiled graph *)

Definition run_node (E : Env) (n : node) : AgentState -> M AgentState :=
  match n with
  | intent => intent_node E
  | sql => sql_node E
  | semantic => semantic_node E
  | response => response_node E
  end.

(** The edges: the node that follows, [None] for [END]. *)
Definition next_node (n : node) (state : AgentState) : result (option node) :=
  match n with
  | intent => result_bind (should_use_sql state) (fun n' => Ok (Some n'))
  | sql => result_bind (should_use_semantic state) (fun n' => Ok (Some n'))
  | semantic => Ok (Some response)
  | response => Ok None
  end.

(** What a node returns is written back key by key; [messages] is
    declared with [operator.add], so what is returned for it is added
    to what was there. *)
Definition write_back (old returned : AgentState) : AgentState :=
  mkState (user_question returned) (intent_analysis returned)
    (sql_results returned) (semantic_results returned)
    (sql_sources returned) (semantic_sources returned)
    (sql_query returned) (final_response returned) (citations returned)
    (explanation returned) (messages old ++ messages returned)
    (stream returned) (limit_results returned).

(** The driver: one node per step, at most [steps] of them. *)
Fixpoint run (E : Env) (steps : nat) (n : node) (state : AgentState)
  : M AgentState :=
  match steps with
  | O => raise "Recursion limit reached"
  | S steps' =>
      returned <- run_node E n state ;;
      let state' := write_back state returned in
      following <- lift (next_node n state') ;;
      match following with
      | None => ret state'
      | Some n' => run E steps' n' state'
      end
  end.

(** The default limit of steps of a compiled graph. *)
Definition recursion_limit : nat := 25.

(** [compiled_workflow.invoke(initial_state)], entered at ["intent"]. *)
Definition invoke (E : Env) (initial_state : AgentState) : M AgentState :=
  run E recursion_limit intent initial_state.

End Workflow.

(* ================================================================== *)
(** * [main.py] *)
(* ================================================================== *)

Module Main.
Import PyStr Py Agents ResponseGenerator Workflow.

(** The [dict] returned by [query_cosmetics_db]. *)
Record QueryResult : Type := mkQueryResult {
  qr_answer : string;
  qr_sql_results : option DataFrame;
  qr_semantic_results : option DataFrame;
  qr_sql_query : option string;
  qr_sources : list source;
  qr_citations : list citation;
  qr_explanation : option explain;
  qr_intent : json
}.

Definition initial_state (user_question : string) (stream : bool)
    (limit_results : Z) : AgentState :=
  mkState user_question (JDict []) None None [] [] None EmptyString [] None []
    stream (Z.min limit_results MAX_SQL_RESULTS).

(** [query_cosmetics_db(user_question, stream, limit_results)], once
    [initialize()] has built the workflow. *)
Definition query_cosmetics_db (E : Env) (user_question : string)
    (stream : bool) (limit_results : Z) : M QueryResult :=
  final_state <- invoke E (initial_state user_question stream limit_results) ;;
  ret (mkQueryResult (final_response final_state)
         (sql_results final_state) (semantic_results final_state)
         (sql_query final_state)
         (sql_sources final_state ++ semantic_sources final_state)
         (citations final_state) (explanation final_state)
         (intent_analysis final_state)).

(** [QueryRequest] and [QueryResponse] *)
Record QueryRequest : Type := mkRequest {
  question : string;
  rq_stream : bool;
  rq_limit_results : Z
}.

Record QueryResponse : Type := mkResponse {
  answer : string;
  rs_sql_results : option (list (list (string * string)));
  rs_semantic_results : option (list (list (string * string)));
  sql_query_used : option string;
  sources : list source;
  rs_citations : list citation;
  rs_explanation : option explain;
  rs_intent : json
}.

(** What the endpoint answers: the response, or [HTTPException(500)]. *)
Inductive http : Type :=
| Http200 (r : QueryResponse)
| Http500 (detail : string).

(** A frame without its internal columns, every value as text:
    [df.drop(columns=internal_cols).astype(str).to_dict('records')]. *)
Definition public_records (df : DataFrame) : list (list (string * string)) :=
  map (fun rec : Z * list scalar =>
         dict_of_pairs []
           (map (fun kv => (fst kv, scalar_str (snd kv)))
              (filter (fun kv => not_in ["citation_id"; "Rank"; "Score"] (fst kv))
                 (combine (columns df) (snd rec)))))
      (records df).

Definition public_frame (o : option DataFrame)
  : option (list (list (string * string))) :=
  option_map public_records (present o).

(** [query_endpoint(request)] *)
Definition query_endpoint (E : Env) (request : QueryRequest) : M http :=
  try_except
    (result <- query_cosmetics_db E (question request) (rq_stream request)
                 (rq_limit_results request) ;;
     ret (Http200
            (mkResponse (qr_answer result)
               (public_frame (qr_sql_results result))
               (public_frame (qr_semantic_results result))
               None (qr_sources result) (qr_citations result)
               (qr_explanation result) (qr_intent result))))
    (fun e => ret (Http500 e)).

End Main.

(* ================================================================== *)
(** * What the specification says, in its own words *)
(* ================================================================== *)

Module Spec.
Import PyStr Py Agents ResponseGenerator Workflow.

(** A text starts with the word SELECT, in either case: its first six
    letters, and no letter, digit or underscore after them. *)
Definition select_word (s : string) : bool :=
  prefix "SELECT" (upper s)
  && negb (Re.is_word_opt (Re.head_opt (drop 6 s))).

(** A query begins with the read-only keyword: leading blanks aside, it
    starts with the word SELECT. *)
Definition begins_with_select (sql_query : string) : bool :=
  select_word (lstrip sql_query).

(** The first example query of the specification. *)
Definition titanium_query : string :=
  "SELECT COUNT(DISTINCT CDPHId) FROM cosmetic_csv WHERE ChemicalName LIKE '%titanium dioxide%'".

Definition drop_suffix : string := "; DROP TABLE cosmetic_csv".

Definition update_query : string := "UPDATE cosmetic_csv SET ...".

(** A join with a table that is not on the allow-list. *)
Definition join_query : string :=
  "SELECT p.name FROM products p JOIN secrets s ON p.id = s.id".

(** The route after the intent stage, by the table of transitions:
    STRUCTURED goes through structured retrieval only, COMBINED through
    structured and then semantic retrieval, anything else through
    semantic retrieval only; all end in synthesis. *)
Definition route (query_type : json) : list node :=
  if is_str "STRUCTURED" query_type then [sql; response]
  else if is_str "COMBINED" query_type then [sql; semantic; response]
  else [semantic; response].

(** Two states of one request: same question, same intent, same
    options. *)
Definition same_request (a b : AgentState) : Prop :=
  user_question a = user_question b /\
  intent_analysis a = intent_analysis b /\
  stream a = stream b /\
  limit_results a = limit_results b.

(** The stages a request went through, from the banners in its trace. *)
Fixpoint stages (trace : list event) : list node :=
  match trace with
  | [] => []
  | EvStage n :: rest => n :: stages rest
  | _ :: rest => stages rest
  end.

(** The calls that belong to structured and to semantic retrieval. *)
Definition structured_call (e : event) : bool :=
  match e with
  | EvExecute _ | EvGenerate SQL_AGENT_PROMPT _ _ | EvStage sql => true
  | _ => false
  end.

Definition semantic_call (e : event) : bool :=
  match e with
  | EvIndexQuery _ _ | EvReadSql _ | EvStage semantic => true
  | _ => false
  end.

(** The queries a trace shows as executed against the store. *)
Fixpoint executed (trace : list event) : list string :=
  match trace with
  | [] => []
  | EvExecute q :: rest => q :: executed rest
  | _ :: rest => executed rest
  end.

(** A result set without rows, absent or empty. *)
Definition no_rows (o : option DataFrame) : Prop :=
  match o with
  | Some df => records df = []
  | None => True
  end.

(** Rows in their order, the one at position [i] (from 0) under the
    index label [i] and with the citation id [sql-(i+1)] in front. *)
Fixpoint cited (i : Z) (rows : list (list scalar)) : list (Z * list scalar) :=
  match rows with
  | [] => []
  | row :: rest =>
      (i, SStr ("sql-" +++ str_of_Z (i + 1)) :: row) :: cited (i + 1)%Z rest
  end.

(** The result sets a request can hold when synthesis begins: none
    when the stage did not run, the empty one after a failure, and
    otherwise what the stage made of what it was given. *)
Inductive structured_result : option DataFrame -> Prop :=
| structured_absent : structured_result None
| structured_failed : structured_result (Some empty_frame)
| structured_done rows cols limit df :
    cited_frame rows cols limit = Ok df -> structured_result (Some df).

Inductive semantic_result (E : Env) : option DataFrame -> Prop :=
| semantic_absent : semantic_result E None
| semantic_failed_empty : semantic_result E (Some empty_frame)
| semantic_done matches : semantic_result E (Some (semantic_frame E matches)).

Definition rows_of (o : option DataFrame) : list (list scalar) :=
  match o with
  | Some df => map snd (records df)
  | None => []
  end.

Definition frame_of (o : option DataFrame) : DataFrame :=
  match o with
  | Some df => df
  | None => empty_frame
  end.

(** The ids of one result set: [tag (i+1)], ..., [tag (i+n)]. *)
Definition ids (tag : string) (i n : nat) : list string :=
  map (fun j => tag +++ str_of_nat j) (seq (S i) n).

(** The citation table of the specification for one result set: one
    entry for each row, in the order of the rows; the row at position
    [i] (from 0) under the id [tag (i+1)], with [number] and the
    numbers that follow it. *)
Fixpoint table_of (tag kind : string) (df : DataFrame) (i : nat)
    (number : Z) (rows : list (list scalar)) : citation_map :=
  match rows with
  | [] => []
  | row :: rest =>
      (SStr (tag +++ str_of_nat (S i)),
       mkEntry kind (Z.of_nat (S i)) (to_dict df row) number)
      :: table_of tag kind df (S i) (number + 1)%Z rest
  end.


(** What the classifier is given to work with: the value decoded from
    the text of the model, or the failure of the generation or of the
    decoding. *)
Definition classifier_output (E : Env) (user_question : string)
    (stream : bool) : result json :=
  result_bind
    (generate E INTENT_AGENT_PROMPT ("Question: " +++ user_question) stream)
    (fun response =>
       let response := strip response in
       match search_object response with
       | Some group => json_loads E group
       | None => json_loads E response
       end).

(** The question is about counting: it holds, in lower case, one of the
    words count, total, top or how many. *)
Definition counting_question (user_question : string) : bool :=
  let q := lower user_question in
  contains "count" q || contains "total" q || contains "top" q
  || contains "how many" q.

(** The same, with the word most as well. *)
Definition counting_or_most (user_question : string) : bool :=
  counting_question user_question || contains "most" (lower user_question).

(** A trace without any call of either retriever. *)
Definition quiet (w : list event) : Prop :=
  existsb structured_call w = false /\ existsb semantic_call w = false.

(** Nothing of structured retrieval happens once semantic retrieval has
    begun. *)
Fixpoint structured_before_semantic (trace : list event) : bool :=
  match trace with
  | [] => true
  | e :: rest =>
      (if semantic_call e then negb (existsb structured_call rest) else true)
      && structured_before_semantic rest
  end.

(** The last character of a text, if it has one. *)
Fixpoint last_char (s : string) : option ascii :=
  match s with
  | EmptyString => None
  | String c EmptyString => Some c
  | String _ s' => last_char s'
  end.

(** [w] occurs in [u] as a whole word: somewhere in [u], with no word
    character next to it on either side. *)
Definition whole_word (w u : string) : Prop :=
  exists pre post,
    u = pre +++ w +++ post /\
    Re.is_word_opt (last_char pre) = false /\
    Re.is_word_opt (Re.head_opt post) = false.

(** The generated text without code fences and surrounding blanks, as
    [extract_sql] has it before it looks for the query. *)
Definition unfenced (response : string) : string :=
  strip (replace "```" EmptyString
          (replace "```" EmptyString
            (replace "```sql" EmptyString (strip response)))).

(** A text that, read from the left, opens no brace it does not close,
    closes none it did not open, and never has two open at once.
    [inner] tells that one is open at the start. *)
Fixpoint shallow (inner : bool) (s : string) : bool :=
  match s with
  | EmptyString => negb inner
  | String c s' =>
      if Ascii.eqb c "{" then (if inner then false else shallow true s')
      else if Ascii.eqb c "}" then (if inner then shallow false s' else false)
      else shallow inner s'
  end.

(** A text without braces. *)
Fixpoint brace_free (s : string) : bool :=
  match s with
  | EmptyString => true
  | String c s' =>
      negb (Ascii.eqb c "{") && negb (Ascii.eqb c "}") && brace_free s'
  end.

(** [d] with the default [v] for the key [k]. *)
Definition defaulted (d : list (string * json)) (k : string) (v : json)
  : list (string * json) :=
  if dict_has d k then d else dict_set d k v.







(** The columns the endpoint keeps to itself. *)
Definition internal_columns : list string := ["citation_id"; "Rank"; "Score"].

(** The result sets of a state are those the stages make. *)
Definition results_made (E : Env) (st : AgentState) : Prop :=
  structured_result (sql_results st) /\
  semantic_result E (semantic_results st).

(** The number of rows of a list of records that may be absent. *)
Definition shown {A} (o : option (list A)) : nat :=
  match o with
  | Some l => List.length l
  | None => 0
  end.

(** The index queries and the store reads of a trace, and the prompts
    the text generator was called with. *)
Definition index_queries (trace : list event) : list (string * Z) :=
  flat_map (fun e => match e with
                     | EvIndexQuery text top_k => [(text, top_k)]
                     | _ => []
                     end) trace.

Definition store_reads (trace : list event) : list string :=
  flat_map (fun e => match e with EvReadSql q => [q] | _ => [] end) trace.

Definition generations (trace : list event) : list prompt_name :=
  flat_map (fun e => match e with EvGenerate p _ _ => [p] | _ => [] end) trace.

(** What a request may ask of the index: the question, for the number
    of neighbours [top_k]; and nothing of the store but through
    [cursor.execute]. *)
Definition index_call_of (user_question : string) (top_k : Z) (e : event)
  : Prop :=
  match e with
  | EvIndexQuery text k => text = user_question /\ k = top_k
  | EvReadSql _ => False
  | _ => True
  end.

(** Every blank of a text is a space, and none follows another blank;
    [after_blank] tells that the character before was one. *)
Fixpoint single_spaced (after_blank : bool) (s : string) : bool :=
  match s with
  | EmptyString => true
  | String c s' =>
      if is_space c
      then Ascii.eqb c " " && negb after_blank && single_spaced true s'
      else single_spaced false s'
  end.

(** The number of JOINs of a query, as whole words and in either case. *)
Definition joins (sql_query : string) : nat :=
  List.length
    (Re.re_findall false SQLValidator.join_pattern (upper sql_query)).

(** The score of [n] JOINs, with or without a LIKE. *)
Definition score_of (n : nat) (like : bool) : Z :=
  Z.max 0 (100 - (if like then 5 else 0) - 10 * Z.of_nat n
           - (if 3 <? n then 20 else 0)).

(** A value that is not an object and yet passes the three tests of
    [intent_agent] for its keys: a text in which the three names occur,
    or a list that holds them. *)
Definition names_keys (v : json) : bool :=
  match v with
  | JStr s =>
      contains "query_type" s && contains "entities" s && contains "intent" s
  | JList l =>
      existsb (is_str "query_type") l && existsb (is_str "entities") l
      && existsb (is_str "intent") l
  | _ => false
  end.

End Spec.

(* ================================================================== *)
(** * Sample worlds *)
(* ================================================================== *)

Module Samples.
Import PyStr Py Agents ResponseGenerator Workflow Main SQLValidator.

Definition quoted (s : string) : string :=
  String dquote s +++ String dquote EmptyString.

(** [json.dumps] on values whose strings need no escape. *)
Fixpoint dumps (v : json) : string :=
  match v with
  | JNull => "null"
  | JBool b => if b then "true" else "false"
  | JInt z => str_of_Z z
  | JFloat (PyFloat r) => r
  | JStr s => quoted s
  | JList l => "[" +++ join ", " (map dumps l) +++ "]"
  | JDict d =>
      "{" +++ join ", " (map (fun kv => quoted (fst kv) +++ ": " +++ dumps (snd kv)) d)
          +++ "}"
  end.

(** [json.loads] on the texts of the values listed, an error elsewhere. *)
Fixpoint loads (known : list json) (text : string) : result json :=
  match known with
  | [] => Raise "Expecting value: line 1 column 1 (char 0)"
  | v :: rest => if String.eqb (dumps v) text then Ok v else loads rest text
  end.

Definition show (v : json) : string :=
  match v with
  | JStr s => s
  | other => dumps other
  end.

(** A world: what the text generator answers to each of the three
    prompts, what the store and the index return, and the [json] values
    that occur. *)
Definition world (intent_reply sql_reply answer_reply : result string)
    (table : result (list (list scalar) * option (list string)))
    (matches : result (list vmatch)) (known : list json) : Env :=
  mkEnv
    (fun system _ _ =>
       match system with
       | INTENT_AGENT_PROMPT => intent_reply
       | SQL_AGENT_PROMPT => sql_reply
       | RESPONSE_GENERATOR_PROMPT => answer_reply
       end)
    (loads known)
    dumps
    show
    (fun _ => table)
    (fun _ => Ok [])
    (fun _ top_k => match matches with
                    | Ok ms => Ok (firstn (Z.to_nat top_k) ms)
                    | Raise e => Raise e
                    end)
    (fun _ _ => "(table)")
    (fun _ => "0.5000").

Definition typed (query_type : string) : json :=
  JDict [("query_type", JStr query_type)].

Definition analysed (query_type user_question : string) : json :=
  JDict [ ("query_type", JStr query_type); ("entities", JDict []);
          ("intent", JStr user_question) ].

Definition paraben_question : string := "Which products contain parabens?".

Definition eight_rows : list (list scalar) :=
  map (fun i => [SInt (Z.of_nat i); SStr "Paraben cream"]) (seq 101 8).

Definition two_matches : list vmatch :=
  [ mkMatch (PyFloat "0.5") [("product_name", SStr "Lotion"); ("cdph_id", SInt 7)];
    mkMatch (PyFloat "0.5") [("product_name", SStr "Balm")] ].

(** The classifier asks for both retrievers; the store returns eight
    rows and the index two matches. *)
Definition combined_world : Env :=
  world (Ok (dumps (typed "COMBINED")))
        (Ok "SELECT CDPHId, ProductName FROM cosmetic_csv LIMIT 50")
        (Ok "Several products contain parabens [1].")
        (Ok (eight_rows, Some ["CDPHId"; "ProductName"]))
        (Ok two_matches)
        [typed "COMBINED"; analysed "COMBINED" paraben_question].

(** The text generator answers the query prompt with a statement that
    drops the table. *)
Definition drop_world : Env :=
  world (Ok (dumps (typed "STRUCTURED")))
        (Ok "DROP TABLE cosmetic_csv")
        (Ok "Done.")
        (Ok ([], None))
        (Ok [])
        [typed "STRUCTURED"; analysed "STRUCTURED" paraben_question].


(** The store and the index are both unreachable. *)
Definition stores_down_world : Env :=
  world (Ok (dumps (typed "COMBINED")))
        (Ok "SELECT CDPHId, ProductName FROM cosmetic_csv LIMIT 50")
        (Ok "Nothing.")
        (Raise "unable to open database file")
        (Raise "index unreachable")
        [typed "COMBINED"; analysed "COMBINED" paraben_question].

(** The classifier names a query type of its own. *)
Definition hybrid_world : Env :=
  world (Ok ("Sure: " +++ dumps (typed "HYBRID")))
        (Ok "SELECT 1")
        (Ok "Done.")
        (Ok ([], Some ["1"]))
        (Ok [])
        [typed "HYBRID"; analysed "HYBRID" paraben_question].

(** The classifier answers with prose only. *)
Definition prose_world : Env :=
  world (Ok "I think this is about counting.")
        (Ok "SELECT 1")
        (Ok "Done.")
        (Ok ([], Some ["1"]))
        (Ok [])
        [].


(** A query that joins four times. *)
Definition four_joins : string :=
  "select p.name from products p join brands b on p.b = b.id " +++
  "join companies c on b.c = c.id join categories g on p.g = g.id " +++
  "JOIN ingredients i on p.i = i.id".

(** The classifier asks for both retrievers and adds a reasoning that
    is a number. *)
Definition numbered : json :=
  JDict [("query_type", JStr "COMBINED"); ("reasoning", JInt 5)].

Definition reasoning_world : Env :=
  world (Ok (dumps numbered))
        (Ok "SELECT CDPHId, ProductName FROM cosmetic_csv LIMIT 50")
        (Ok "Several products contain parabens [1].")
        (Ok (eight_rows, Some ["CDPHId"; "ProductName"]))
        (Ok two_matches)
        [numbered].


Definition paraben_request : QueryRequest :=
  mkRequest paraben_question false 50.

End Samples.

(* ================================================================== *)
(** * Tactics *)
(* ================================================================== *)

Import PyStr Re SQLValidator Py Agents ResponseGenerator Workflow Main.
Import Spec Samples.

(** A property of a character, checked on each of the 256. *)
Ltac each_char c :=
  destruct c as [[] [] [] [] [] [] [] []]; vm_compute; try reflexivity;
  try discriminate; try tauto.

(** Case analysis on the innermost scrutinee of the goal. *)
Ltac split_inner :=
  match goal with
  | |- context [match ?x with _ => _ end] =>
      lazymatch x with
      | context [match _ with _ => _ end] => fail
      | _ => destruct x eqn:?
      end
  end.

(** A computation laid open: its result and its trace, case by case. *)
Ltac open_m :=
  cbv beta iota zeta delta
    [bind try_except lift emit ret raise value events ollama fst snd].

Ltac run_m :=
  open_m; repeat split_inner; cbn [app]; try reflexivity; try discriminate.

(* ================================================================== *)
(** * Properties of the validator *)
(* ================================================================== *)

Section Validator.

Local Abbreviation keyword_found u keyword :=
  (found (re_search false (keyword_pattern keyword) u)).

Lemma upper_lower_char (c : ascii) : upper_char (lower_char c) = upper_char c.
Proof. each_char c. Qed.

Lemma chr_eq_upper (x c : ascii) :
  chr_eq true x c = true -> upper_char x = upper_char c.
Proof.
  unfold chr_eq. intros H. apply Ascii.eqb_eq in H.
  rewrite <- (upper_lower_char x), <- (upper_lower_char c). now rewrite H.
Qed.

Lemma space_not_S (c : ascii) :
  is_space c = true -> upper_char c = "S"%char -> False.
Proof. each_char c. Qed.

(** A literal that matches is, letter case aside, a prefix of the text. *)
Lemma lit_match_prefix (w : string) :
  forall (tail : pattern) prev s go gc r,
    match_here true (lit w ++ tail) prev s go gc = Some r ->
    prefix (upper w) (upper s) = true.
Proof.
  induction w as [|x w IH]; intros tail prev s go gc r H.
  - simpl. now destruct (upper s).
  - cbn [lit app match_here] in H. destruct s as [|c s]; [discriminate|].
    destruct (chr_eq true x c) eqn:Hc; [|discriminate].
    apply chr_eq_upper in Hc. cbn [upper map_chars prefix]. rewrite Hc.
    destruct (ascii_dec (upper_char c) (upper_char c)) as [_|n]; [|now elim n].
    eapply IH; eauto.
Qed.

(** Blanks skipped by the star are the blanks [lstrip] removes. *)
Lemma select_star_prefix (s : string) :
  forall prev r,
    match_here true (Star Space :: lit "SELECT" ++ [WordB]) prev s None None
      = Some r ->
    prefix "SELECT" (upper (lstrip s)) = true.
Proof.
  induction s as [|c s IH]; intros prev r H.
  - simpl in H. discriminate.
  - cbn [match_here] in H. cbn [cls_mem] in H.
    cbn [lstrip].
    destruct (is_space c) eqn:Hsp.
    + match type of H with
      | match ?X with _ => _ end = _ => destruct X as [r'|] eqn:Hstar
      end.
      * eapply (IH (Some c) r'). cbn [match_here cls_mem]. exact Hstar.
      * exfalso.
        apply (lit_match_prefix "SELECT" [WordB]) in H.
        change (upper "SELECT") with "SELECT" in H.
        cbn [upper map_chars prefix] in H.
        destruct (ascii_dec "S" (upper_char c)) as [e|]; [|discriminate].
        eapply space_not_S; eauto.
    + apply (lit_match_prefix "SELECT" [WordB]) in H. exact H.
Qed.

Lemma select_match_begins (s : string) :
  found (re_match true select_pattern s) = true ->
  prefix "SELECT" (upper (lstrip s)) = true.
Proof.
  change (re_match true select_pattern s)
    with (match_here true (Star Space :: lit "SELECT" ++ [WordB])
            None s None None).
  destruct (match_here true (Star Space :: lit "SELECT" ++ [WordB]) None s None None)
    as [r|] eqn:H; [|discriminate].
  intros _. eapply select_star_prefix; eauto.
Qed.

(** ** Stripping *)

Lemma rstrip_is_prefix (s : string) : exists u, s = rstrip s +++ u.
Proof.
  induction s as [|c s [u IH]].
  - now exists EmptyString.
  - cbn [rstrip]. destruct (rstrip s) as [|c' r] eqn:Hr.
    + destruct (is_space c).
      * now exists (String c s).
      * exists s. reflexivity.
    + exists u. simpl in *. now rewrite <- IH.
Qed.

Lemma lstrip_head (s : string) :
  lstrip s = EmptyString \/
  exists c t, lstrip s = String c t /\ is_space c = false.
Proof.
  induction s as [|c s IH]; [now left|].
  cbn [lstrip]. destruct (is_space c) eqn:Hc; [exact IH|].
  right. now exists c, s.
Qed.

Lemma lstrip_strip (s : string) : lstrip (strip s) = strip s.
Proof.
  unfold strip. destruct (lstrip_head s) as [H|(c & t & H & Hc)]; rewrite H.
  - reflexivity.
  - cbn [rstrip]. destruct (rstrip t); [rewrite Hc|]; cbn [lstrip]; now rewrite Hc.
Qed.

Lemma upper_app (a b : string) : upper (a +++ b) = upper a +++ upper b.
Proof. induction a as [|c a IH]; [reflexivity|]. cbn. now f_equal. Qed.

Lemma prefix_app (p a b : string) :
  prefix p a = true -> prefix p (a +++ b) = true.
Proof.
  revert a. induction p as [|x p IH]; intros a H; [now destruct (a +++ b)|].
  destruct a as [|c a]; [discriminate|]. cbn [String.append prefix] in *.
  destruct (ascii_dec x c); [now apply IH | discriminate].
Qed.

Lemma lower_upper_char (c : ascii) : lower_char (upper_char c) = lower_char c.
Proof. each_char c. Qed.

Lemma prefix_nil (s : string) : prefix EmptyString s = true.
Proof. now destruct s. Qed.

(** ** The read-only rule *)

Lemma chr_eq_ci (x c : ascii) :
  chr_eq true x c
  = if ascii_dec (upper_char x) (upper_char c) then true else false.
Proof.
  destruct (ascii_dec (upper_char x) (upper_char c)) as [e|n].
  - unfold chr_eq. apply Ascii.eqb_eq.
    rewrite <- (lower_upper_char x), <- (lower_upper_char c). now rewrite e.
  - destruct (chr_eq true x c) eqn:H; [|reflexivity].
    elim n. now apply chr_eq_upper.
Qed.

Lemma word_upper (c : ascii) : is_word (upper_char c) = is_word c.
Proof. each_char c. Qed.

Lemma space_upper (c : ascii) : is_space (upper_char c) = is_space c.
Proof. each_char c. Qed.

Lemma upper_upper_char (c : ascii) : upper_char (upper_char c) = upper_char c.
Proof. each_char c. Qed.

Lemma space_not_word (c : ascii) : is_space c = true -> is_word c = false.
Proof. each_char c. Qed.

Lemma drop_0 (s : string) : drop 0 s = s.
Proof. now destruct s. Qed.

(** A word of the pattern, and the boundary after it. *)
Lemma lit_word_found (w : string) :
  forallb is_word (list_ascii_of_string w) = true ->
  forall prev s go gc,
    (w = EmptyString -> is_word_opt prev = true) ->
    found (match_here true (lit w ++ [WordB]) prev s go gc)
    = prefix (upper w) (upper s)
      && negb (is_word_opt (head_opt (drop (String.length w) s))).
Proof.
  induction w as [|x w IH]; intros Hw prev s go gc Hprev.
  - cbn [lit app match_here String.length upper map_chars].
    rewrite prefix_nil, drop_0. unfold at_boundary.
    rewrite (Hprev eq_refl). cbn [xorb andb].
    now destruct (is_word_opt (head_opt s)).
  - cbn [list_ascii_of_string forallb] in Hw. apply andb_prop in Hw.
    destruct Hw as [Hx Hw].
    cbn [lit app match_here]. destruct s as [|c s]; [reflexivity|].
    rewrite chr_eq_ci. cbn [upper map_chars prefix String.length drop].
    destruct (ascii_dec (upper_char x) (upper_char c)) as [e|n]; [|reflexivity].
    apply IH; [exact Hw|]. intros _. cbn [is_word_opt].
    now rewrite <- word_upper, <- e, word_upper.
Qed.

(** The pattern of the read-only rule: blanks, then the word SELECT. *)
Lemma select_found (s : string) :
  found (re_match true select_pattern s) = select_word (lstrip s).
Proof.
  change (re_match true select_pattern s)
    with (match_here true (Star Space :: lit "SELECT" ++ [WordB])
            None s None None).
  assert (Hlit : forall prev t,
             found (match_here true (lit "SELECT" ++ [WordB]) prev t None None)
             = select_word t).
  { intros prev t. rewrite lit_word_found; [reflexivity|reflexivity|discriminate]. }
  generalize (@None ascii) as prev.
  induction s as [|c s IH]; intros prev.
  - cbn [match_here lstrip]. apply Hlit.
  - cbn [match_here cls_mem lstrip]. destruct (is_space c) eqn:Hc.
    + specialize (IH (Some c)). cbn [match_here cls_mem] in IH.
      match goal with
      | |- found (match ?X with _ => _ end) = _ => destruct X as [r|] eqn:Hstar
      end; [exact IH|].
      rewrite <- IH. rewrite Hlit. unfold select_word.
      cbn [upper map_chars prefix].
      destruct (ascii_dec "S" (upper_char c)) as [e|]; [|reflexivity].
      exfalso. eapply space_not_S; eauto.
    + apply Hlit.
Qed.

Lemma lstrip_upper (s : string) : lstrip (upper s) = upper (lstrip s).
Proof.
  induction s as [|c s IH]; [reflexivity|].
  cbn [upper map_chars lstrip]. rewrite space_upper.
  destruct (is_space c); [exact IH|reflexivity].
Qed.

Lemma upper_upper (s : string) : upper (upper s) = upper s.
Proof.
  induction s as [|c s IH]; [reflexivity|].
  cbn [upper map_chars] in *. now rewrite upper_upper_char, IH.
Qed.

Lemma word_at_upper (n : nat) :
  forall s, is_word_opt (head_opt (drop n (upper s)))
            = is_word_opt (head_opt (drop n s)).
Proof.
  induction n as [|n IH]; intros [|c s]; try reflexivity.
  - cbn. apply word_upper.
  - cbn [upper map_chars drop]. apply IH.
Qed.

Lemma select_word_upper (s : string) : select_word (upper s) = select_word s.
Proof. unfold select_word. now rewrite upper_upper, word_at_upper. Qed.

Lemma word_at_rstrip (n : nat) :
  forall s, is_word_opt (head_opt (drop n (rstrip s)))
            = is_word_opt (head_opt (drop n s)).
Proof.
  induction n as [|n IH]; intros [|c s]; try reflexivity.
  - cbn [rstrip]. destruct (rstrip s).
    + destruct (is_space c) eqn:Hc; [|reflexivity].
      cbn. now rewrite space_not_word.
    + reflexivity.
  - specialize (IH s). cbn [rstrip drop].
    destruct (rstrip s) as [|c' r].
    + rewrite <- IH. now destruct (is_space c), n.
    + exact IH.
Qed.

Lemma prefix_rstrip (w : string) :
  forallb (fun x => negb (is_space x)) (list_ascii_of_string w) = true ->
  forall s, prefix w (upper (rstrip s)) = prefix w (upper s).
Proof.
  induction w as [|x w IH]; intros Hw s; [now rewrite !prefix_nil|].
  cbn [list_ascii_of_string forallb] in Hw. apply andb_prop in Hw.
  destruct Hw as [Hx Hw]. specialize (IH Hw).
  destruct s as [|c s]; [reflexivity|].
  specialize (IH s). cbn [rstrip]. destruct (rstrip s) as [|c' r].
  - destruct (is_space c) eqn:Hc.
    + cbn [upper map_chars prefix].
      destruct (ascii_dec x (upper_char c)) as [->|]; [|reflexivity].
      rewrite space_upper, Hc in Hx. discriminate.
    + cbn [upper map_chars prefix] in *.
      destruct (ascii_dec x (upper_char c)); [exact IH|reflexivity].
  - cbn [upper map_chars prefix] in *.
    destruct (ascii_dec x (upper_char c)); [exact IH|reflexivity].
Qed.

Lemma select_word_rstrip (s : string) : select_word (rstrip s) = select_word s.
Proof.
  unfold select_word. rewrite word_at_rstrip.
  now rewrite (prefix_rstrip "SELECT" eq_refl).
Qed.

(** The two readings of the read-only rule agree: the one of the
    analysis, on the query in upper case, and the one of the validator,
    on the query without the blanks around it. *)
Lemma select_readings_agree (sql_query : string) :
  found (re_match true select_pattern (upper sql_query))
  = found (re_match true select_pattern (strip sql_query)).
Proof.
  rewrite !select_found, lstrip_upper, select_word_upper, lstrip_strip.
  unfold strip. now rewrite select_word_rstrip.
Qed.

(** The read-only rule of the validator, on the query without the
    blanks around it, asks that the query begin with the keyword. *)
Lemma select_rule (s : string) :
  found (re_match true select_pattern (strip s)) = begins_with_select s.
Proof.
  rewrite select_found, lstrip_strip. unfold strip, begins_with_select.
  apply select_word_rstrip.
Qed.

(** ** The order of the keywords *)

Lemma first_keyword_none (order : list string) (u : string) :
  (forall keyword, In keyword order -> keyword_found u keyword = false) ->
  first_keyword order u = None.
Proof.
  induction order as [|k order IH]; intros H; [reflexivity|].
  cbn [first_keyword]. fold (keyword_found u k).
  rewrite (H k (or_introl eq_refl)). apply IH. intros; apply H. now right.
Qed.

Lemma first_keyword_only (order : list string) (u k0 : string) :
  In k0 order -> keyword_found u k0 = true ->
  (forall keyword, In keyword order -> keyword_found u keyword = true ->
                   keyword = k0) ->
  first_keyword order u = Some k0.
Proof.
  induction order as [|k order IH]; intros Hin H0 Honly; [contradiction|].
  cbn [first_keyword]. fold (keyword_found u k).
  destruct (keyword_found u k) eqn:Hk.
  - f_equal. apply Honly; [now left | exact Hk].
  - destruct Hin as [->|Hin]; [congruence|].
    apply IH; auto. intros; apply Honly; auto. now right.
Qed.

(** Whatever the order of the iteration, a query without any dangerous
    keyword passes that rule. *)
Lemma no_keyword_any_order (order : list string) (u : string) :
  Permutation order DANGEROUS_KEYWORDS ->
  forallb (fun keyword => negb (keyword_found u keyword)) DANGEROUS_KEYWORDS
    = true ->
  first_keyword order u = None.
Proof.
  intros Hp Hall. apply first_keyword_none. intros keyword Hin.
  rewrite forallb_forall in Hall.
  specialize (Hall keyword (Permutation_in _ Hp Hin)).
  now destruct (keyword_found u keyword).
Qed.

(** Whatever the order, a query with one dangerous keyword only is
    rejected for that keyword. *)
Lemma one_keyword_any_order (order : list string) (u k0 : string) :
  Permutation order DANGEROUS_KEYWORDS ->
  forallb (fun keyword => negb (keyword_found u keyword) || String.eqb keyword k0)
    DANGEROUS_KEYWORDS = true ->
  In k0 DANGEROUS_KEYWORDS -> keyword_found u k0 = true ->
  first_keyword order u = Some k0.
Proof.
  intros Hp Hall Hin H0. apply first_keyword_only; auto.
  - eapply Permutation_in; [apply Permutation_sym; exact Hp | exact Hin].
  - intros keyword Hk Hf. rewrite forallb_forall in Hall.
    specialize (Hall keyword (Permutation_in _ Hp Hk)).
    rewrite Hf in Hall. cbn in Hall. now apply String.eqb_eq.
Qed.

End Validator.

(* ================================================================== *)
(** * The claims about the validator *)
(* ================================================================== *)

Section ValidatorClaims.

(** C2. The validator, as written, rejects the first example query of
    the specification: its table [cosmetic_csv], the only table of the
    database, is missing from [ALLOWED_TABLES]. With the suffix that
    drops the table appended, the query is rejected for the keyword
    DROP. Both hold for every order in which the keywords are visited. *)
Theorem titanium_query_verdicts (order : list string) :
  Permutation order DANGEROUS_KEYWORDS ->
  validate_query order titanium_query
    = (false, Some "Access to table 'cosmetic_csv' is not allowed") /\
  validate_query order (titanium_query +++ drop_suffix)
    = (false, Some "Dangerous SQL keyword 'DROP' detected - not allowed").
Proof.
  intros Hp. split.
  - cbv beta iota zeta delta [validate_query titanium_query].
    rewrite (no_keyword_any_order order _ Hp) by (vm_compute; reflexivity).
    vm_compute. reflexivity.
  - assert (Hq : titanium_query +++ drop_suffix
                 = String "S" (String.append
                     "ELECT COUNT(DISTINCT CDPHId) FROM cosmetic_csv WHERE ChemicalName LIKE '%titanium dioxide%'"
                     drop_suffix)) by reflexivity.
    rewrite Hq. cbv beta iota zeta delta [validate_query].
    rewrite (one_keyword_any_order order _ "DROP" Hp);
      [ vm_compute; reflexivity
      | vm_compute; reflexivity
      | vm_compute; tauto
      | vm_compute; reflexivity ].
Qed.

Lemma titanium_query_verdicts_witness :
  Permutation (rev DANGEROUS_KEYWORDS) DANGEROUS_KEYWORDS /\
  fst (validate_query (rev DANGEROUS_KEYWORDS) titanium_query) = false.
Proof.
  assert (Hp : Permutation (rev DANGEROUS_KEYWORDS) DANGEROUS_KEYWORDS)
    by (apply Permutation_sym, Permutation_rev).
  split; [exact Hp|].
  now rewrite (proj1 (titanium_query_verdicts (rev DANGEROUS_KEYWORDS) Hp)).
Defined.

(** C7, as amended. For a query in ASCII, not to begin with the keyword
    SELECT (leading blanks and letter case aside, the keyword ending
    where a word ends) is to be rejected by the first rule failed: the
    empty query as not a non-empty string, every other one as not
    read-only; and only such queries are rejected with these reasons.
    In particular the UPDATE example is rejected with the read-only
    reason; the rule of the mutating keywords is not reached. *)
Theorem not_select_rejected (order : list string) (sql_query : string) :
  isascii sql_query = true ->
  (begins_with_select sql_query = false <->
   validate_query order sql_query
     = (false, Some (match sql_query with
                     | EmptyString => "Query must be a non-empty string"
                     | _ => "Only SELECT queries are allowed (read-only operations)"
                     end))) /\
  validate_query order update_query
    = (false, Some "Only SELECT queries are allowed (read-only operations)").
Proof.
  intros _. split; [|reflexivity].
  destruct sql_query as [|c s]; [split; reflexivity|].
  cbv beta iota zeta delta [validate_query].
  rewrite select_rule.
  destruct (begins_with_select (String c s)); cbn [negb].
  - split; [discriminate|].
    set (query := strip (String c s)).
    destruct (first_keyword order (upper query)) as [k|];
      [cbn; discriminate|].
    destruct (first_injection injection_patterns query) as [src|];
      [cbn; discriminate|].
    destruct (first_disallowed (re_findall true table_pattern query)) as [t|];
      [cbn; discriminate|].
    destruct (5000 <? String.length query); cbn; discriminate.
  - split; reflexivity.
Qed.

Lemma not_select_rejected_witness :
  isascii "SELECTED FROM products" = true /\
  begins_with_select "SELECTED FROM products" = false /\
  validate_query DANGEROUS_KEYWORDS "SELECTED FROM products"
    = (false, Some "Only SELECT queries are allowed (read-only operations)").
Proof.
  split; [reflexivity|]. split; [reflexivity|].
  exact (proj1 (proj1 (not_select_rejected DANGEROUS_KEYWORDS
                         "SELECTED FROM products" eq_refl)) eq_refl).
Defined.

(** C7, as stated, fails: the reason given for the UPDATE example is not
    the reason of any mutating keyword. *)
Lemma update_reason_not_keyword :
  ~ (exists keyword,
       validate_query DANGEROUS_KEYWORDS update_query
         = (false, Some (msg_keyword keyword))).
Proof. intros [keyword H]. vm_compute in H. discriminate. Qed.

(** C8. A table that is named after JOIN is not looked at: the join
    with a table outside the allow-list is accepted, in every order of
    the keywords. *)
Theorem join_table_unchecked (order : list string) :
  Permutation order DANGEROUS_KEYWORDS ->
  existsb (String.eqb "secrets") ALLOWED_TABLES = false /\
  re_findall true table_pattern join_query = ["products"] /\
  validate_query order join_query = (true, None).
Proof.
  intros Hp. split; [reflexivity|]. split; [vm_compute; reflexivity|].
  cbv beta iota zeta delta [validate_query join_query].
  rewrite (no_keyword_any_order order _ Hp) by (vm_compute; reflexivity).
  vm_compute. reflexivity.
Qed.

Lemma join_table_unchecked_witness :
  Permutation DANGEROUS_KEYWORDS DANGEROUS_KEYWORDS /\
  validate_query DANGEROUS_KEYWORDS join_query = (true, None).
Proof.
  split; [apply Permutation_refl|].
  exact (proj2 (proj2 (join_table_unchecked DANGEROUS_KEYWORDS
                         (Permutation_refl _)))).
Defined.

End ValidatorClaims.

(* ================================================================== *)
(** * Computations and the nodes of the graph *)
(* ================================================================== *)

Section Nodes.

Lemma value_bind {A B} (m : M A) (k : A -> M B) :
  value (bind m k)
  = match value m with Ok a => value (k a) | Raise e => Raise e end.
Proof. destruct m as [[a|e] w]; cbn; [now destruct (k a)|reflexivity]. Qed.

Lemma events_bind {A B} (m : M A) (k : A -> M B) :
  events (bind m k)
  = events m ++ match value m with Ok a => events (k a) | Raise _ => [] end.
Proof.
  destruct m as [[a|e] w]; cbn; [now destruct (k a)|now rewrite app_nil_r].
Qed.

Lemma value_try {A} (m : M A) (h : string -> M A) :
  value (try_except m h)
  = match value m with Ok a => Ok a | Raise e => value (h e) end.
Proof. destruct m as [[a|e] w]; cbn; [reflexivity|now destruct (h e)]. Qed.

Lemma events_try {A} (m : M A) (h : string -> M A) :
  events (try_except m h)
  = events m ++ match value m with Ok _ => [] | Raise e => events (h e) end.
Proof.
  destruct m as [[a|e] w]; cbn; [now rewrite app_nil_r|now destruct (h e)].
Qed.

Lemma stages_app (u v : list event) : stages (u ++ v) = stages u ++ stages v.
Proof.
  induction u as [|e u IH]; [reflexivity|].
  destruct e; cbn; now rewrite IH.
Qed.

Variable E : Env.

(** ** The text generator *)

Lemma ollama_value system p stream :
  value (ollama E system p stream) = generate E system p stream.
Proof. unfold ollama, emit, lift, bind, value. now destruct (generate _ _ _ _). Qed.

Lemma ollama_events system p stream :
  events (ollama E system p stream) = [EvGenerate system p stream].
Proof. unfold ollama, emit, lift, bind, events. now destruct (generate _ _ _ _). Qed.

(** ** The intent stage *)

Lemma intent_agent_events q stream :
  events (intent_agent E q stream)
  = [EvGenerate INTENT_AGENT_PROMPT ("Question: " +++ q) stream].
Proof. unfold intent_agent, intent_agent_try. run_m. Qed.

Lemma intent_agent_total q stream :
  exists a, value (intent_agent E q stream) = Ok a.
Proof.
  unfold intent_agent, intent_agent_try.
  open_m; repeat split_inner; eauto.
Qed.

Lemma intent_node_events st :
  events (intent_node E st)
  = [EvStage intent;
     EvGenerate INTENT_AGENT_PROMPT ("Question: " +++ user_question st)
       (stream st)].
Proof.
  unfold intent_node.
  rewrite events_bind. cbn [emit events value fst snd app].
  rewrite events_bind, intent_agent_events.
  destruct (intent_agent_total (user_question st) (stream st)) as [a Ha].
  rewrite Ha. cbn [app]. do 2 f_equal.
  run_m.
Qed.

(** ** Structured retrieval *)

Lemma sql_node_events st :
  let p := sql_prompt E (user_question st) (json_dumps E (intent_analysis st)) in
  events (sql_node E st)
  = EvStage sql :: EvGenerate SQL_AGENT_PROMPT p (stream st) ::
    match generate E SQL_AGENT_PROMPT p (stream st) with
    | Ok reply => [EvExecute (extract_sql reply)]
    | Raise _ => []
    end.
Proof. unfold sql_node, sql_node_try, sql_agent. run_m. Qed.

(** The stage never raises: it ends with its result or, after a
    failure, with the empty result and the message of the failure. *)
Lemma sql_node_value st :
  value (sql_node E st)
  = Ok match value (sql_node_try E st) with
       | Ok st' => st'
       | Raise e => sql_failed st e
       end.
Proof.
  unfold sql_node. rewrite value_bind. cbn [emit value fst].
  rewrite value_try. now destruct (value (sql_node_try E st)).
Qed.

Lemma sql_node_try_same st st' :
  value (sql_node_try E st) = Ok st' -> same_request st st'.
Proof.
  unfold sql_node_try, sql_agent. open_m. repeat split_inner;
    intros H; inversion H; subst; repeat split.
Qed.

Lemma sql_node_same st :
  exists st', value (sql_node E st) = Ok st' /\ same_request st st'.
Proof.
  rewrite sql_node_value. eexists; split; [reflexivity|].
  destruct (value (sql_node_try E st)) as [st'|e] eqn:H.
  - now apply sql_node_try_same.
  - repeat split.
Qed.

(** ** Semantic retrieval *)

Lemma semantic_node_events st :
  events (semantic_node E st)
  = [EvStage semantic;
     EvIndexQuery (user_question st)
       (Z.min (limit_results st) MAX_SEMANTIC_RESULTS)].
Proof.
  unfold semantic_node, semantic_node_try, semantic_agent, semantic_search.
  run_m.
Qed.

Lemma semantic_node_value st :
  value (semantic_node E st)
  = Ok match value (semantic_node_try E st) with
       | Ok st' => st'
       | Raise e => semantic_failed st e
       end.
Proof.
  unfold semantic_node. rewrite value_bind. cbn [emit value fst].
  rewrite value_try. now destruct (value (semantic_node_try E st)).
Qed.

Lemma semantic_node_try_same st st' :
  value (semantic_node_try E st) = Ok st' -> same_request st st'.
Proof.
  unfold semantic_node_try, semantic_agent, semantic_search. open_m.
  repeat split_inner; intros H; inversion H; subst; repeat split.
Qed.

Lemma semantic_node_same st :
  exists st', value (semantic_node E st) = Ok st' /\ same_request st st'.
Proof.
  rewrite semantic_node_value. eexists; split; [reflexivity|].
  destruct (value (semantic_node_try E st)) as [st'|e] eqn:H.
  - now apply semantic_node_try_same.
  - repeat split.
Qed.

(** ** Synthesis *)

Lemma response_generator_events q res stream :
  events (response_generator E q res stream)
  = match d_citation_map (build_digest E res) with
    | [] => []
    | _ => [EvGenerate RESPONSE_GENERATOR_PROMPT
              (build_prompt q (build_digest E res)) stream]
    end.
Proof.
  unfold response_generator.
  destruct (d_citation_map (build_digest E res)); [reflexivity|].
  rewrite events_bind, ollama_events.
  now destruct (value (ollama E _ _ _)).
Qed.

Lemma response_node_events st :
  exists w, events (response_node E st) = EvStage response :: w /\
            forall e, In e w -> exists p s, e = EvGenerate RESPONSE_GENERATOR_PROMPT p s.
Proof.
  unfold response_node. rewrite events_bind. cbn [emit events value fst snd app].
  rewrite events_bind, response_generator_events.
  eexists; split; [reflexivity|].
  intros e He. apply in_app_or in He. destruct He as [He|He].
  - destruct (d_citation_map _); [contradiction|].
    destruct He as [<-|[]]; eauto.
  - destruct (value (response_generator _ _ _ _)); contradiction.
Qed.

(** ** The driver *)

Lemma intent_node_value st st1 :
  value (intent_node E st) = Ok st1 ->
  exists qt, query_type_of st1 = Ok qt /\
             py_getitem (intent_analysis st1) "query_type" = Ok qt /\
             user_question st1 = user_question st /\
             stream st1 = stream st /\
             limit_results st1 = limit_results st.
Proof.
  unfold intent_node. rewrite value_bind. cbn [emit value fst].
  rewrite value_bind.
  destruct (intent_agent_total (user_question st) (stream st)) as [a ->].
  rewrite value_bind. cbn [lift value fst].
  destruct (py_getitem a "query_type") as [qt|e] eqn:Hqt; [|discriminate].
  intros H. exists qt.
  assert (Hst : st1 = with_intent st a
                  (messages st ++ ["Intent analyzed: " +++ json_str E qt])).
  { revert H. open_m. repeat split_inner; intros H; now inversion H. }
  subst st1. cbn. split; [|now repeat split].
  unfold query_type_of. cbn.
  destruct a; try discriminate. cbn in *.
  destruct (dict_get d "query_type"); [now inversion Hqt|discriminate].
Qed.

Lemma query_type_write_back st st' :
  query_type_of (write_back st st') = query_type_of st'.
Proof. reflexivity. Qed.

Lemma before_app (u v : list event) :
  structured_before_semantic (u ++ v)
  = structured_before_semantic u && structured_before_semantic v
    && (negb (existsb semantic_call u) || negb (existsb structured_call v)).
Proof.
  induction u as [|e u IH]; cbn [app structured_before_semantic existsb].
  - now rewrite andb_true_r.
  - rewrite IH, existsb_app.
    destruct (semantic_call e), (existsb structured_call u),
      (existsb structured_call v), (structured_before_semantic u),
      (structured_before_semantic v), (existsb semantic_call u); reflexivity.
Qed.

Lemma response_node_trace st :
  stages (events (response_node E st)) = [response] /\
  quiet (events (response_node E st)).
Proof.
  destruct (response_node_events st) as (w & -> & Hw).
  assert (H : stages w = [] /\ quiet w).
  { clear - Hw. induction w as [|e w IH]; [now repeat split|].
    destruct (Hw e (or_introl eq_refl)) as (p & s & ->).
    destruct IH as (H1 & H2 & H3); [intros; apply Hw; now right|].
    repeat split; cbn; assumption. }
  destruct H as (H1 & H2 & H3). repeat split; cbn; now rewrite ?H1.
Qed.

Lemma run_response k st :
  events (run E (S k) response st) = events (response_node E st).
Proof.
  cbn [run run_node next_node]. rewrite events_bind.
  destruct (value (response_node E st)); cbn; now rewrite app_nil_r.
Qed.

Lemma run_semantic k st :
  exists st', events (run E (S (S k)) semantic st)
              = events (semantic_node E st) ++ events (response_node E st').
Proof.
  destruct (semantic_node_same st) as (st1 & Hv & _).
  exists (write_back st st1).
  change (run E (S (S k)) semantic st)
    with (bind (semantic_node E st) (fun returned =>
            bind (lift (next_node semantic (write_back st returned)))
              (fun following =>
                 match following with
                 | None => ret (write_back st returned)
                 | Some n' => run E (S k) n' (write_back st returned)
                 end))).
  rewrite events_bind, Hv. f_equal.
  cbn [next_node]. rewrite events_bind. cbn [lift events value fst snd app].
  apply run_response.
Qed.

Lemma run_sql k st qt :
  query_type_of st = Ok qt ->
  exists st' w,
    events (run E (S (S (S k))) sql st) = events (sql_node E st) ++ w /\
    if is_str "COMBINED" qt
    then exists st'', w = events (semantic_node E st')
                          ++ events (response_node E st'')
    else w = events (response_node E st').
Proof.
  intros Hqt.
  destruct (sql_node_same st) as (st1 & Hv & (_ & Hi & _)).
  exists (write_back st st1).
  change (run E (S (S (S k))) sql st)
    with (bind (sql_node E st) (fun returned =>
            bind (lift (next_node sql (write_back st returned)))
              (fun following =>
                 match following with
                 | None => ret (write_back st returned)
                 | Some n' => run E (S (S k)) n' (write_back st returned)
                 end))).
  rewrite events_bind, Hv.
  eexists; split; [reflexivity|].
  cbn [next_node]. unfold should_use_semantic.
  assert (Hq : query_type_of (write_back st st1) = Ok qt).
  { rewrite query_type_write_back. unfold query_type_of in *. now rewrite <- Hi. }
  rewrite Hq. cbn [result_bind].
  destruct (is_str "COMBINED" qt).
  - destruct (run_semantic k (write_back st st1)) as (st2 & H2).
    exists st2. rewrite events_bind. cbn [lift events value fst snd app].
    exact H2.
  - rewrite events_bind. cbn [lift events value fst snd app].
    apply run_response.
Qed.






Lemma no_semantic_before (w : list event) :
  existsb semantic_call w = false -> structured_before_semantic w = true.
Proof.
  induction w as [|e w IH]; [reflexivity|]. cbn.
  destruct (semantic_call e); [discriminate|]. exact IH.
Qed.

Lemma intent_node_trace st :
  stages (events (intent_node E st)) = [intent] /\
  quiet (events (intent_node E st)).
Proof. rewrite intent_node_events. now repeat split. Qed.

Lemma sql_node_trace st :
  stages (events (sql_node E st)) = [sql] /\
  existsb semantic_call (events (sql_node E st)) = false.
Proof.
  rewrite sql_node_events. cbv zeta.
  destruct (generate E SQL_AGENT_PROMPT _ _); now split.
Qed.

Lemma semantic_node_trace st :
  stages (events (semantic_node E st)) = [semantic] /\
  existsb structured_call (events (semantic_node E st)) = false.
Proof. rewrite semantic_node_events. now split. Qed.

Lemma is_str_eq (a : string) (v : json) : is_str a v = true -> v = JStr a.
Proof.
  destruct v; try discriminate. cbn. intros H. apply String.eqb_eq in H.
  now subst.
Qed.

End Nodes.

(* ================================================================== *)
(** * The claims about the orchestrator *)
(* ================================================================== *)

Section Orchestrator.

(** The routing. Once the intent stage has returned, the stages of a
    request are those of the route of its query type, and no other:
    STRUCTURED runs
    structured retrieval and nothing of semantic retrieval, COMBINED
    runs both with everything of structured retrieval before anything of
    semantic retrieval, and any other value, SEMANTIC with them, runs
    semantic retrieval and nothing of structured retrieval. A request
    whose intent stage raises stops there. *)
Theorem routing_by_query_type (E : Env) (st0 : AgentState) :
  let trace := events (invoke E st0) in
  match value (intent_node E st0) with
  | Raise _ => stages trace = [intent]
  | Ok st1 =>
      match query_type_of st1 with
      | Raise _ => False
      | Ok query_type =>
          stages trace = intent :: route query_type /\
          if is_str "STRUCTURED" query_type
          then existsb semantic_call trace = false
          else if is_str "COMBINED" query_type
          then structured_before_semantic trace = true
          else existsb structured_call trace = false
      end
  end.
Proof.
  cbv zeta. unfold invoke, recursion_limit.
  change (run E 25 intent st0)
    with (bind (intent_node E st0) (fun returned =>
            bind (lift (next_node intent (write_back st0 returned)))
              (fun following =>
                 match following with
                 | None => ret (write_back st0 returned)
                 | Some n' => run E 24 n' (write_back st0 returned)
                 end))).
  rewrite events_bind.
  destruct (intent_node_trace E st0) as (Hs0 & Hq0 & Hq0').
  destruct (value (intent_node E st0)) as [st1|e] eqn:Hv.
  2:{ now rewrite app_nil_r. }
  destruct (intent_node_value E st0 st1 Hv) as (qt & Hqt & _).
  rewrite Hqt.
  assert (Hq : query_type_of (write_back st0 st1) = Ok qt) by exact Hqt.
  cbn [next_node]. unfold should_use_sql. rewrite Hq. cbn [result_bind].
  unfold route.
  destruct (is_str "STRUCTURED" qt) eqn:Hst.
  - assert (Hco : is_str "COMBINED" qt = false)
      by (rewrite (is_str_eq _ _ Hst); reflexivity).
    cbn [orb result_bind].
    rewrite events_bind. cbn [lift events value fst snd app].
    destruct (run_sql E 21 (write_back st0 st1) qt Hq) as (st' & w & -> & Hw).
    rewrite Hco in Hw. subst w.
    destruct (sql_node_trace E (write_back st0 st1)) as (Hs1 & Hq1).
    destruct (response_node_trace E st') as (Hs2 & _ & Hq2).
    rewrite !stages_app, Hs0, Hs1, Hs2, !existsb_app, Hq0', Hq1, Hq2.
    now split.
  - destruct (is_str "COMBINED" qt) eqn:Hco.
    + cbn [orb result_bind].
      rewrite events_bind. cbn [lift events value fst snd app].
      destruct (run_sql E 21 (write_back st0 st1) qt Hq)
        as (st' & w & -> & Hw).
      rewrite Hco in Hw. destruct Hw as (st'' & ->).
      destruct (sql_node_trace E (write_back st0 st1)) as (Hs1 & Hq1).
      destruct (semantic_node_trace E st') as (Hs2 & Hq2).
      destruct (response_node_trace E st'') as (Hs3 & Hq3 & Hq3').
      rewrite !stages_app, Hs0, Hs1, Hs2, Hs3. split; [reflexivity|].
      assert (Hb : structured_before_semantic (events (semantic_node E st')) = true)
        by now rewrite semantic_node_events.
      rewrite !before_app, !existsb_app.
      rewrite (no_semantic_before _ Hq0'), (no_semantic_before _ Hq1),
        (no_semantic_before _ Hq3'), Hb.
      rewrite ?Hq0, ?Hq0', ?Hq1, ?Hq2, ?Hq3, ?Hq3'.
      repeat match goal with
             | |- context [existsb ?f ?l] => destruct (existsb f l)
             end; reflexivity.
    + cbn [orb result_bind].
      rewrite events_bind. cbn [lift events value fst snd app].
      destruct (run_semantic E 22 (write_back st0 st1)) as (st' & ->).
      destruct (semantic_node_trace E (write_back st0 st1)) as (Hs1 & Hq1).
      destruct (response_node_trace E st') as (Hs2 & Hq2 & _).
      rewrite !stages_app, Hs0, Hs1, Hs2, !existsb_app, Hq0, Hq1, Hq2.
      now split.
Qed.

(** ** The classifier *)

Lemma dict_get_set_other {V} (d : list (string * V)) (k k' : string) (v : V) :
  k' <> k -> dict_get (dict_set d k v) k' = dict_get d k'.
Proof.
  intros Hk. induction d as [|[k0 v0] d IH]; cbn.
  - destruct (String.eqb k k') eqn:H; [|reflexivity].
    apply String.eqb_eq in H. congruence.
  - destruct (String.eqb k0 k) eqn:H0; cbn.
    + apply String.eqb_eq in H0. subst k0.
      destruct (String.eqb k k') eqn:H; [|reflexivity].
      apply String.eqb_eq in H. congruence.
    + now rewrite IH.
Qed.

Lemma dict_get_set_new {V} (d : list (string * V)) (k : string) (v : V) :
  dict_has d k = false -> dict_get (dict_set d k v) k = Some v.
Proof.
  unfold dict_has. induction d as [|[k0 v0] d IH]; cbn.
  - now rewrite String.eqb_refl.
  - destruct (String.eqb k0 k) eqn:H0; [discriminate|]. cbn. rewrite H0.
    exact IH.
Qed.

Lemma set_default_dict d key v :
  set_default (JDict d) key v
  = Ok (JDict (if dict_has d key then d else dict_set d key v)).
Proof. unfold set_default. cbn. now destruct (dict_has d key). Qed.

Lemma set_default_other w key v :
  (forall d, w <> JDict d) ->
  set_default w key v = Ok w \/ exists e, set_default w key v = Raise e.
Proof.
  intros Hw. unfold set_default.
  destruct (py_in key w) as [[|]|e]; eauto.
  destruct w; cbn; eauto. now elim (Hw d).
Qed.

Lemma words_on_error_spec q :
  any_word_in words_on_error q = counting_question q.
Proof.
  unfold any_word_in, words_on_error, counting_question. cbn [existsb].
  now destruct (contains "how many" _), (contains "count" _),
    (contains "total" _), (contains "top" _).
Qed.

Lemma words_when_missing_spec q :
  any_word_in words_when_missing q = counting_or_most q.
Proof.
  unfold any_word_in, words_when_missing, counting_or_most, counting_question.
  cbn [existsb].
  now destruct (contains "how many" _), (contains "count" _),
    (contains "total" _), (contains "top" _), (contains "most" _).
Qed.

Lemma intent_agent_try_value (E : Env) q stream :
  value (intent_agent_try E q stream)
  = result_bind (classifier_output E q stream) (fun d0 =>
    result_bind (set_default d0 "query_type"
                   (type_name (any_word_in words_when_missing q))) (fun d1 =>
    result_bind (set_default d1 "entities" (JDict [])) (fun d2 =>
    set_default d2 "intent" (JStr q)))).
Proof.
  unfold intent_agent_try, classifier_output.
  rewrite value_bind, ollama_value.
  destruct (generate E INTENT_AGENT_PROMPT _ _) as [response|e]; [|reflexivity].
  cbn [result_bind]. cbv zeta.
  rewrite value_bind. cbn [lift value fst].
  destruct (match search_object (strip response) with
            | Some group => json_loads E group
            | None => json_loads E (strip response)
            end) as [d0|e]; [|reflexivity].
  cbn [result_bind]. rewrite value_bind. cbn [lift value fst].
  destruct (set_default d0 _ _) as [d1|e]; [|reflexivity].
  cbn [result_bind]. rewrite value_bind. cbn [lift value fst].
  destruct (set_default d1 _ _) as [d2|e]; [|reflexivity].
  cbn [result_bind]. rewrite value_bind. cbn [lift value fst].
  now destruct (set_default d2 _ _).
Qed.

(** C6, as amended. The classifier always returns. When the output of
    the model cannot be used (the generation or the decoding fails), it
    returns the fallback intent, whose query type is STRUCTURED for a
    counting question and SEMANTIC otherwise. When the output is an
    object, the query type returned is the one the object names,
    whatever it is, and for an object that names none it is STRUCTURED
    for a counting question or one with the word most, SEMANTIC
    otherwise. Any other decoded value is returned as it is or replaced
    by the fallback intent. *)
Theorem intent_query_type (E : Env) (user_question : string) (stream : bool) :
  let fallback :=
    JDict [ ("intent", JStr user_question); ("entities", JDict []);
            ("query_type",
             JStr (if counting_question user_question
                   then "STRUCTURED" else "SEMANTIC")) ] in
  exists a,
    value (intent_agent E user_question stream) = Ok a /\
    match classifier_output E user_question stream with
    | Raise _ => a = fallback
    | Ok (JDict d) =>
        py_getitem a "query_type"
        = Ok match dict_get d "query_type" with
             | Some named => named
             | None => JStr (if counting_or_most user_question
                             then "STRUCTURED" else "SEMANTIC")
             end
    | Ok other => a = other \/ a = fallback
    end.
Proof.
  cbv zeta. unfold intent_agent. rewrite value_try, intent_agent_try_value.
  unfold intent_agent_default, type_name.
  rewrite words_on_error_spec, words_when_missing_spec.
  destruct (classifier_output E user_question stream) as [v|e];
    [|cbn; eauto].
  cbn [result_bind].
  assert (Hother :
    (forall d, v <> JDict d) ->
    exists a,
      match
        result_bind (set_default v "query_type"
                       (JStr (if counting_or_most user_question
                              then "STRUCTURED" else "SEMANTIC")))
          (fun d1 => result_bind (set_default d1 "entities" (JDict []))
             (fun d2 => set_default d2 "intent" (JStr user_question)))
      with
      | Ok a0 => Ok a0
      | Raise _ =>
          value (ret (JDict [ ("intent", JStr user_question);
                              ("entities", JDict []);
                              ("query_type",
                               JStr (if counting_question user_question
                                     then "STRUCTURED" else "SEMANTIC")) ]))
      end = Ok a /\
      (a = v \/
       a = JDict [ ("intent", JStr user_question); ("entities", JDict []);
                   ("query_type",
                    JStr (if counting_question user_question
                          then "STRUCTURED" else "SEMANTIC")) ])).
  { intros Hv.
    destruct (set_default_other v "query_type"
                (JStr (if counting_or_most user_question
                       then "STRUCTURED" else "SEMANTIC")) Hv)
      as [->|(e & ->)]; cbn [result_bind]; [|cbn; eauto].
    destruct (set_default_other v "entities" (JDict []) Hv)
      as [->|(e & ->)]; cbn [result_bind]; [|cbn; eauto].
    destruct (set_default_other v "intent" (JStr user_question) Hv)
      as [->|(e & ->)]; cbn; eauto. }
  destruct v as [| b | z | f | s | l | d];
    try (apply Hother; intros d Hd; discriminate Hd).
  rewrite set_default_dict. cbn [result_bind].
  rewrite set_default_dict. cbn [result_bind].
  rewrite set_default_dict.
  eexists; split; [reflexivity|].
  cbn [py_getitem].
  set (d1 := if dict_has d "query_type" then d else dict_set d "query_type" _).
  set (d2 := if dict_has d1 "entities" then d1 else dict_set d1 "entities" _).
  assert (H3 : dict_get (if dict_has d2 "intent" then d2
                         else dict_set d2 "intent" (JStr user_question))
                 "query_type" = dict_get d2 "query_type").
  { destruct (dict_has d2 "intent"); [reflexivity|].
    apply dict_get_set_other. discriminate. }
  assert (H2 : dict_get d2 "query_type" = dict_get d1 "query_type").
  { unfold d2. destruct (dict_has d1 "entities"); [reflexivity|].
    apply dict_get_set_other. discriminate. }
  rewrite H3, H2. unfold d1, dict_has.
  destruct (dict_get d "query_type") as [named|] eqn:Hq.
  - now rewrite Hq.
  - now rewrite dict_get_set_new by (unfold dict_has; now rewrite Hq).
Qed.

(** C6, as stated, fails: a model that names a query type of its own
    gets it back from the classifier. *)
Lemma foreign_query_type_returned :
  exists a,
    value (intent_agent hybrid_world paraben_question false) = Ok a /\
    py_getitem a "query_type" = Ok (JStr "HYBRID") /\
    ~ In (JStr "HYBRID") [JStr "STRUCTURED"; JStr "SEMANTIC"; JStr "COMBINED"].
Proof.
  eexists. split; [vm_compute; reflexivity|]. split; [reflexivity|].
  intros [H|[H|[H|[]]]]; discriminate H.
Qed.

(** ** Failures *)


Lemma query_endpoint_events (E : Env) (request : QueryRequest) :
  events (query_endpoint E request)
  = events (invoke E (initial_state (question request) (rq_stream request)
                        (rq_limit_results request))).
Proof.
  unfold query_endpoint, query_cosmetics_db.
  set (m := invoke E _).
  rewrite events_try, !events_bind, !value_bind.
  destruct (value m); cbn [ret events value fst snd app];
    now rewrite ?app_nil_r.
Qed.

Lemma query_endpoint_value (E : Env) (request : QueryRequest) :
  exists answer,
    value (query_endpoint E request) = Ok answer /\
    match value (invoke E (initial_state (question request) (rq_stream request)
                             (rq_limit_results request))) with
    | Ok _ => exists r, answer = Http200 r
    | Raise e => answer = Http500 e
    end.
Proof.
  unfold query_endpoint, query_cosmetics_db.
  set (m := invoke E _).
  rewrite value_try, !value_bind.
  destruct (value m); cbn [ret events value fst snd app]; eauto.
Qed.




(** C1. Nothing stands between the generated query and the store: in
    a world where the text generator answers the query prompt with a
    statement that drops the table, the request executes that
    statement, which [validate_sql_before_execution] rejects. *)
Theorem unvalidated_query_executed :
  executed (events (query_endpoint drop_world paraben_request))
    = ["DROP TABLE cosmetic_csv"] /\
  validate_sql_before_execution DANGEROUS_KEYWORDS "DROP TABLE cosmetic_csv"
    = (false, Some "Only SELECT queries are allowed (read-only operations)").
Proof. split; vm_compute; reflexivity. Qed.

(** C9. When both result sets are without rows, the synthesizer returns
    the fixed message and no citation, and the text generator is not
    called: the trace of the call is empty. *)
Theorem empty_results_short_circuit (E : Env) (user_question : string)
    (res : results) (stream : bool) :
  no_rows (r_sql_results res) ->
  no_rows (r_semantic_results res) ->
  value (response_generator E user_question res stream)
    = Ok ("No products or data found matching your criteria. Try rephrasing your question or using different search terms.",
          []) /\
  events (response_generator E user_question res stream) = [].
Proof.
  intros Hs Hv.
  assert (P : forall o, no_rows o -> present o = None).
  { intros [df|] H; [|reflexivity]. unfold present, len. cbn in H.
    now rewrite H. }
  unfold response_generator, build_digest, process_semantic, process_sql.
  rewrite (P _ Hs), (P _ Hv). now split.
Qed.

Lemma empty_results_short_circuit_witness :
  value (response_generator stores_down_world paraben_question
           (mkResults (Some empty_frame) None) true)
    = Ok ("No products or data found matching your criteria. Try rephrasing your question or using different search terms.",
          []) /\
  events (response_generator stores_down_world paraben_question
            (mkResults (Some empty_frame) None) true) = [].
Proof.
  apply (empty_results_short_circuit stores_down_world paraben_question
           (mkResults (Some empty_frame) None) true).
  - reflexivity.
  - exact I.
Defined.

(** ** The frame of structured retrieval *)

Lemma number_from_length i rows :
  List.length (number_from i rows) = List.length rows.
Proof. revert i. induction rows as [|r rows IH]; intros i; cbn; auto. Qed.

Lemma firstn_number_from k i rows :
  firstn k (number_from i rows) = number_from i (firstn k rows).
Proof.
  revert i rows. induction k as [|k IH]; intros i [|r rows]; cbn; auto.
  now rewrite IH.
Qed.

(** The citation ids put in front of the numbered rows are those of
    [cited]. *)
Lemma insert_ids (rows : list (list scalar)) :
  forall i : nat,
    map (fun vr : scalar * (Z * list scalar) =>
           (fst (snd vr), fst vr :: snd (snd vr)))
        (combine
           (map (fun j => SStr ("sql-" +++ str_of_Z (j + 1)))
                (map Z.of_nat (seq i (List.length rows))))
           (number_from (Z.of_nat i) rows))
    = cited (Z.of_nat i) rows.
Proof.
  induction rows as [|r rows IH]; intros i; [reflexivity|].
  cbn [List.length seq map combine number_from cited fst snd].
  f_equal. replace (Z.of_nat i + 1)%Z with (Z.of_nat (S i)) by lia.
  apply IH.
Qed.



Lemma str_of_Z_succ (i : nat) : str_of_Z (Z.of_nat i + 1) = str_of_nat (S i).
Proof.
  replace (Z.of_nat i + 1)%Z with (Z.of_nat (S i)) by lia.
  cbn [Z.of_nat str_of_Z]. now rewrite SuccNat2Pos.id_succ.
Qed.






(** ** The citation table *)

Lemma str_of_nat_inj (a b : nat) : str_of_nat a = str_of_nat b -> a = b.
Proof.
  unfold str_of_nat. intros H. apply DecimalNat.Unsigned.to_uint_inj.
  assert (Hs : Some (Nat.to_uint a) = Some (Nat.to_uint b))
    by (rewrite <- !NilEmpty.usu; now rewrite H).
  now inversion Hs.
Qed.

Lemma append_inj (p a b : string) : p +++ a = p +++ b -> a = b.
Proof. induction p as [|c p IH]; cbn; intros H; [auto|inversion H; auto]. Qed.

Lemma ids_NoDup tag i n : NoDup (ids tag i n).
Proof.
  unfold ids. apply Injective_map_NoDup; [|apply seq_NoDup].
  intros a b H. now apply str_of_nat_inj, (append_inj tag).
Qed.

Lemma all_ids_NoDup n m : NoDup (ids "sql-" 0 n ++ ids "sem-" 0 m).
Proof.
  apply NoDup_app; try apply ids_NoDup.
  intros a Ha Hb. unfold ids in *.
  apply in_map_iff in Ha, Hb.
  destruct Ha as (j & <- & _), Hb as (k & Hk & _). discriminate Hk.
Qed.

Lemma map_set_fresh (m : citation_map) (ks : list string) (k : string)
    (e : entry) :
  map fst m = map SStr ks -> ~ In k ks ->
  map_set m (SStr k) e = m ++ [(SStr k, e)].
Proof.
  revert ks. induction m as [|[k' v] m IH]; intros ks Hm Hk; [reflexivity|].
  destruct ks as [|k0 ks]; [discriminate|]. cbn in Hm. inversion Hm; subst.
  cbn [map_set scalar_eqb].
  destruct (String.eqb k0 k) eqn:Heq.
  - apply String.eqb_eq in Heq. subst. elim Hk. now left.
  - cbn [app]. f_equal. apply (IH ks); auto. intros H. apply Hk. now right.
Qed.

Lemma table_of_keys tag kind df i c rows :
  map fst (table_of tag kind df i c rows)
  = map SStr (ids tag i (List.length rows)).
Proof.
  revert i c. induction rows as [|r rows IH]; intros i c; [reflexivity|].
  cbn. f_equal. apply IH.
Qed.

Lemma table_of_numbers tag kind df i rows :
  forall c : nat,
    map (fun kv => e_citation_number (snd kv))
        (table_of tag kind df i (Z.of_nat c) rows)
    = map Z.of_nat (seq c (List.length rows)).
Proof.
  revert i. induction rows as [|r rows IH]; intros i c; [reflexivity|].
  cbn. f_equal. replace (Z.of_nat c + 1)%Z with (Z.of_nat (S c)) by lia.
  apply IH.
Qed.

Lemma sql_loop_table (df : DataFrame) (kept : list (list scalar)) :
  forall (i : nat) (m : citation_map) (c : Z) (ks : list string),
    map fst m = map SStr ks ->
    NoDup (ks ++ ids "sql-" i (List.length kept)) ->
    sql_loop df (cited (Z.of_nat i) kept) m c
    = (m ++ table_of "sql-" "sql" df i c (map snd (cited (Z.of_nat i) kept)),
       (c + Z.of_nat (List.length kept))%Z).
Proof.
  induction kept as [|r kept IH]; intros i m c ks Hm Hn.
  - cbn. rewrite app_nil_r. f_equal. lia.
  - cbn [cited sql_loop map snd table_of List.length].
    rewrite str_of_Z_succ.
    replace (Z.of_nat i + 1)%Z with (Z.of_nat (S i)) by lia.
    unfold ids in Hn. cbn [seq map] in Hn.
    rewrite (map_set_fresh m ks); auto.
    2:{ apply NoDup_remove_2 in Hn. intros H. apply Hn, in_or_app. now left. }
    rewrite (IH (S i) _ _ (ks ++ ["sql-" +++ str_of_nat (S i)])).
    + rewrite <- app_assoc. cbn [app]. f_equal. lia.
    + rewrite !map_app, Hm. reflexivity.
    + rewrite <- app_assoc. exact Hn.
Qed.

Lemma semantic_loop_table (E : Env) (df : DataFrame)
    (matches : list vmatch) :
  columns df = semantic_columns ->
  forall (i : nat) (m : citation_map) (c : Z) (ks : list string),
    map fst m = map SStr ks ->
    NoDup (ks ++ ids "sem-" i (List.length matches)) ->
    let rows := map (fun im => semantic_row E (fst im) (snd im))
                    (enumerate (Z.of_nat (S i)) matches) in
    semantic_loop df (number_from (Z.of_nat i) rows) m c
    = (m ++ table_of "sem-" "semantic" df i c rows,
       (c + Z.of_nat (List.length matches))%Z).
Proof.
  intros Hc. induction matches as [|v matches IH]; intros i m c ks Hm Hn.
  - cbn. rewrite app_nil_r. f_equal. lia.
  - cbn [enumerate map fst snd number_from semantic_loop table_of List.length].
    assert (Hid : (if row_has df "citation_id"
                   then match row_get df (semantic_row E (Z.of_nat (S i)) v)
                                  "citation_id" with
                        | Some x => x
                        | None => SNone
                        end
                   else SStr ("sem-" +++ str_of_Z (Z.of_nat i + 1)))
                  = SStr ("sem-" +++ str_of_nat (S i))).
    { unfold row_has, row_get. rewrite Hc. cbn.
      now rewrite ?SuccNat2Pos.id_succ. }
    rewrite Hid.
    replace (Z.of_nat i + 1)%Z with (Z.of_nat (S i)) by lia.
    unfold ids in Hn. cbn [seq map] in Hn.
    rewrite (map_set_fresh m ks); auto.
    2:{ apply NoDup_remove_2 in Hn. intros H. apply Hn, in_or_app. now left. }
    replace (Z.of_nat (S i) + 1)%Z with (Z.of_nat (S (S i))) by lia.
    rewrite (IH (S i) _ _ (ks ++ ["sem-" +++ str_of_nat (S i)])).
    + rewrite <- app_assoc. cbn [app]. f_equal. lia.
    + rewrite !map_app, Hm. reflexivity.
    + rewrite <- app_assoc. exact Hn.
Qed.

Lemma cited_snd_length i kept :
  List.length (map snd (cited i kept)) = List.length kept.
Proof. rewrite length_map. revert i. induction kept; intros; cbn; auto. Qed.

Lemma cited_frame_shape rows cols limit df :
  cited_frame rows cols limit = Ok df ->
  exists kept, df = mkDataFrame ("citation_id" :: cols) (cited 0 kept).
Proof.
  unfold cited_frame.
  set (df0 := if (limit <? len (frame_of_rows rows cols))%Z
              then head (frame_of_rows rows cols) limit
              else frame_of_rows rows cols).
  assert (H0 : exists kept, df0 = mkDataFrame cols (number_from 0 kept)).
  { unfold df0. destruct (limit <? _)%Z.
    - unfold head, frame_of_rows. cbn [columns records].
      rewrite firstn_number_from. eauto.
    - unfold frame_of_rows. eauto. }
  destruct H0 as (kept & ->). unfold insert_first. cbn [columns records].
  destruct (existsb _ cols); [discriminate|].
  intros H. inversion H. exists kept. f_equal.
  rewrite number_from_length. exact (insert_ids kept 0).
Qed.

Lemma number_from_snd i rows : map snd (number_from i rows) = rows.
Proof. revert i. induction rows; intros; cbn; f_equal; auto. Qed.

Lemma enumerate_length i (matches : list vmatch) :
  List.length (enumerate i matches) = List.length matches.
Proof. revert i. induction matches; intros; cbn; auto. Qed.

Lemma table_of_length tag kind df i c rows :
  List.length (table_of tag kind df i c rows) = List.length rows.
Proof. revert i c. induction rows; intros; cbn; auto. Qed.

Lemma process_sql_table (E : Env) (osql osem : option DataFrame) :
  structured_result osql ->
  let d := process_sql E (mkResults osql osem)
             (mkDigest EmptyString EmptyString [] 1) in
  d_citation_map d
    = table_of "sql-" "sql" (frame_of osql) 0 1 (rows_of osql) /\
  d_citation_counter d = (1 + Z.of_nat (List.length (rows_of osql)))%Z.
Proof.
  intros H. cbv zeta. unfold process_sql. cbn [r_sql_results].
  destruct H as [| |rows cols limit df Hdf]; try (now split).
  destruct (cited_frame_shape _ _ _ _ Hdf) as (kept & ->).
  unfold present, len. cbn [records rows_of frame_of].
  destruct kept as [|r kept]; [now split|].
  cbn [cited List.length Z.of_nat Z.ltb Z.compare].
  set (df := mkDataFrame ("citation_id" :: cols) _).
  cbn [d_citation_map d_citation_counter].
  change (records df) with (cited (Z.of_nat 0) (r :: kept)).
  rewrite (sql_loop_table df (r :: kept) 0 [] 1 []);
    [|reflexivity|apply ids_NoDup].
  cbn [d_citation_map d_citation_counter app].
  split; [reflexivity|]. do 2 f_equal. symmetry.
  exact (cited_snd_length (Z.of_nat 0) (r :: kept)).
Qed.

Lemma process_semantic_table (E : Env) (osql osem : option DataFrame)
    (d : digest) (ks : list string) :
  semantic_result E osem ->
  map fst (d_citation_map d) = map SStr ks ->
  NoDup (ks ++ ids "sem-" 0 (List.length (rows_of osem))) ->
  d_citation_map (process_semantic E (mkResults osql osem) d)
  = d_citation_map d
    ++ table_of "sem-" "semantic" (frame_of osem) 0 (d_citation_counter d)
         (rows_of osem).
Proof.
  intros H Hm Hn. unfold process_semantic. cbn [r_semantic_results].
  destruct H as [| |matches]; try (cbn; now rewrite app_nil_r).
  destruct matches as [|v matches]; [cbn; now rewrite app_nil_r|].
  unfold semantic_frame, frame_of_dicts, frame_of_rows in *.
  cbn [enumerate map fst snd] in *.
  unfold present, len. cbn [records number_from List.length Z.of_nat Z.ltb Z.compare].
  set (df := mkDataFrame semantic_columns _) in *.
  cbn [rows_of frame_of records] in *.
  assert (Hrows : map snd (records df)
                  = map (fun im => semantic_row E (fst im) (snd im))
                        (enumerate (Z.of_nat 1) (v :: matches))).
  { unfold df. cbn [records]. apply number_from_snd. }
  rewrite Hrows in *. rewrite length_map, enumerate_length in Hn.
  pose proof (semantic_loop_table E df (v :: matches) eq_refl 0
                (d_citation_map d) (d_citation_counter d) ks Hm Hn) as Hloop.
  cbv zeta in Hloop.
  change (number_from (Z.of_nat 0)
            (map (fun im => semantic_row E (fst im) (snd im))
               (enumerate (Z.of_nat 1) (v :: matches))))
    with (records df) in Hloop.
  match goal with
  | |- context [semantic_loop df ?r _ _] => change r with (records df)
  end.
  rewrite Hloop. reflexivity.
Qed.

(** The result sets of the theorem are those the stages leave in the
    state. *)
Lemma sql_node_leaves (E : Env) (st st' : AgentState) :
  value (sql_node E st) = Ok st' -> structured_result (sql_results st').
Proof.
  rewrite sql_node_value. intros H. inversion H as [Hst]. clear H Hst.
  destruct (value (sql_node_try E st)) as [done|e] eqn:Hv;
    [|apply structured_failed].
  revert Hv. unfold sql_node_try, sql_agent. open_m.
  repeat split_inner; intros H; inversion H; subst; cbn.
  match goal with
  | Hc : cited_frame _ _ _ = Ok _ |- _ => exact (structured_done _ _ _ _ Hc)
  end.
Qed.

Lemma semantic_node_leaves (E : Env) (st st' : AgentState) :
  value (semantic_node E st) = Ok st' ->
  semantic_result E (semantic_results st').
Proof.
  rewrite semantic_node_value. intros H. inversion H as [Hst]. clear H Hst.
  destruct (value (semantic_node_try E st)) as [done|e] eqn:Hv;
    [|apply semantic_failed_empty].
  revert Hv. unfold semantic_node_try, semantic_agent, semantic_search. open_m.
  repeat split_inner; intros H; inversion H; subst; cbn.
  apply semantic_done.
Qed.

(** C5. For the result sets the two retrievers leave behind, the
    citation table holds one entry for each row: first those of the
    structured rows in their order, then those of the semantic rows in
    theirs. The citation numbers are 1, 2, ... in that order, and no id
    occurs twice. *)
Theorem citation_table_invariant (E : Env) (osql osem : option DataFrame) :
  structured_result osql ->
  semantic_result E osem ->
  let table := d_citation_map (build_digest E (mkResults osql osem)) in
  let n := List.length (rows_of osql) in
  let m := List.length (rows_of osem) in
  table = table_of "sql-" "sql" (frame_of osql) 0 1 (rows_of osql)
          ++ table_of "sem-" "semantic" (frame_of osem) 0
               (1 + Z.of_nat n) (rows_of osem) /\
  map (fun kv => e_citation_number (snd kv)) table
    = map Z.of_nat (seq 1 (n + m)) /\
  NoDup (map fst table) /\
  List.length table = n + m.
Proof.
  intros Hs Hv table n m.
  destruct (process_sql_table E osql osem Hs) as (Hmap & Hcount).
  cbv zeta in Hmap, Hcount.
  assert (Ht : table
               = table_of "sql-" "sql" (frame_of osql) 0 1 (rows_of osql)
                 ++ table_of "sem-" "semantic" (frame_of osem) 0
                      (1 + Z.of_nat n) (rows_of osem)).
  { unfold table, build_digest.
    rewrite (process_semantic_table E osql osem _ (ids "sql-" 0 n) Hv).
    - now rewrite Hmap, Hcount.
    - rewrite Hmap. apply table_of_keys.
    - apply all_ids_NoDup. }
  split; [exact Ht|]. rewrite Ht. split; [|split].
  - rewrite map_app.
    pose proof (table_of_numbers "sql-" "sql" (frame_of osql) 0
                  (rows_of osql) 1) as H1.
    change (Z.of_nat 1) with 1%Z in H1. rewrite H1.
    replace (1 + Z.of_nat n)%Z with (Z.of_nat (S n)) by lia.
    rewrite (table_of_numbers "sem-" "semantic" (frame_of osem) 0 (rows_of osem) (S n)).
    rewrite <- map_app. f_equal. fold n m. now rewrite seq_app.
  - rewrite map_app, !table_of_keys, <- map_app.
    apply Injective_map_NoDup; [intros a b H; now inversion H|].
    apply all_ids_NoDup.
  - now rewrite length_app, !table_of_length.
Qed.

Lemma citation_table_invariant_witness :
  let osql := Some (mkDataFrame ["citation_id"; "CDPHId"; "ProductName"]
                      (cited 0 (firstn 6 eight_rows))) in
  let osem := Some (semantic_frame combined_world two_matches) in
  map (fun kv => e_citation_number (snd kv))
      (d_citation_map (build_digest combined_world (mkResults osql osem)))
  = [1; 2; 3; 4; 5; 6; 7; 8]%Z.
Proof.
  cbv zeta.
  refine (proj1 (proj2 (citation_table_invariant combined_world _ _ _ _))).
  - apply (structured_done eight_rows ["CDPHId"; "ProductName"] 6).
    reflexivity.
  - apply semantic_done.
Defined.

(** ** The sample worlds, run *)

(** A combined request goes through the four stages. *)
Example combined_world_route :
  stages (events (query_endpoint combined_world paraben_request))
  = [intent; sql; semantic; response].
Proof. vm_compute. reflexivity. Qed.

(** With both stores down the caller still gets an answer, the fixed
    one, and the two failures are in the diagnostics. *)
Example stores_down_world_diagnostics :
  match value (query_cosmetics_db stores_down_world paraben_question false 50) with
  | Ok r =>
      qr_answer r = not_found /\
      qr_citations r = [] /\
      option_map ex_steps (qr_explanation r)
      = Some [ "Intent analyzed: COMBINED"; "Intent analyzed: COMBINED";
               "SQL error: unable to open database file";
               "Intent analyzed: COMBINED"; "Intent analyzed: COMBINED";
               "SQL error: unable to open database file";
               "Semantic error: index unreachable" ]
  | Raise _ => False
  end.
Proof. vm_compute. repeat split. Qed.

(** Prose instead of an object: the fallback applies. *)
Example prose_world_fallback :
  value (intent_agent prose_world "How many products contain lead?" false)
  = Ok (JDict [ ("intent", JStr "How many products contain lead?");
                ("entities", JDict []);
                ("query_type", JStr "STRUCTURED") ]).
Proof. vm_compute. reflexivity. Qed.

(** Outside the domain of C10: for a negative limit [head] drops rows
    from the end, two of eight here. *)
Example negative_limit_keeps_head :
  option_map (fun df => List.length (records df))
    (match cited_frame eight_rows ["CDPHId"; "ProductName"] (-2) with
     | Ok df => Some df
     | Raise _ => None
     end)
  = Some 6.
Proof. vm_compute. reflexivity. Qed.

End Orchestrator.

(* ================================================================== *)
(** * Further properties of the validator *)
(* ================================================================== *)

Section ValidatorMore.

Local Abbreviation keyword_found u keyword :=
  (found (re_search false (keyword_pattern keyword) u)).

(** ** The order of the keywords does not change the verdict *)

Lemma first_keyword_found (order : list string) (u k : string) :
  first_keyword order u = Some k -> In k order /\ keyword_found u k = true.
Proof.
  induction order as [|k0 order IH]; [discriminate|].
  cbn [first_keyword]. destruct (keyword_found u k0) eqn:Hk.
  - intros H. inversion H; subst. split; [now left|exact Hk].
  - intros H. destruct (IH H). split; [now right|assumption].
Qed.

Lemma first_keyword_all_false (order : list string) (u : string) :
  first_keyword order u = None ->
  forall k, In k order -> keyword_found u k = false.
Proof.
  induction order as [|k0 order IH]; [contradiction|].
  cbn [first_keyword]. destruct (keyword_found u k0) eqn:Hk; [discriminate|].
  intros H k [<-|Hin]; auto.
Qed.

(** X1. The keywords are a set, visited in an order the language does not
    fix. Two orders give the same verdict; the answers differ at most
    in the keyword a rejection names. *)
Theorem verdict_order_independent (order1 order2 : list string)
    (sql_query : string) :
  Permutation order1 order2 ->
  validate_query order1 sql_query = validate_query order2 sql_query \/
  exists k1 k2,
    In k1 order1 /\ In k2 order1 /\
    validate_query order1 sql_query = (false, Some (msg_keyword k1)) /\
    validate_query order2 sql_query = (false, Some (msg_keyword k2)).
Proof.
  intros Hp. destruct sql_query as [|c s]; [now left|].
  cbv beta iota zeta delta [validate_query].
  destruct (negb (found (re_match true select_pattern (strip (String c s)))));
    [now left|].
  set (u := upper (strip (String c s))).
  destruct (first_keyword order1 u) as [k1|] eqn:H1,
           (first_keyword order2 u) as [k2|] eqn:H2.
  - right. exists k1, k2.
    destruct (first_keyword_found _ _ _ H1) as (I1 & _).
    destruct (first_keyword_found _ _ _ H2) as (I2 & _).
    repeat split; auto.
    eapply Permutation_in; [apply Permutation_sym; exact Hp | exact I2].
  - exfalso. destruct (first_keyword_found _ _ _ H1) as (I1 & F1).
    rewrite (first_keyword_all_false _ _ H2 k1) in F1; [discriminate|].
    eapply Permutation_in; eauto.
  - exfalso. destruct (first_keyword_found _ _ _ H2) as (I2 & F2).
    rewrite (first_keyword_all_false _ _ H1 k2) in F2; [discriminate|].
    eapply Permutation_in; [apply Permutation_sym; exact Hp | exact I2].
  - now left.
Qed.

Lemma verdict_order_independent_witness :
  validate_query DANGEROUS_KEYWORDS "SELECT 1; DROP TABLE a; DELETE FROM b"
    = validate_query (rev DANGEROUS_KEYWORDS)
        "SELECT 1; DROP TABLE a; DELETE FROM b" \/
  exists k1 k2,
    In k1 DANGEROUS_KEYWORDS /\ In k2 DANGEROUS_KEYWORDS /\
    validate_query DANGEROUS_KEYWORDS "SELECT 1; DROP TABLE a; DELETE FROM b"
      = (false, Some (msg_keyword k1)) /\
    validate_query (rev DANGEROUS_KEYWORDS)
        "SELECT 1; DROP TABLE a; DELETE FROM b"
      = (false, Some (msg_keyword k2)).
Proof.
  apply (verdict_order_independent DANGEROUS_KEYWORDS (rev DANGEROUS_KEYWORDS)).
  apply Permutation_rev.
Defined.

(** ** Blanks around the query *)

Lemma rstrip_idempotent (s : string) : rstrip (rstrip s) = rstrip s.
Proof.
  induction s as [|c s IH]; [reflexivity|].
  cbn [rstrip]. destruct (rstrip s) as [|c' r] eqn:Hr.
  - destruct (is_space c) eqn:Hc; [reflexivity|]. cbn [rstrip]. now rewrite Hc.
  - cbn [rstrip] in *. now rewrite IH.
Qed.

Lemma strip_idempotent (s : string) : strip (strip s) = strip s.
Proof.
  unfold strip at 1. rewrite lstrip_strip. unfold strip.
  apply rstrip_idempotent.
Qed.

(** X2. Blanks before and after the query do not count: the validator
    answers for the query as for the query without them, as long as
    something is left. *)
Theorem surrounding_blanks_ignored (order : list string) (sql_query : string) :
  strip sql_query <> EmptyString ->
  validate_query order sql_query = validate_query order (strip sql_query).
Proof.
  intros Hne. destruct sql_query as [|c s]; [reflexivity|].
  destruct (strip (String c s)) as [|c' s'] eqn:Hs; [congruence|].
  cbv beta iota zeta delta [validate_query]. rewrite Hs.
  rewrite <- Hs, strip_idempotent. reflexivity.
Qed.

Lemma surrounding_blanks_ignored_witness :
  validate_query DANGEROUS_KEYWORDS "   SELECT name FROM products  "
  = validate_query DANGEROUS_KEYWORDS (strip "   SELECT name FROM products  ").
Proof.
  apply surrounding_blanks_ignored. discriminate.
Defined.

(** ** What an accepted query cannot hold *)

Lemma last_char_cons (c : ascii) (s : string) :
  last_char (String c s)
  = Some (match last_char s with Some x => x | None => c end).
Proof.
  revert c. induction s as [|c' s IH]; intros c; [reflexivity|].
  change (last_char (String c (String c' s))) with (last_char (String c' s)).
  rewrite IH. reflexivity.
Qed.

(** A match at some position is found by the search. *)
Lemma search_from_complete (ic : bool) (p : pattern) (pre s : string) :
  forall prev r,
    match_here ic p
      (match last_char pre with Some c => Some c | None => prev end)
      s None None = Some r ->
    found (search_from ic p prev (pre +++ s)) = true.
Proof.
  induction pre as [|c pre IH]; intros prev r H.
  - cbn [last_char String.append] in *.
    destruct s; cbn [search_from]; now rewrite H.
  - cbn [String.append search_from].
    destruct (match_here ic p prev (String c (pre +++ s)) None None);
      [reflexivity|].
    apply (IH (Some c) r). rewrite last_char_cons in H.
    now destruct (last_char pre).
Qed.

Lemma chr_eq_refl (ic : bool) (c : ascii) : chr_eq ic c c = true.
Proof. unfold chr_eq. destruct ic; apply Ascii.eqb_refl. Qed.

(** A literal matches itself. *)
Lemma lit_match_self (ic : bool) (w : string) :
  forall tail prev post go gc,
    match_here ic (lit w ++ tail) prev (w +++ post) go gc
    = match_here ic tail
        (match last_char w with Some c => Some c | None => prev end)
        post go gc.
Proof.
  induction w as [|c w IH]; intros tail prev post go gc; [reflexivity|].
  cbn [lit app String.append match_here]. rewrite chr_eq_refl, IH.
  rewrite last_char_cons. now destruct (last_char w).
Qed.

Lemma keyword_found_complete (keyword u : string) :
  In keyword DANGEROUS_KEYWORDS -> whole_word keyword u ->
  keyword_found u keyword = true.
Proof.
  intros Hin (pre & post & -> & Hl & Hr).
  unfold re_search. apply search_from_complete with (r := MRes
    (last_char keyword) post None None).
  unfold keyword_pattern.
  assert (Hw : is_word_opt (head_opt (keyword +++ post)) = true
               /\ is_word_opt (last_char keyword) = true).
  { cbn in Hin.
    repeat (destruct Hin as [<-|Hin]; [split; reflexivity|]).
    contradiction. }
  destruct Hw as (Hh & Hk).
  cbn [match_here]. unfold at_boundary at 1.
  assert (Hp : is_word_opt
                 (match last_char pre with Some c => Some c | None => None end)
               = false) by now destruct (last_char pre).
  rewrite Hp, Hh. cbn [xorb].
  rewrite lit_match_self. cbn [match_here]. unfold at_boundary.
  assert (Hk' : is_word_opt
                  (match last_char keyword with
                   | Some c => Some c
                   | None => match last_char pre with
                             | Some c => Some c | None => None end
                   end) = true).
  { destruct (last_char keyword); [exact Hk|discriminate Hk]. }
  rewrite Hk', Hr. cbn [xorb].
  f_equal. f_equal. destruct (last_char keyword); [reflexivity|discriminate Hk].
Qed.

(** A literal matches, letter case aside, where it is a prefix. *)
Lemma lit_match_ci (w : string) :
  forall prev s go gc,
    prefix (upper w) (upper s) = true ->
    exists r, match_here true (lit w) prev s go gc = Some r.
Proof.
  induction w as [|x w IH]; intros prev s go gc H; [cbn; eauto|].
  destruct s as [|c s]; [discriminate|].
  cbn [upper map_chars prefix] in H.
  destruct (ascii_dec (upper_char x) (upper_char c)) as [e|]; [|discriminate].
  cbn [lit match_here].
  assert (Hc : chr_eq true x c = true).
  { unfold chr_eq. apply Ascii.eqb_eq.
    rewrite <- (lower_upper_char x), <- (lower_upper_char c). now rewrite e. }
  rewrite Hc. now apply IH.
Qed.

Lemma literal_found_ci (w s : string) :
  contains (upper w) (upper s) = true ->
  found (re_search true (lit w) s) = true.
Proof.
  unfold contains, re_search. generalize (@None ascii) as prev.
  induction s as [|c s IH]; intros prev.
  - cbn [upper map_chars find]. destruct (prefix (upper w) EmptyString) eqn:Hp.
    + destruct (lit_match_ci w prev EmptyString None None Hp) as (r & Hr).
      cbn [search_from]. now rewrite Hr.
    + discriminate.
  - cbn [upper map_chars find].
    change (map_chars upper_char s) with (upper s).
    destruct (prefix (upper w) (String (upper_char c) (upper s))) eqn:Hp.
    + destruct (lit_match_ci w prev (String c s) None None Hp) as (r & Hr).
      cbn [search_from]. now rewrite Hr.
    + intros H. cbn [search_from].
      destruct (match_here true (lit w) prev (String c s) None None);
        [reflexivity|].
      apply IH. now destruct (find (upper w) (upper s)).
Qed.

Lemma first_injection_none (pats : list (string * pattern)) (query : string) :
  first_injection pats query = None ->
  forall src p, In (src, p) pats -> found (re_search true p query) = false.
Proof.
  induction pats as [|[src0 p0] pats IH]; [contradiction|].
  cbn [first_injection].
  destruct (found (re_search true p0 query)) eqn:H0; [discriminate|].
  intros H src p [Heq|Hin]; [now inversion Heq; subst|eauto].
Qed.

(** X3. What the verdict of the validator guarantees for a query in
    ASCII. An accepted query begins with the word SELECT; blanks around
    it aside, it has at most 5000 characters; in no letter case does it
    hold a dangerous keyword as a whole word, the opening of a block
    comment, or the letters xp_ or sp_ anywhere, inside a longer name
    too. *)
Theorem accepted_query_is_clean (order : list string) (sql_query : string) :
  isascii sql_query = true ->
  Permutation order DANGEROUS_KEYWORDS ->
  validate_query order sql_query = (true, None) ->
  begins_with_select sql_query = true /\
  String.length (strip sql_query) <= 5000 /\
  (forall keyword, In keyword DANGEROUS_KEYWORDS ->
                   ~ whole_word keyword (upper (strip sql_query))) /\
  contains "/*" (upper (strip sql_query)) = false /\
  contains "XP_" (upper (strip sql_query)) = false /\
  contains "SP_" (upper (strip sql_query)) = false.
Proof.
  intros _ Hp. destruct sql_query as [|c s]; [discriminate|].
  cbv beta iota zeta delta [validate_query].
  pose proof (select_rule (String c s)) as Hrule.
  set (query := strip (String c s)) in *.
  destruct (found (re_match true select_pattern query)) eqn:Hsel;
    [|discriminate]. cbn [negb].
  destruct (first_keyword order (upper query)) eqn:Hkw; [discriminate|].
  destruct (first_injection injection_patterns query) eqn:Hinj; [discriminate|].
  destruct (first_disallowed _); [discriminate|].
  destruct (5000 <? String.length query) eqn:Hlen; [discriminate|].
  intros _. split; [|split; [|split; [|split; [|split]]]].
  - now symmetry.
  - apply Nat.ltb_ge in Hlen. exact Hlen.
  - intros keyword Hin Hw.
    pose proof (keyword_found_complete keyword _ Hin Hw) as Hf.
    rewrite (first_keyword_all_false _ _ Hkw keyword) in Hf; [discriminate|].
    eapply Permutation_in; [apply Permutation_sym; exact Hp | exact Hin].
  - destruct (contains "/*" (upper query)) eqn:Hc; [|reflexivity].
    pose proof (literal_found_ci "/*" query Hc) as Hf.
    rewrite (first_injection_none _ _ Hinj "/\*" (lit "/*")) in Hf;
      [discriminate|]. cbn. tauto.
  - destruct (contains "XP_" (upper query)) eqn:Hc; [|reflexivity].
    pose proof (literal_found_ci "xp_" query Hc) as Hf.
    rewrite (first_injection_none _ _ Hinj "xp_" (lit "xp_")) in Hf;
      [discriminate|]. cbn. tauto.
  - destruct (contains "SP_" (upper query)) eqn:Hc; [|reflexivity].
    pose proof (literal_found_ci "sp_" query Hc) as Hf.
    rewrite (first_injection_none _ _ Hinj "sp_" (lit "sp_")) in Hf;
      [discriminate|]. cbn. tauto.
Qed.

Lemma accepted_query_is_clean_witness :
  isascii "select name from Products where id = 3" = true /\
  begins_with_select "select name from Products where id = 3" = true /\
  String.length (strip "select name from Products where id = 3") <= 5000 /\
  (forall keyword, In keyword DANGEROUS_KEYWORDS ->
     ~ whole_word keyword (upper (strip "select name from Products where id = 3"))) /\
  contains "/*" (upper (strip "select name from Products where id = 3")) = false /\
  contains "XP_" (upper (strip "select name from Products where id = 3")) = false /\
  contains "SP_" (upper (strip "select name from Products where id = 3")) = false.
Proof.
  split; [reflexivity|].
  apply (accepted_query_is_clean DANGEROUS_KEYWORDS).
  - reflexivity.
  - apply Permutation_refl.
  - vm_compute. reflexivity.
Defined.

End ValidatorMore.

(* ================================================================== *)
(** * Further properties of the agents *)
(* ================================================================== *)

Section AgentsMore.

(** ** The query cut out of the generated text *)

Lemma find_drop_prefix (sub s : string) :
  forall i, find sub s = Some i -> prefix sub (drop i s) = true.
Proof.
  induction s as [|c s IH]; intros i; cbn [find].
  - destruct (prefix sub EmptyString) eqn:Hp; [|discriminate].
    intros H. inversion H. exact Hp.
  - destruct (prefix sub (String c s)) eqn:Hp.
    + intros H. inversion H. exact Hp.
    + destruct (find sub s) as [j|]; [|discriminate].
      intros H. inversion H. cbn [drop]. now apply IH.
Qed.

Lemma upper_drop (i : nat) (s : string) : upper (drop i s) = drop i (upper s).
Proof.
  revert s. induction i as [|i IH]; intros [|c s]; try reflexivity.
  cbn [drop upper map_chars]. apply IH.
Qed.

Lemma semicolon_first (c : ascii) (s : string) :
  prefix ";" (String c s) = true -> c = ";"%char.
Proof.
  cbn [prefix]. destruct (ascii_dec ";" c); [auto|discriminate].
Qed.

(** Cutting after the first semicolon keeps it first and last. *)
Lemma take_first_semicolon (s : string) :
  forall j, find ";" s = Some j ->
            find ";" (take (j + 1) s) = Some j /\
            String.length (take (j + 1) s) = j + 1.
Proof.
  induction s as [|c s IH]; intros j; cbn [find].
  - discriminate.
  - destruct (prefix ";" (String c s)) eqn:Hp.
    + intros H. inversion H. subst j.
      apply semicolon_first in Hp. subst c. cbn [Nat.add take].
      split; reflexivity.
    + destruct (find ";" s) as [k|] eqn:Hk; [|discriminate].
      intros H. inversion H. subst j.
      destruct (IH k eq_refl) as (H1 & H2).
      cbn [Nat.add take find String.length].
      assert (Hp' : prefix ";" (String c (take (k + 1) s)) = false).
      { cbn [prefix] in *. destruct (ascii_dec ";" c); [|reflexivity].
        rewrite prefix_nil in Hp. discriminate. }
      rewrite Hp', H1, H2. now split.
Qed.

(** A prefix without semicolon is still there after the cut. *)
Lemma prefix_take_semicolon (p : string) :
  contains ";" p = false ->
  forall s j, prefix p (upper s) = true -> find ";" s = Some j ->
              prefix p (upper (take (j + 1) s)) = true.
Proof.
  induction p as [|x p IH]; intros Hp s j Hs Hj; [apply prefix_nil|].
  destruct s as [|c s]; [discriminate|].
  cbn [upper map_chars prefix] in Hs.
  destruct (ascii_dec x (upper_char c)) as [e|]; [|discriminate].
  assert (Hx : x <> ";"%char /\ contains ";" p = false).
  { unfold contains in *. cbn [find] in Hp.
    destruct (prefix ";" (String x p)) eqn:H1; [discriminate|].
    split.
    - intros ->. cbn [prefix] in H1. destruct (ascii_dec ";" ";"); [|congruence].
      now rewrite prefix_nil in H1.
    - now destruct (find ";" p). }
  destruct Hx as (Hx & Hp').
  cbn [find] in Hj.
  destruct (prefix ";" (String c s)) eqn:Hc.
  - apply semicolon_first in Hc. subst c. now elim Hx.
  - destruct (find ";" s) as [k|] eqn:Hk; [|discriminate].
    inversion Hj. subst j. cbn [Nat.add take upper map_chars prefix].
    destruct (ascii_dec x (upper_char c)); [|contradiction].
    now apply (IH Hp' s k).
Qed.

(** X4. What [sql_agent] makes of a text of the model that is in ASCII.
    When the text, fences and blanks aside, holds the letters SELECT in
    some letter case, the query returned starts with them and has
    nothing after its first semicolon. A text without them is returned
    as it is. *)
Theorem extracted_query_shape (response : string) :
  isascii response = true ->
  match find "SELECT" (upper (unfenced response)) with
  | None => extract_sql response = unfenced response
  | Some _ =>
      prefix "SELECT" (upper (extract_sql response)) = true /\
      forall j, find ";" (extract_sql response) = Some j ->
                String.length (extract_sql response) = j + 1
  end.
Proof.
  intros _. unfold extract_sql. fold (unfenced response).
  destruct (find "SELECT" (upper (unfenced response))) as [i|] eqn:Hi;
    [|reflexivity].
  pose proof (find_drop_prefix _ _ _ Hi) as Hp. rewrite <- upper_drop in Hp.
  set (q0 := drop i (unfenced response)) in *.
  destruct (find ";" q0) as [k|] eqn:Hk.
  - destruct (take_first_semicolon q0 k Hk) as (H1 & H2). split.
    + now apply prefix_take_semicolon.
    + intros j Hj. rewrite H1 in Hj. inversion Hj. subst. exact H2.
  - split; [exact Hp|]. intros j Hj. congruence.
Qed.

Lemma extracted_query_shape_witness :
  let response := "Sure: ```sql select name from products; drop table x```" in
  isascii response = true /\
  prefix "SELECT" (upper (extract_sql response)) = true /\
  forall j, find ";" (extract_sql response) = Some j ->
            String.length (extract_sql response) = j + 1.
Proof.
  cbv zeta. split; [reflexivity|].
  pose proof (extracted_query_shape
                "Sure: ```sql select name from products; drop table x```"
                eq_refl) as H.
  assert (Hf : find "SELECT"
                 (upper (unfenced
                    "Sure: ```sql select name from products; drop table x```"))
               = Some 7) by (vm_compute; reflexivity).
  rewrite Hf in H. exact H.
Defined.

(** ** The object found in the text of the classifier *)

Lemma scan_shallow (body : string) :
  forall inner post,
    shallow inner body = true ->
    scan_object inner (body +++ String "}" post)
    = Some (String.length body + 1).
Proof.
  induction body as [|c body IH]; intros inner post H.
  - cbn in *. now destruct inner.
  - cbn [String.append scan_object String.length shallow] in *.
    destruct (Ascii.eqb c "{").
    + destruct inner; [discriminate|]. now rewrite (IH true).
    + destruct (Ascii.eqb c "}").
      * destruct inner; [|discriminate]. now rewrite (IH false).
      * now rewrite (IH inner).
Qed.

Lemma take_through (a : string) (c : ascii) (post : string) :
  take (String.length a + 1) (a +++ String c post) = a +++ String c EmptyString.
Proof.
  induction a as [|x a IH]; [reflexivity|].
  cbn [String.length Nat.add take String.append]. now rewrite IH.
Qed.

(** X5. Prose around the object does not matter. An object with at most
    one level of nesting, after any text without braces, is what the
    search returns, whatever follows it. *)
Theorem object_found_in_prose (pre body post : string) :
  brace_free pre = true ->
  shallow false body = true ->
  search_object (pre +++ String "{" (body +++ String "}" post))
  = Some (String "{" (body +++ String "}" EmptyString)).
Proof.
  intros Hpre Hbody. induction pre as [|c pre IH].
  - cbn [String.append search_object]. cbn [Ascii.eqb Bool.eqb].
    rewrite (scan_shallow body false post Hbody).
    cbn [take]. f_equal. f_equal. apply take_through.
  - cbn [brace_free] in Hpre. apply andb_prop in Hpre. destruct Hpre as (Hc & Hp).
    apply andb_prop in Hc. destruct Hc as (Hc & _).
    cbn [String.append search_object].
    destruct (Ascii.eqb c "{"); [discriminate|]. now apply IH.
Qed.

Lemma object_found_in_prose_witness :
  search_object
    ("Here it is: " +++ String "{" ("a {b} c" +++ String "}" " {x} done."))
  = Some (String "{" ("a {b} c" +++ String "}" EmptyString)).
Proof.
  apply (object_found_in_prose "Here it is: " "a {b} c" " {x} done.");
    reflexivity.
Defined.

(** ** The keys of the intent *)

Lemma defaulted_keeps (d : list (string * json)) (k k' : string) (v x : json) :
  dict_get d k' = Some x -> dict_get (defaulted d k v) k' = Some x.
Proof.
  intros H. unfold defaulted, dict_has.
  destruct (dict_get d k) eqn:Hk; [exact H|].
  rewrite dict_get_set_other; [exact H|]. intros ->. congruence.
Qed.

Lemma defaulted_has (d : list (string * json)) (k : string) (v : json) :
  dict_has (defaulted d k v) k = true.
Proof.
  unfold defaulted. destruct (dict_has d k) eqn:Hk; [exact Hk|].
  unfold dict_has. now rewrite dict_get_set_new.
Qed.

Lemma dict_has_keeps (d : list (string * json)) (k k' : string) (v : json) :
  dict_has d k' = true -> dict_has (defaulted d k v) k' = true.
Proof.
  unfold dict_has at 1. destruct (dict_get d k') as [x|] eqn:H; [|discriminate].
  intros _. unfold dict_has. now rewrite (defaulted_keeps d k k' v x H).
Qed.

(** The intent the classifier returns for an object. *)
Lemma intent_agent_of_object (E : Env) (q : string) (stream : bool)
    (d : list (string * json)) :
  classifier_output E q stream = Ok (JDict d) ->
  value (intent_agent E q stream)
  = Ok (JDict
          (defaulted
             (defaulted
                (defaulted d "query_type"
                   (type_name (any_word_in words_when_missing q)))
                "entities" (JDict []))
             "intent" (JStr q))).
Proof.
  intros H. unfold intent_agent.
  rewrite value_try, intent_agent_try_value, H. cbn [result_bind].
  rewrite !set_default_dict. cbn [result_bind]. rewrite !set_default_dict.
  cbn [result_bind]. rewrite set_default_dict. reflexivity.
Qed.

Lemma intent_agent_of_failure (E : Env) (q : string) (stream : bool) (e : string) :
  classifier_output E q stream = Raise e ->
  value (intent_agent E q stream) = Ok (intent_agent_default q).
Proof.
  intros H. unfold intent_agent.
  now rewrite value_try, intent_agent_try_value, H.
Qed.

Lemma intent_agent_of_other (E : Env) (q : string) (stream : bool) (v : json) :
  classifier_output E q stream = Ok v ->
  (forall d, v <> JDict d) ->
  value (intent_agent E q stream)
  = Ok (if names_keys v then v else intent_agent_default q).
Proof.
  intros H Hv. unfold intent_agent.
  rewrite value_try, intent_agent_try_value, H. cbn [result_bind].
  destruct v as [| | | | s|l|d]; try reflexivity.
  - unfold set_default, names_keys. cbn [py_in py_setitem result_bind].
    destruct (contains "query_type" s);
      cbn [py_in py_setitem result_bind andb]; [|reflexivity].
    destruct (contains "entities" s);
      cbn [py_in py_setitem result_bind andb]; [|reflexivity].
    destruct (contains "intent" s); reflexivity.
  - unfold set_default, names_keys. cbn [py_in py_setitem result_bind].
    destruct (existsb (is_str "query_type") l);
      cbn [py_in py_setitem result_bind andb]; [|reflexivity].
    destruct (existsb (is_str "entities") l);
      cbn [py_in py_setitem result_bind andb]; [|reflexivity].
    destruct (existsb (is_str "intent") l); reflexivity.
  - now elim (Hv d).
Qed.

(** X6. The intent the classifier returns, case by case. For an object
    of the model it is an object with the three keys the pipeline reads,
    in which every entry of the object of the model is unchanged. When
    nothing of the model can be used it is the fallback object. For a
    value that is not an object it is the fallback object too, with one
    exception: a text in which the three names occur, or a list that
    holds them, is returned as it is, without any key. *)
Theorem intent_has_its_keys (E : Env) (user_question : string) (stream : bool) :
  match classifier_output E user_question stream with
  | Ok (JDict d) =>
      exists d', value (intent_agent E user_question stream) = Ok (JDict d') /\
                 dict_has d' "query_type" = true /\
                 dict_has d' "entities" = true /\
                 dict_has d' "intent" = true /\
                 forall k x, dict_get d k = Some x -> dict_get d' k = Some x
  | Ok v =>
      value (intent_agent E user_question stream)
      = Ok (if names_keys v then v else intent_agent_default user_question)
  | Raise _ =>
      value (intent_agent E user_question stream)
      = Ok (intent_agent_default user_question)
  end.
Proof.
  destruct (classifier_output E user_question stream) as [v|e] eqn:H.
  - destruct v as [| | | | s|l|d];
      try (apply (intent_agent_of_other E _ _ _ H); discriminate).
    rewrite (intent_agent_of_object E _ _ _ H).
    eexists; split; [reflexivity|]. repeat split.
    + apply dict_has_keeps, dict_has_keeps, defaulted_has.
    + apply dict_has_keeps, defaulted_has.
    + apply defaulted_has.
    + intros k x Hk. now apply defaulted_keeps, defaulted_keeps, defaulted_keeps.
  - exact (intent_agent_of_failure E _ _ _ H).
Qed.

(** ** The reasoning field *)

Lemma intent_node_of_object (E : Env) (st : AgentState)
    (d : list (string * json)) (qt : json) :
  value (intent_agent E (user_question st) (stream st)) = Ok (JDict d) ->
  dict_get d "query_type" = Some qt ->
  value (intent_node E st)
  = match dict_get d "reasoning" with
    | Some r =>
        if py_sliceable r
        then Ok (with_intent st (JDict d)
                   (messages st ++ ["Intent analyzed: " +++ json_str E qt]))
        else Raise (slice_error r)
    | None =>
        Ok (with_intent st (JDict d)
              (messages st ++ ["Intent analyzed: " +++ json_str E qt]))
    end.
Proof.
  intros Ha Hq. unfold intent_node.
  rewrite value_bind. cbn [emit value fst].
  rewrite value_bind, Ha. rewrite value_bind. cbn [lift value fst py_getitem].
  rewrite Hq. rewrite value_bind. cbn [lift value fst py_in].
  unfold dict_has. destruct (dict_get d "reasoning") as [r|].
  - rewrite value_bind, value_bind. cbn [lift value fst].
    destruct (py_sliceable r); reflexivity.
  - rewrite value_bind. reflexivity.
Qed.

Lemma invoke_of_intent_failure (E : Env) (st0 : AgentState) (e : string) :
  value (intent_node E st0) = Raise e ->
  value (invoke E st0) = Raise e /\
  events (invoke E st0) = events (intent_node E st0).
Proof.
  intros H. unfold invoke, recursion_limit.
  change (run E 25 intent st0)
    with (bind (intent_node E st0) (fun returned =>
            bind (lift (next_node intent (write_back st0 returned)))
              (fun following =>
                 match following with
                 | None => ret (write_back st0 returned)
                 | Some n' => run E 24 n' (write_back st0 returned)
                 end))).
  rewrite value_bind, events_bind, H. now rewrite app_nil_r.
Qed.


(** ** Requests that are classified and not served *)

(** C3. The query type of the intent does not decide alone which
    retrievers run. When the object of the model names a query type,
    COMBINED say, and has a reasoning that is neither a string nor a
    list, the classifier returns an intent with that query type, and
    the intent stage then raises while it prints the reasoning: the
    request ends with the error answer after its first stage, and
    neither structured nor semantic retrieval has run. *)
Theorem classified_request_not_served (E : Env) (request : QueryRequest)
    (d : list (string * json)) (query_type r : json) :
  classifier_output E (question request) (rq_stream request) = Ok (JDict d) ->
  dict_get d "query_type" = Some query_type ->
  dict_get d "reasoning" = Some r ->
  py_sliceable r = false ->
  let trace := events (query_endpoint E request) in
  (exists d',
      value (intent_agent E (question request) (rq_stream request))
      = Ok (JDict d') /\
      dict_get d' "query_type" = Some query_type) /\
  stages trace = [intent] /\
  existsb structured_call trace = false /\
  existsb semantic_call trace = false /\
  value (query_endpoint E request) = Ok (Http500 (slice_error r)).
Proof.
  intros H Hqt Hr Hs. cbv zeta.
  set (st0 := initial_state (question request) (rq_stream request)
                (rq_limit_results request)).
  pose proof (intent_agent_of_object E _ _ _ H) as Ha.
  set (d3 := defaulted _ _ _) in Ha.
  assert (Hq3 : dict_get d3 "query_type" = Some query_type)
    by now apply defaulted_keeps, defaulted_keeps, defaulted_keeps.
  assert (Hr3 : dict_get d3 "reasoning" = Some r)
    by now apply defaulted_keeps, defaulted_keeps, defaulted_keeps.
  pose proof (intent_node_of_object E st0 d3 query_type Ha Hq3) as Hn.
  rewrite Hr3, Hs in Hn.
  destruct (invoke_of_intent_failure E st0 _ Hn) as (Hv & He).
  assert (Ht : events (query_endpoint E request)
               = [EvStage intent;
                  EvGenerate INTENT_AGENT_PROMPT
                    ("Question: " +++ question request) (rq_stream request)]).
  { rewrite query_endpoint_events. fold st0. rewrite He.
    now rewrite intent_node_events. }
  split; [eauto|]. rewrite Ht. repeat split.
  destruct (query_endpoint_value E request) as (a & Hav & Hm).
  fold st0 in Hm. rewrite Hv in Hm. now subst a.
Qed.

Lemma classified_request_not_served_witness :
  let trace := events (query_endpoint reasoning_world paraben_request) in
  (exists d',
      value (intent_agent reasoning_world paraben_question false)
      = Ok (JDict d') /\
      dict_get d' "query_type" = Some (JStr "COMBINED")) /\
  stages trace = [intent] /\
  existsb structured_call trace = false /\
  existsb semantic_call trace = false /\
  value (query_endpoint reasoning_world paraben_request)
  = Ok (Http500 "'int' object is not subscriptable").
Proof.
  apply (classified_request_not_served reasoning_world paraben_request
           [("query_type", JStr "COMBINED"); ("reasoning", JInt 5)]
           (JStr "COMBINED") (JInt 5)); reflexivity.
Defined.

(** ** Hybrid search *)








End AgentsMore.

(* ================================================================== *)
(** * Further properties of the orchestrator *)
(* ================================================================== *)

Section OrchestratorMore.

(** ** What the endpoint shows of the rows *)

Lemma dict_set_keys {V} (d : list (string * V)) (k k' : string) (v : V) :
  In k' (map fst (dict_set d k v)) -> k' = k \/ In k' (map fst d).
Proof.
  induction d as [|[k0 v0] d IH]; cbn.
  - intros [<-|[]]. now left.
  - destruct (String.eqb k0 k); cbn; intros [<-|H]; auto.
    destruct (IH H); auto.
Qed.

Lemma dict_of_pairs_keys {V} (kvs acc : list (string * V)) (k : string) :
  In k (map fst (dict_of_pairs acc kvs)) ->
  In k (map fst acc) \/ In k (map fst kvs).
Proof.
  revert acc. induction kvs as [|[k0 v0] kvs IH]; intros acc; cbn; [auto|].
  intros H. destruct (IH _ H) as [H1|H1]; [|auto].
  destruct (dict_set_keys _ _ _ _ H1) as [->|H2]; auto.
Qed.

Lemma public_records_keys (df : DataFrame) (rec : list (string * string))
    (k v : string) :
  In rec (public_records df) -> In (k, v) rec -> ~ In k internal_columns.
Proof.
  unfold public_records. intros Hrec Hkv.
  apply in_map_iff in Hrec. destruct Hrec as (row & <- & _).
  assert (Hk : In k (map fst
                 (dict_of_pairs []
                    (map (fun kv : string * scalar => (fst kv, scalar_str (snd kv)))
                       (filter (fun kv : string * scalar =>
                                  not_in ["citation_id"; "Rank"; "Score"] (fst kv))
                               (combine (columns df) (snd row))))))).
  { apply in_map_iff. now exists (k, v). }
  apply dict_of_pairs_keys in Hk. destruct Hk as [[]|Hk].
  rewrite map_map in Hk. cbn [fst] in Hk.
  apply in_map_iff in Hk. destruct Hk as (kv & <- & Hf).
  apply filter_In in Hf. destruct Hf as (_ & Hn).
  unfold not_in in Hn. intros Hin.
  assert (Hx : existsb (String.eqb (fst kv)) ["citation_id"; "Rank"; "Score"] = true).
  { apply existsb_exists. exists (fst kv). split; [exact Hin|apply String.eqb_refl]. }
  rewrite Hx in Hn. discriminate.
Qed.

Lemma query_endpoint_response (E : Env) (request : QueryRequest)
    (r : QueryResponse) :
  value (query_endpoint E request) = Ok (Http200 r) ->
  exists final,
    value (invoke E (initial_state (question request) (rq_stream request)
                       (rq_limit_results request))) = Ok final /\
    answer r = final_response final /\
    rs_sql_results r = public_frame (sql_results final) /\
    rs_semantic_results r = public_frame (semantic_results final) /\
    rs_citations r = citations final /\
    sources r = sql_sources final ++ semantic_sources final.
Proof.
  unfold query_endpoint, query_cosmetics_db.
  set (m := invoke E _).
  rewrite value_try, !value_bind.
  destruct (value m) as [final|e]; cbn [ret value fst]; intros H;
    inversion H; subst.
  exists final. now repeat split.
Qed.

(** X10. The rows of a response are for the eyes of the user: a result set
    that is shown has at least one row, and no row of it has one of the
    internal columns citation_id, Rank and Score. *)
Theorem response_rows_are_public (E : Env) (request : QueryRequest)
    (r : QueryResponse) (recs : list (list (string * string))) :
  value (query_endpoint E request) = Ok (Http200 r) ->
  rs_sql_results r = Some recs \/ rs_semantic_results r = Some recs ->
  recs <> [] /\
  forall rec k v, In rec recs -> In (k, v) rec -> ~ In k internal_columns.
Proof.
  intros Hv Hr.
  destruct (query_endpoint_response E request r Hv)
    as (final & _ & _ & Hs & Hm & _).
  assert (H : exists o, public_frame o = Some recs).
  { destruct Hr as [Hr|Hr]; [rewrite Hs in Hr|rewrite Hm in Hr]; eauto. }
  destruct H as (o & Ho). unfold public_frame, present in Ho.
  destruct o as [df|]; [|discriminate].
  destruct (0 <? len df)%Z eqn:Hl; [|discriminate].
  cbn in Ho. inversion Ho. subst recs. split.
  - unfold public_records, len in *. apply Z.ltb_lt in Hl.
    destruct (records df); [cbn in Hl; lia|discriminate].
  - intros rec k v. apply public_records_keys.
Qed.

Lemma response_rows_are_public_witness :
  exists r recs,
    value (query_endpoint combined_world paraben_request) = Ok (Http200 r) /\
    rs_semantic_results r = Some recs /\
    recs <> [] /\
    forall rec k v, In rec recs -> In (k, v) rec -> ~ In k internal_columns.
Proof.
  eexists. eexists.
  split; [vm_compute; reflexivity|]. split; [reflexivity|].
  eapply (response_rows_are_public combined_world paraben_request).
  - vm_compute. reflexivity.
  - right. reflexivity.
Defined.

(** ** What holds of every run *)

(** An invariant of the driver: what holds of the state before each
    node, if every node passes it on, gives what holds of the state
    the run ends with. *)
Lemma run_invariant (E : Env) (P : AgentState -> Prop) (Q : AgentState -> Prop) :
  (forall n n' st returned,
      P st -> value (run_node E n st) = Ok returned ->
      next_node n (write_back st returned) = Ok (Some n') ->
      P (write_back st returned)) ->
  (forall n st returned,
      P st -> value (run_node E n st) = Ok returned ->
      next_node n (write_back st returned) = Ok None ->
      Q (write_back st returned)) ->
  forall k n st final,
    P st -> value (run E k n st) = Ok final -> Q final.
Proof.
  intros Hstep Hend. induction k as [|k IH]; intros n st final HP; [discriminate|].
  cbn [run]. rewrite value_bind.
  destruct (value (run_node E n st)) as [returned|e] eqn:Hn; [|discriminate].
  rewrite value_bind. cbn [lift value fst].
  destruct (next_node n (write_back st returned)) as [[n'|]|e] eqn:Hx;
    [| |discriminate].
  - apply IH. eapply Hstep; eauto.
  - cbn. intros H. inversion H. subst. eapply Hend; eauto.
Qed.

Lemma intent_node_keeps (E : Env) (st st1 : AgentState) :
  value (intent_node E st) = Ok st1 ->
  sql_results st1 = sql_results st /\
  semantic_results st1 = semantic_results st.
Proof.
  unfold intent_node. rewrite value_bind. cbn [emit value fst].
  rewrite value_bind.
  destruct (intent_agent_total E (user_question st) (stream st)) as [a ->].
  rewrite value_bind. cbn [lift value fst].
  destruct (py_getitem a "query_type") as [qt|e]; [|discriminate].
  open_m. repeat split_inner; intros H; inversion H; now split.
Qed.

Lemma sql_node_keeps (E : Env) (st st' : AgentState) :
  value (sql_node E st) = Ok st' ->
  semantic_results st' = semantic_results st.
Proof.
  rewrite sql_node_value. intros H. inversion H as [Hst]. clear H Hst.
  destruct (value (sql_node_try E st)) as [done|e] eqn:Hv; [|reflexivity].
  revert Hv. unfold sql_node_try, sql_agent. open_m.
  repeat split_inner; intros H; inversion H; reflexivity.
Qed.

Lemma semantic_node_keeps (E : Env) (st st' : AgentState) :
  value (semantic_node E st) = Ok st' ->
  sql_results st' = sql_results st.
Proof.
  rewrite semantic_node_value. intros H. inversion H as [Hst]. clear H Hst.
  destruct (value (semantic_node_try E st)) as [done|e] eqn:Hv; [|reflexivity].
  revert Hv. unfold semantic_node_try, semantic_agent, semantic_search. open_m.
  repeat split_inner; intros H; inversion H; reflexivity.
Qed.

Lemma response_generator_citations (E : Env) q res stream a cits :
  value (response_generator E q res stream) = Ok (a, cits) ->
  cits = citation_list_of (d_citation_map (build_digest E res)).
Proof.
  unfold response_generator.
  destruct (d_citation_map (build_digest E res)) eqn:Hm.
  - cbn. intros H. now inversion H.
  - rewrite value_bind. destruct (value (ollama E _ _ _)); [|discriminate].
    cbn. intros H. now inversion H.
Qed.

Lemma response_node_result (E : Env) (st returned : AgentState) :
  value (response_node E st) = Ok returned ->
  sql_results returned = sql_results st /\
  semantic_results returned = semantic_results st /\
  citations returned
  = citation_list_of
      (d_citation_map
         (build_digest E (mkResults (present (sql_results st))
                                    (present (semantic_results st))))).
Proof.
  unfold response_node. rewrite value_bind. cbn [emit value fst].
  rewrite value_bind.
  destruct (value (response_generator E _ _ _)) as [[a cits]|e] eqn:Hg;
    [|discriminate].
  cbn. intros H. inversion H. subst. cbn.
  repeat split. now apply response_generator_citations in Hg.
Qed.

(** The state a run ends with holds the result sets the stages made
    and the citations of exactly these. *)
Lemma invoke_final (E : Env) (st0 final : AgentState) :
  results_made E st0 ->
  value (invoke E st0) = Ok final ->
  results_made E final /\
  citations final
  = citation_list_of
      (d_citation_map
         (build_digest E (mkResults (present (sql_results final))
                                    (present (semantic_results final))))).
Proof.
  intros Hm Hi. unfold invoke in Hi.
  refine (run_invariant E (results_made E)
            (fun f => results_made E f /\
               citations f
               = citation_list_of
                   (d_citation_map
                      (build_digest E (mkResults (present (sql_results f))
                                         (present (semantic_results f))))))
            _ _ _ _ _ _ Hm Hi).
  - intros n n' st returned (Hs & Hv) Hn _. unfold results_made.
    destruct n; cbn [run_node] in Hn; cbn [write_back sql_results semantic_results].
    + destruct (intent_node_keeps E _ _ Hn) as (-> & ->). now split.
    + rewrite (sql_node_keeps E _ _ Hn). split; [|exact Hv].
      now apply (sql_node_leaves E st).
    + rewrite (semantic_node_keeps E _ _ Hn). split; [exact Hs|].
      now apply (semantic_node_leaves E st).
    + destruct (response_node_result E _ _ Hn) as (-> & -> & _). now split.
  - intros n st returned (Hs & Hv) Hn Hx.
    destruct n; cbn [next_node] in Hx;
      try (destruct (should_use_sql _); discriminate);
      try (destruct (should_use_semantic _); discriminate);
      try discriminate.
    cbn [run_node] in Hn.
    destruct (response_node_result E _ _ Hn) as (H1 & H2 & H3).
    unfold results_made.
    cbn [write_back sql_results semantic_results citations].
    rewrite H1, H2, H3. now repeat split.
Qed.

(** ** One citation for each row shown *)

Lemma digest_table (E : Env) (osql osem : option DataFrame) :
  structured_result osql -> semantic_result E osem ->
  d_citation_map (build_digest E (mkResults osql osem))
  = table_of "sql-" "sql" (frame_of osql) 0 1 (rows_of osql)
    ++ table_of "sem-" "semantic" (frame_of osem) 0
         (1 + Z.of_nat (List.length (rows_of osql))) (rows_of osem).
Proof.
  intros Hs Hv.
  destruct (process_sql_table E osql osem Hs) as (Hmap & Hcount).
  cbv zeta in Hmap, Hcount. unfold build_digest.
  rewrite (process_semantic_table E osql osem _
             (ids "sql-" 0 (List.length (rows_of osql))) Hv).
  - now rewrite Hmap, Hcount.
  - rewrite Hmap. apply table_of_keys.
  - apply all_ids_NoDup.
Qed.

Lemma present_structured (o : option DataFrame) :
  structured_result o -> structured_result (present o).
Proof.
  intros H. destruct o as [df|]; [|exact H]. cbn.
  destruct (0 <? len df)%Z; [exact H|apply structured_absent].
Qed.

Lemma present_semantic (E : Env) (o : option DataFrame) :
  semantic_result E o -> semantic_result E (present o).
Proof.
  intros H. destruct o as [df|]; [|exact H]. cbn.
  destruct (0 <? len df)%Z; [exact H|apply semantic_absent].
Qed.

Lemma present_rows (o : option DataFrame) :
  List.length (rows_of (present o)) = shown (public_frame o).
Proof.
  unfold public_frame. destruct o as [df|]; [|reflexivity]. cbn [present].
  destruct (0 <? len df)%Z; [|reflexivity].
  cbn. unfold public_records. now rewrite !length_map.
Qed.

Lemma table_of_types tag kind df i c rows :
  map (fun kv => e_type (snd kv)) (table_of tag kind df i c rows)
  = repeat kind (List.length rows).
Proof.
  revert i c. induction rows as [|r rows IH]; intros i c; [reflexivity|].
  cbn. f_equal. apply IH.
Qed.

Lemma citation_list_fields (t : citation_map) :
  map citation_number (citation_list_of t)
    = map (fun kv => e_citation_number (snd kv)) t /\
  map type (citation_list_of t) = map (fun kv => e_type (snd kv)) t /\
  map citation_id (citation_list_of t) = map fst t.
Proof.
  unfold citation_list_of. rewrite !map_map.
  repeat split; apply map_ext; now intros [k e].
Qed.

(** X11. Every response that is not an error cites each row it shows once:
    its citations are numbered 1, 2, ... without a gap, first one for
    each structured row shown, then one for each semantic row shown,
    and no citation id occurs twice. *)
Theorem one_citation_per_row (E : Env) (request : QueryRequest)
    (r : QueryResponse) :
  value (query_endpoint E request) = Ok (Http200 r) ->
  let n := shown (rs_sql_results r) in
  let m := shown (rs_semantic_results r) in
  map citation_number (rs_citations r) = map Z.of_nat (seq 1 (n + m)) /\
  map type (rs_citations r) = repeat "sql" n ++ repeat "semantic" m /\
  NoDup (map citation_id (rs_citations r)).
Proof.
  intros Hv.
  destruct (query_endpoint_response E request r Hv)
    as (final & Hi & _ & Hs & Hm & Hc & _).
  assert (H0 : results_made E (initial_state (question request)
                                 (rq_stream request) (rq_limit_results request)))
    by (split; constructor).
  destruct (invoke_final E _ final H0 Hi) as ((Hrs & Hrv) & Hcit).
  cbv zeta. rewrite Hs, Hm, Hc, Hcit, <- !present_rows.
  rewrite (digest_table E _ _ (present_structured _ Hrs)
             (present_semantic E _ Hrv)).
  set (osql := present (sql_results final)).
  set (osem := present (semantic_results final)).
  destruct (citation_list_fields
              (table_of "sql-" "sql" (frame_of osql) 0 1 (rows_of osql)
               ++ table_of "sem-" "semantic" (frame_of osem) 0
                    (1 + Z.of_nat (List.length (rows_of osql))) (rows_of osem)))
    as (-> & -> & ->).
  rewrite !map_app. split; [|split].
  - pose proof (table_of_numbers "sql-" "sql" (frame_of osql) 0
                  (rows_of osql) 1) as H1.
    change (Z.of_nat 1) with 1%Z in H1. rewrite H1.
    replace (1 + Z.of_nat (List.length (rows_of osql)))%Z
      with (Z.of_nat (S (List.length (rows_of osql)))) by lia.
    rewrite (table_of_numbers "sem-" "semantic" (frame_of osem) 0
               (rows_of osem) (S (List.length (rows_of osql)))).
    rewrite <- map_app. f_equal. now rewrite seq_app.
  - now rewrite !table_of_types.
  - rewrite !table_of_keys, <- map_app.
    apply Injective_map_NoDup; [intros a b H; now inversion H|].
    apply all_ids_NoDup.
Qed.

Lemma one_citation_per_row_witness :
  exists r,
    value (query_endpoint combined_world paraben_request) = Ok (Http200 r) /\
    map citation_number (rs_citations r) = [1; 2; 3; 4; 5; 6; 7; 8]%Z.
Proof.
  eexists. split; [vm_compute; reflexivity|].
  refine (proj1 (one_citation_per_row combined_world paraben_request _ _)).
  vm_compute. reflexivity.
Defined.

(** ** The calls of a request *)

Lemma run_events_invariant (E : Env) (P : AgentState -> Prop)
    (T : event -> Prop) :
  (forall n n' st returned,
      P st -> value (run_node E n st) = Ok returned ->
      next_node n (write_back st returned) = Ok (Some n') ->
      P (write_back st returned)) ->
  (forall n st, P st -> Forall T (events (run_node E n st))) ->
  forall k n st, P st -> Forall T (events (run E k n st)).
Proof.
  intros Hstep Hnode. induction k as [|k IH]; intros n st HP; [constructor|].
  cbn [run]. rewrite events_bind. apply Forall_app. split; [now apply Hnode|].
  destruct (value (run_node E n st)) as [returned|e] eqn:Hn; [|constructor].
  rewrite events_bind. cbn [lift events value fst snd app].
  destruct (next_node n (write_back st returned)) as [[n'|]|e] eqn:Hx;
    try constructor.
  apply IH. eapply Hstep; eauto.
Qed.

Lemma response_node_events_exact (E : Env) (st : AgentState) :
  events (response_node E st)
  = EvStage response ::
    events (response_generator E (user_question st)
              (mkResults (present (sql_results st))
                         (present (semantic_results st))) (stream st)).
Proof.
  unfold response_node. rewrite events_bind. cbn [emit events value fst snd app].
  rewrite events_bind.
  destruct (value (response_generator E _ _ _)); cbn; now rewrite app_nil_r.
Qed.

Lemma executed_app (u v : list event) :
  executed (u ++ v) = executed u ++ executed v.
Proof.
  induction u as [|e u IH]; [reflexivity|]. destruct e; cbn; now rewrite IH.
Qed.

(** The trace of a run: the intent stage, then each of the other stages
    at most once, in their order. *)
Lemma invoke_shape (E : Env) (st0 : AgentState) :
  exists a b c,
    events (invoke E st0) = events (intent_node E st0) ++ a ++ b ++ c /\
    (a = [] \/ exists st, a = events (sql_node E st)) /\
    (b = [] \/ exists st, b = events (semantic_node E st)) /\
    (c = [] \/ exists st, c = events (response_node E st)).
Proof.
  unfold invoke, recursion_limit.
  change (run E 25 intent st0)
    with (bind (intent_node E st0) (fun returned =>
            bind (lift (next_node intent (write_back st0 returned)))
              (fun following =>
                 match following with
                 | None => ret (write_back st0 returned)
                 | Some n' => run E 24 n' (write_back st0 returned)
                 end))).
  rewrite events_bind.
  destruct (value (intent_node E st0)) as [st1|e] eqn:Hv.
  2:{ exists [], [], []. repeat split; auto. }
  destruct (intent_node_value E st0 st1 Hv) as (qt & Hqt & _).
  assert (Hq : query_type_of (write_back st0 st1) = Ok qt) by exact Hqt.
  cbn [next_node]. unfold should_use_sql. rewrite Hq. cbn [result_bind].
  destruct (is_str "STRUCTURED" qt || is_str "COMBINED" qt);
    cbn [result_bind]; rewrite events_bind; cbn [lift events value fst snd app].
  - destruct (run_sql E 21 _ qt Hq) as (st' & w & -> & Hw).
    destruct (is_str "COMBINED" qt).
    + destruct Hw as (st'' & ->).
      exists (events (sql_node E (write_back st0 st1))),
             (events (semantic_node E st')), (events (response_node E st'')).
      repeat split; eauto.
    + subst w.
      exists (events (sql_node E (write_back st0 st1))), [],
             (events (response_node E st')).
      repeat split; eauto.
  - destruct (run_semantic E 22 (write_back st0 st1)) as (st' & ->).
    exists [], (events (semantic_node E (write_back st0 st1))),
           (events (response_node E st')).
    repeat split; eauto.
Qed.

(** X12. What a request asks of the services. It executes at most one query
    against the store and never the filter query of hybrid search; it
    asks the index at most once, for the question as it was put and for
    the smallest of the limit of the request, 6 and 5 neighbours; and
    it calls the text generator at most once with each prompt. *)
Theorem calls_of_a_request (E : Env) (request : QueryRequest) :
  let trace := events (query_endpoint E request) in
  let top_k := Z.min (Z.min (rq_limit_results request) 6) 5 in
  List.length (executed trace) <= 1 /\
  store_reads trace = [] /\
  (index_queries trace = [] \/
   index_queries trace = [(question request, top_k)]) /\
  NoDup (generations trace).
Proof.
  cbv zeta. rewrite query_endpoint_events.
  set (st0 := initial_state (question request) (rq_stream request)
                (rq_limit_results request)).
  assert (Hparams : Forall (index_call_of (question request)
                              (Z.min (Z.min (rq_limit_results request) 6) 5))
                      (events (invoke E st0))).
  { unfold invoke.
    apply (run_events_invariant E
             (fun st => user_question st = question request /\
                        limit_results st = Z.min (rq_limit_results request) 6)).
    - intros n n' st returned (Hu & Hl) Hn _.
      cbn [write_back user_question limit_results].
      destruct n; cbn [run_node] in Hn.
      + destruct (intent_node_value E _ _ Hn) as (_ & _ & _ & -> & _ & ->).
        now split.
      + destruct (sql_node_same E st) as (st' & Hv' & (Hq' & _ & _ & Hl')).
        rewrite Hn in Hv'. inversion Hv'. subst. now rewrite <- Hq', <- Hl'.
      + destruct (semantic_node_same E st) as (st' & Hv' & (Hq' & _ & _ & Hl')).
        rewrite Hn in Hv'. inversion Hv'. subst. now rewrite <- Hq', <- Hl'.
      + unfold response_node in Hn. revert Hn. open_m.
        repeat split_inner; intros H; inversion H; now split.
    - intros n st (Hu & Hl). destruct n; cbn [run_node].
      + rewrite intent_node_events. repeat constructor.
      + rewrite sql_node_events. cbv zeta.
        destruct (generate E SQL_AGENT_PROMPT _ _); repeat constructor.
      + rewrite semantic_node_events, Hu, Hl. repeat constructor.
      + rewrite response_node_events_exact, response_generator_events.
        destruct (d_citation_map _); repeat constructor.
    - now split. }
  destruct (invoke_shape E st0) as (a & b & c & Heq & Ha & Hb & Hc).
  rewrite Heq in *. clear Heq. rewrite intent_node_events in *.
  assert (Ha' : exists q p s,
             a = [] \/ a = [EvStage sql; EvGenerate SQL_AGENT_PROMPT p s] \/
             a = [EvStage sql; EvGenerate SQL_AGENT_PROMPT p s; EvExecute q]).
  { destruct Ha as [->|(st & ->)]; [exists EmptyString, EmptyString, true; auto|].
    rewrite sql_node_events. cbv zeta.
    destruct (generate E SQL_AGENT_PROMPT _ _) as [reply|e].
    - exists (extract_sql reply). eauto.
    - exists EmptyString. eauto. }
  assert (Hb' : exists t k, b = [] \/ b = [EvStage semantic; EvIndexQuery t k]).
  { destruct Hb as [->|(st & ->)]; [exists EmptyString, 0%Z; auto|].
    rewrite semantic_node_events. eauto. }
  assert (Hc' : exists p s,
             c = [] \/ c = [EvStage response] \/
             c = [EvStage response; EvGenerate RESPONSE_GENERATOR_PROMPT p s]).
  { destruct Hc as [->|(st & ->)]; [exists EmptyString, true; auto|].
    rewrite response_node_events_exact, response_generator_events.
    destruct (d_citation_map _); [exists EmptyString, true; auto|eauto]. }
  clear Ha Hb Hc.
  destruct Ha' as (q & p & s & Ha), Hb' as (t & k & Hb), Hc' as (p' & s' & Hc).
  destruct Ha as [->|[->| ->]], Hb as [->| ->], Hc as [->|[->| ->]];
    cbn [app] in *;
    repeat match goal with
           | H : Forall _ (_ :: _) |- _ => inversion_clear H
           end;
    repeat match goal with
           | H : index_call_of _ _ (EvIndexQuery _ _) |- _ =>
               destruct H as [-> ->]
           end;
    cbn; (split; [lia|]); (split; [reflexivity|]);
    (split; [auto|]);
    repeat (constructor; [cbn; intuition discriminate|]); constructor.
Qed.

End OrchestratorMore.

(* ================================================================== *)
(** * The sanitiser and the safety report *)
(* ================================================================== *)

Section ValidatorReport.

(** ** The sanitiser *)

Lemma collapse_single (s : string) :
  forall b, single_spaced b (collapse_blanks b s) = true.
Proof.
  induction s as [|c s IH]; intros b; [reflexivity|].
  cbn [collapse_blanks]. destruct (is_space c) eqn:Hc.
  - destruct b; [apply IH|].
    cbn [single_spaced]. change (is_space " ") with true. cbn. apply IH.
  - cbn [single_spaced]. rewrite Hc. apply IH.
Qed.

Lemma single_weaken (s : string) :
  single_spaced true s = true -> single_spaced false s = true.
Proof.
  destruct s as [|c s]; [reflexivity|]. cbn [single_spaced].
  destruct (is_space c); [|auto]. now rewrite andb_false_r.
Qed.

Lemma single_lstrip (s : string) :
  forall b, single_spaced b s = true -> single_spaced false (lstrip s) = true.
Proof.
  induction s as [|c s IH]; intros b H; [reflexivity|].
  cbn [lstrip]. cbn [single_spaced] in H. destruct (is_space c) eqn:Hc.
  - apply (IH true). now apply andb_prop in H.
  - cbn [single_spaced]. now rewrite Hc.
Qed.

Lemma single_rstrip (s : string) :
  forall b, single_spaced b s = true -> single_spaced b (rstrip s) = true.
Proof.
  induction s as [|c s IH]; intros b H; [reflexivity|].
  cbn [rstrip]. cbn [single_spaced] in H.
  destruct (is_space c) eqn:Hc.
  - apply andb_prop in H. destruct H as [H1 H2]. specialize (IH true H2).
    destruct (rstrip s) as [|c' r]; [reflexivity|].
    cbn [single_spaced] in *. rewrite Hc, H1. exact IH.
  - specialize (IH false H).
    destruct (rstrip s) as [|c' r]; cbn [single_spaced] in *; now rewrite Hc.
Qed.

Lemma length_line (s : string) :
  forall b, String.length (drop_line_comments b s) <= String.length s.
Proof.
  induction s as [|c s IH]; intros b; [destruct b; reflexivity|].
  cbn [drop_line_comments].
  pose proof (IH true). pose proof (IH false).
  destruct b; [destruct (Ascii.eqb c newline)|destruct (prefix "--" (String c s))];
    cbn [String.length]; lia.
Qed.

Lemma length_block (s : string) :
  forall k, String.length (drop_block_comments k s) <= String.length s.
Proof.
  induction s as [|c s IH]; intros k; [destruct k; reflexivity|].
  cbn [drop_block_comments].
  destruct k as [|k].
  - destruct (prefix "/*" (String c s)).
    + destruct (find "*/" (drop 2 (String c s))) as [i|].
      * pose proof (IH (i + 3)). cbn [String.length]. lia.
      * pose proof (IH 0). cbn [String.length]. lia.
    + pose proof (IH 0). cbn [String.length]. lia.
  - pose proof (IH k). cbn [String.length]. lia.
Qed.

Lemma length_collapse (s : string) :
  forall b, String.length (collapse_blanks b s) <= String.length s.
Proof.
  induction s as [|c s IH]; intros b; [reflexivity|].
  cbn [collapse_blanks]. pose proof (IH true). pose proof (IH false).
  destruct (is_space c); [destruct b|]; cbn [String.length]; lia.
Qed.

Lemma length_lstrip (s : string) : String.length (lstrip s) <= String.length s.
Proof.
  induction s as [|c s IH]; [reflexivity|].
  cbn [lstrip]. destruct (is_space c); cbn [String.length] in *; lia.
Qed.

Lemma length_rstrip (s : string) : String.length (rstrip s) <= String.length s.
Proof.
  induction s as [|c s IH]; [reflexivity|].
  cbn [rstrip]. destruct (rstrip s) as [|c' r].
  - destruct (is_space c); cbn [String.length] in *; lia.
  - cbn [String.length] in *; lia.
Qed.

Lemma single_one_line (u : string) :
  forall b, single_spaced b u = true ->
            contains (String newline EmptyString) u = false.
Proof.
  induction u as [|c u IH]; intros b H; [reflexivity|].
  unfold contains in *. cbn [find prefix].
  cbn [single_spaced] in H.
  destruct (ascii_dec newline c) as [<-|Hn].
  - change (is_space newline) with true in H. cbn in H.
    destruct b; discriminate.
  - assert (Hu : exists b', single_spaced b' u = true).
    { destruct (is_space c); [|eauto].
      apply andb_prop in H. destruct H as [_ H]. eauto. }
    destruct Hu as (b' & Hu). specialize (IH b' Hu).
    destruct (find (String newline EmptyString) u); [discriminate|reflexivity].
Qed.

(** X13. What the sanitiser returns is one line in a normal form: every blank
    in it is a space, no blank follows another, none stands at either
    end; and it is never longer than the query it was given. *)
Theorem sanitized_query_normal_form (sql_query : string) :
  let query := sanitize_query sql_query in
  single_spaced false query = true /\
  strip query = query /\
  contains (String newline EmptyString) query = false /\
  String.length query <= String.length sql_query.
Proof.
  cbv zeta. unfold sanitize_query.
  set (t := collapse_blanks false _).
  assert (Hs : single_spaced false (strip t) = true).
  { unfold strip. apply single_rstrip. apply (single_lstrip t false).
    apply collapse_single. }
  repeat split.
  - exact Hs.
  - apply strip_idempotent.
  - exact (single_one_line _ _ Hs).
  - unfold strip.
    pose proof (length_rstrip (lstrip t)). pose proof (length_lstrip t).
    subst t.
    pose proof (length_collapse
                  (drop_block_comments 0 (drop_line_comments false sql_query))
                  false).
    pose proof (length_block (drop_line_comments false sql_query) 0).
    pose proof (length_line sql_query false).
    lia.
Qed.

(** ** The safety score *)

(** A literal that matches, letter for letter, is a prefix of the text. *)
Lemma lit_match_exact (w : string) :
  forall (tail : pattern) prev s go gc r,
    match_here false (lit w ++ tail) prev s go gc = Some r ->
    prefix w s = true.
Proof.
  induction w as [|x w IH]; intros tail prev s go gc r H; [apply prefix_nil|].
  cbn [lit app match_here] in H. destruct s as [|c s]; [discriminate|].
  destruct (chr_eq false x c) eqn:Hc; [|discriminate].
  unfold chr_eq in Hc. apply Ascii.eqb_eq in Hc. subst c.
  cbn [prefix]. destruct (ascii_dec x x) as [_|n]; [|now elim n].
  eapply IH; eauto.
Qed.

(** Where the letters of JOIN do not occur, the word is not found. *)
Lemma no_join_found (s : string) :
  forall skip prev,
    contains "JOIN" s = false ->
    findall_from false join_pattern skip prev s = [].
Proof.
  unfold contains.
  induction s as [|c s IH]; intros skip prev H.
  - destruct skip; [|reflexivity]. cbn [findall_from].
    destruct (match_here false join_pattern prev EmptyString None None)
      as [r|] eqn:Hm; [|reflexivity].
    unfold join_pattern in Hm. cbn [match_here] in Hm.
    destruct (at_boundary prev EmptyString); [|discriminate].
    apply (lit_match_exact "JOIN" [WordB]) in Hm. discriminate.
  - cbn [find] in H.
    destruct (prefix "JOIN" (String c s)) eqn:Hp; [discriminate|].
    assert (Hs : match find "JOIN" s with Some _ => true | None => false end
                 = false)
      by (destruct (find "JOIN" s); [discriminate|reflexivity]).
    destruct skip as [|k]; cbn [findall_from]; [|now apply IH].
    destruct (match_here false join_pattern prev (String c s) None None)
      as [r|] eqn:Hm; [|now apply IH].
    unfold join_pattern in Hm. cbn [match_here] in Hm.
    destruct (at_boundary prev (String c s)); [|discriminate].
    apply (lit_match_exact "JOIN" [WordB]) in Hm. congruence.
Qed.

(** X14. The score of a query is that of its JOINs, counted as whole words,
    and of its LIKE: the test for the letters of JOIN changes nothing.
    It lies between 0 and 100; and the complexity is high exactly for
    more than three JOINs, when the score is at most 40 and the first
    warning tells their number. *)
Theorem safety_score_of_joins (sql_query : string) :
  let report := analyze_query_safety sql_query in
  let n := joins sql_query in
  safety_score report = score_of n (contains "LIKE" (upper sql_query)) /\
  (0 <= safety_score report <= 100)%Z /\
  (complexity_level report = "high" <-> 3 < n) /\
  (3 < n ->
   (safety_score report <= 40)%Z /\
   hd_error (warnings report)
   = Some ("Query has " +++ str_of_nat n +++ " JOINs - may be slow")).
Proof.
  cbv zeta. unfold analyze_query_safety, joins, score_of.
  cbn [safety_score complexity_level warnings].
  set (u := upper sql_query).
  set (n := List.length (re_findall false join_pattern u)).
  assert (Hn : contains "JOIN" u = false -> n = 0).
  { intros H. unfold n, re_findall. now rewrite no_join_found. }
  destruct (Nat.ltb_spec 3 n) as [H3|H3].
  - change (String.eqb "high" "high") with true.
    destruct (contains "JOIN" u) eqn:Hj; [|specialize (Hn eq_refl); lia].
    destruct (contains "LIKE" u); cbn [hd_error app]; repeat split; auto; lia.
  - assert (Hc : String.eqb
                   (if (1 <? n)
                       || (1 <? List.length (re_findall false where_pattern u))
                    then "medium" else "low") "high" = false)
      by (destruct ((1 <? n) || _); reflexivity).
    rewrite Hc.
    assert (Hhigh : (if (1 <? n)
                        || (1 <? List.length (re_findall false where_pattern u))
                     then "medium" else "low") = "high" -> 3 < n)
      by (intros H; rewrite H in Hc; discriminate Hc).
    destruct (contains "JOIN" u) eqn:Hj; [|specialize (Hn eq_refl)];
      destruct (contains "LIKE" u); repeat split; try lia;
      try (intros; lia); exact Hhigh.
Qed.

Lemma safety_score_of_joins_witness :
  joins four_joins = 4 /\
  safety_score (analyze_query_safety four_joins) = 40%Z /\
  hd_error (warnings (analyze_query_safety four_joins))
  = Some "Query has 4 JOINs - may be slow".
Proof.
  assert (H4 : joins four_joins = 4) by (vm_compute; reflexivity).
  assert (H3 : 3 < joins four_joins) by (rewrite H4; lia).
  destruct (safety_score_of_joins four_joins) as (Hs & _ & _ & Hw).
  destruct (Hw H3) as (_ & Hd).
  split; [exact H4|]. split.
  - rewrite Hs, H4. reflexivity.
  - rewrite Hd, H4. reflexivity.
Defined.

(** ** The report *)

(** X15. For a query in ASCII the two halves of a report agree on the
    read-only rule. The analysis says that the query is not a SELECT
    exactly when the validator rejects it as empty or as not being one;
    so a query the report calls valid is one it calls select-only,
    whatever the order in which the keywords are visited. *)
Theorem report_agrees_on_select (order : list string) (sql_query : string) :
  isascii sql_query = true ->
  let report := get_sql_safety_report order sql_query in
  (is_select_only (analysis report) = false <->
   snd (validation report) = Some msg_empty \/
   snd (validation report) = Some msg_select) /\
  (fst (validation report) = true ->
   is_select_only (analysis report) = true).
Proof.
  intros _.
  cbv zeta. unfold get_sql_safety_report, validate_sql_before_execution.
  cbn [analysis validation]. unfold analyze_query_safety.
  cbn [is_select_only]. rewrite select_readings_agree.
  unfold validate_query.
  destruct sql_query as [|c0 q0].
  - cbn. repeat split; auto; discriminate.
  - set (query := strip (String c0 q0)).
    destruct (found (re_match true select_pattern query));
      cbn [negb fst snd]; [|repeat split; auto; discriminate].
    split; [|reflexivity]. split; [discriminate|].
    destruct (first_keyword order (upper query)) as [k|];
      [cbn; intros [H|H]; discriminate|].
    destruct (first_injection injection_patterns query) as [src|];
      [cbn; intros [H|H]; discriminate|].
    destruct (first_disallowed (re_findall true table_pattern query)) as [t|];
      [cbn; intros [H|H]; discriminate|].
    destruct (5000 <? String.length query); cbn; intros [H|H]; discriminate.
Qed.

Lemma report_agrees_on_select_witness :
  let report := get_sql_safety_report DANGEROUS_KEYWORDS
                  "  select name from products " in
  isascii "  select name from products " = true /\
  fst (validation report) = true /\
  is_select_only (analysis report) = true.
Proof.
  cbv zeta.
  assert (Hv : fst (validation (get_sql_safety_report DANGEROUS_KEYWORDS
                                  "  select name from products ")) = true)
    by (vm_compute; reflexivity).
  split; [reflexivity|]. split; [exact Hv|].
  exact (proj2 (report_agrees_on_select DANGEROUS_KEYWORDS
                  "  select name from products " eq_refl) Hv).
Defined.

End ValidatorReport.
